(** * RFQ automation: browser pool, workflow orchestrator and batch coordinator

    A shallow embedding of [core.py], [scrapers/browser_pool.py],
    [utils/helpers.py] and the bounded-concurrent endpoint of [api.py],
    with the properties of the natural-language specification stated and
    settled against it. *)

From Stdlib Require Import ZArith QArith Qminmax Lia Lqa Ascii String.
From stdpp Require Import base decidable option list gmap strings pretty.

Local Open Scope string_scope.
Local Open Scope list_scope.
Local Open Scope Z_scope.

(** ** Data model ([models.py]) *)

(** [ApprovedSource]: a supplier row scraped from DIBBS. *)
Record ApprovedSource := mkApprovedSource {
  src_cage_code : string;
  src_part_number : string;
  src_company_name : string
}.

(** [WBPartsManufacturer]: a manufacturer row scraped from WBParts. *)
Record WBPartsManufacturer := mkWBPartsManufacturer {
  mfr_part_number : string;
  mfr_cage_code : string;
  mfr_company_name : string
}.

(** The dictionaries built by [get_unique_suppliers_list], with keys
    ["companyName"], ["cageCode"] and ["partNumber"]. *)
Record Supplier := mkSupplier {
  companyName : string;
  cageCode : string;
  partNumber : string
}.

#[export] Instance Supplier_eq_dec : EqDecision Supplier.
Proof. solve_decision. Defined.

(** Python truthiness of a [str]: the empty string is falsy. *)
Definition truthy (s : string) : bool := negb (String.eqb s EmptyString).

(** ** Stage B: merge and dedupe ([core.get_unique_suppliers_list]) *)

Module Merge.

(** The f-string [f"{company_name}|{cage_code}"]. *)
Definition supplier_key (company_name cage_code : string) : string :=
  company_name +:+ "|" +:+ cage_code.

(** The loop state: the [seen] set and the [suppliers] list. *)
Definition merge_state : Type := gset string * list Supplier.

(** One iteration of either loop: the entity is appended, and its key
    recorded, when the key is new and the company name is truthy. *)
Definition add_supplier (st : merge_state)
    (company_name cage_code part_number : string) : merge_state :=
  let key := supplier_key company_name cage_code in
  if bool_decide (key ∉ st.1) && truthy company_name
  then ({[key]} ∪ st.1,
        st.2 ++ [mkSupplier company_name cage_code part_number])
  else st.

Definition add_source (st : merge_state) (source : ApprovedSource) : merge_state :=
  add_supplier st (src_company_name source) (src_cage_code source)
    (src_part_number source).

Definition add_mfr (st : merge_state) (mfr : WBPartsManufacturer) : merge_state :=
  add_supplier st (mfr_company_name mfr) (mfr_cage_code mfr)
    (mfr_part_number mfr).

Definition get_unique_suppliers_list (dibbs_sources : list ApprovedSource)
    (wbparts_mfrs : list WBPartsManufacturer) : list Supplier :=
  let st1 := foldl add_source (∅, []) dibbs_sources in
  let st2 := foldl add_mfr st1 wbparts_mfrs in
  st2.2.

(** The entity a source row stands for. *)
Definition of_source (s : ApprovedSource) : Supplier :=
  mkSupplier (src_company_name s) (src_cage_code s) (src_part_number s).

Definition of_mfr (m : WBPartsManufacturer) : Supplier :=
  mkSupplier (mfr_company_name m) (mfr_cage_code m) (mfr_part_number m).

(** The key the code computes for an entity, and the composite identity
    (name, secondary id) of the specification. *)
Definition key_of (s : Supplier) : string :=
  supplier_key (companyName s) (cageCode s).

Definition identity (s : Supplier) : string * string :=
  (companyName s, cageCode s).

(** First-occurrence-wins deduplication by an arbitrary key, in
    insertion order: the reading of the specification's "deduplicating by
    composite identity key". [seen] lists the keys already taken. *)
Fixpoint dedup_from {K} `{EqDecision K} (key : Supplier -> K)
    (seen : list K) (l : list Supplier) : list Supplier :=
  match l with
  | [] => []
  | x :: l' =>
      if bool_decide (key x ∈ seen) then dedup_from key seen l'
      else x :: dedup_from key (key x :: seen) l'
  end.

Definition dedup_first {K} `{EqDecision K} (key : Supplier -> K)
    (l : list Supplier) : list Supplier :=
  dedup_from key [] l.

(** The merge as the specification words it: the union of the entity
    lists, deduplicated by (name, secondary id). *)
Definition merge_spec (dibbs_sources : list ApprovedSource)
    (wbparts_mfrs : list WBPartsManufacturer) : list Supplier :=
  dedup_first identity (map of_source dibbs_sources ++ map of_mfr wbparts_mfrs).

Definition named (s : Supplier) : bool := truthy (companyName s).

(** One loop iteration on an entity, whichever source it comes from. *)
Definition add_entity (st : merge_state) (e : Supplier) : merge_state :=
  add_supplier st (companyName e) (cageCode e) (partNumber e).

(** No vertical bar in a string: the separator of [supplier_key] then
    splits a key in one way only. *)
Fixpoint bar_free (s : string) : bool :=
  match s with
  | EmptyString => true
  | String c s' => negb (Ascii.eqb c "|"%char) && bar_free s'
  end.

End Merge.

(** ** Exceptions and outcomes of fallible calls *)

(** What a [RuntimeError] of the pool says. The two messages of
    [get_context] are kept structured: the pool-busy message is formatted
    from the timeout, [config.MAX_BROWSER_PAGES] and [self._waiting]. *)
Inductive message :=
| NotStarted
| PoolBusy (timeout : Q) (max_pages waiting : Z)
| Text (s : string).

(** Python exceptions deriving from [Exception]: what [except Exception]
    catches. Cancellation of the running task and interpreter exit derive
    from [BaseException] only and are not values of this type; the one
    place where the code's behaviour under cancellation is stated, the
    exit of a [get_context] block, has its own [exit_kind]. *)
Inductive exn :=
| RuntimeError (m : message)
| TimeoutError
| ValueError (s : string)
| OtherError (s : string).

(** ['%.0f' % q]: round to the nearest integer, ties to even; a negative
    value that rounds to zero prints as ["-0"]. Floats are taken as the
    rationals they denote. *)
Definition round_half_even (q : Q) : Z :=
  let n := Qnum q in
  let d := Z.pos (Qden q) in
  let fl := n / d in
  let r2 := 2 * (n mod d) in
  if r2 <? d then fl
  else if d <? r2 then fl + 1
  else if Z.even fl then fl else fl + 1.

Definition format_0f (q : Q) : string :=
  let r := round_half_even q in
  if (r =? 0) && (Qnum q <? 0) then "-0" else pretty r.

(** [str(e)], as stored in error messages. *)
Definition str (e : exn) : string :=
  match e with
  | RuntimeError NotStarted => "BrowserPool not started. Call start() first."
  | RuntimeError (PoolBusy timeout max_pages waiting) =>
      "Browser pool busy: no slot available within " +:+ format_0f timeout
      +:+ "s (max_pages=" +:+ pretty max_pages +:+ ", waiting="
      +:+ pretty waiting +:+ ")"
  | RuntimeError (Text s) => s
  | TimeoutError => EmptyString
  | ValueError s => s
  | OtherError s => s
  end.

Inductive outcome (A : Type) :=
| Returns (a : A)
| Raises (e : exn).
Arguments Returns {A} a.
Arguments Raises {A} e.

(** ** Configuration ([config.py]) *)

Record Config := mkConfig {
  FIRECRAWL_API_KEY : string;
  FIRECRAWL_CONCURRENCY : Z;
  BATCH_DELAY : Z;
  MAX_BROWSER_PAGES : Z;
  BROWSER_POOL_TIMEOUT : Z
}.

(** [str.startswith]. *)
Definition startswith (s p : string) : bool :=
  String.eqb (String.substring 0 (String.length p) s) p.

Definition is_firecrawl_configured (config : Config) : bool :=
  truthy (FIRECRAWL_API_KEY config) && startswith (FIRECRAWL_API_KEY config) "fc-".

(** ** The shared browser pool ([scrapers/browser_pool.py]) *)

Module Pool.

(** [self._browser]: [None], a connected browser, or a browser object
    whose process has gone ([is_connected()] is false). *)
Inductive browser_state := NoBrowser | Connected | Disconnected.

(** The pool object, together with a census of the [get_context] calls
    in flight. [_semaphore] is the value of the [asyncio.Semaphore] that
    [self._semaphore] refers to; [retired] lists the semaphores that
    [start()] has replaced, each with its value and the number of calls
    still blocked on it; [lost] counts the calls that ended with a
    cancellation inside [ctx.close()]: their permit of the current
    semaphore is never given back, and their context may still be
    open. *)
Record BrowserPool := mkPool {
  _started : bool;
  _browser : browser_state;
  _semaphore : Z;
  _waiting : Z;
  blocked : nat;              (* inside [wait_for(self._semaphore.acquire())] *)
  retired : list (Z * nat);
  granted : nat;              (* slot acquired, context not yet created *)
  live : nat;                 (* inside the block, context open *)
  dead : nat;                 (* inside the block, context gone with its browser *)
  lost : nat                  (* ended in a cancelled [ctx.close()], permit kept *)
}.

(** [BrowserPool()]: the module-level singleton before [start()]. *)
Definition new_pool : BrowserPool :=
  mkPool false NoBrowser 0 0 0 [] 0 0 0 0.

(** How the caller's [async with] block ends. *)
Inductive exit_kind := ExitNormal | ExitException | ExitCancelled.

(** [await ctx.close()] returns, or raises an [Exception] that the
    handler swallows. A [CancelledError] raised inside [ctx.close()] is
    not an [Exception]: it is the event [CloseCancelled] below. *)
Inductive close_result := Closed | CloseRaised.

(** [_ensure_browser()] followed by [browser.new_context()]. *)
Inductive open_result := Opened | LaunchFailed | NewContextFailed.

Inductive wait_result := Acquired | TimedOut.

(** What can happen to the pool. [Cancel] and [RetiredCancel] are the
    cancellation of a call blocked in
    [wait_for(self._semaphore.acquire())] (on the current semaphore, on a
    replaced one); [CloseCancelled] is the exit of a block during which
    the task is cancelled inside [await ctx.close()]. A cancellation
    between the acquire and the entry of the block ends like a failed
    [Open]. *)
Inductive event :=
| Start (launched : bool)
| Stop
| Crash
| Request
| Grant
| Timeout
| RetiredGrant (i : nat)
| RetiredTimeout (i : nat)
| Open (o : open_result)
| Exit (ctx_live : bool) (how : exit_kind) (c : close_result)
| Cancel
| RetiredCancel (i : nat)
| CloseCancelled (ctx_live : bool) (how : exit_kind).

Section WithConfig.
Variable config : Config.

(** [start()]. The launch may raise, leaving the pool as it was; the
    browser is assigned before the semaphore is created, and
    [asyncio.Semaphore] rejects a negative initial value. The new
    semaphore has lost no permit. *)
Definition start (launched : bool) (p : BrowserPool) : BrowserPool :=
  if _started p then p
  else if negb launched then p
  else if MAX_BROWSER_PAGES config <? 0
  then mkPool false Connected (_semaphore p) (_waiting p) (blocked p)
         (retired p) (granted p) (live p) (dead p) (lost p)
  else mkPool true Connected (MAX_BROWSER_PAGES config) (_waiting p) 0
         ((_semaphore p, blocked p) :: retired p) (granted p) (live p) (dead p) 0.

(** [stop()]: closing the browser takes its contexts with it. *)
Definition stop (p : BrowserPool) : BrowserPool :=
  if _started p
  then mkPool false NoBrowser (_semaphore p) (_waiting p) (blocked p)
         (retired p) (granted p) 0 (dead p + live p) (lost p)
  else p.

(** The browser process dies. *)
Definition crash (p : BrowserPool) : option BrowserPool :=
  match _browser p with
  | Connected =>
      Some (mkPool (_started p) Disconnected (_semaphore p) (_waiting p)
              (blocked p) (retired p) (granted p) 0 (dead p + live p) (lost p))
  | _ => None
  end.

(** Entry of [get_context]: the started check and [self._waiting += 1]. *)
Definition request (p : BrowserPool) : outcome BrowserPool :=
  if _started p
  then Returns (mkPool (_started p) (_browser p) (_semaphore p) (_waiting p + 1)
                  (S (blocked p)) (retired p) (granted p) (live p) (dead p)
                  (lost p))
  else Raises (RuntimeError NotStarted).

(** The acquire completes: a permit is taken and [self._waiting -= 1]. *)
Definition grant (p : BrowserPool) : option BrowserPool :=
  match blocked p with
  | S b =>
      if 0 <? _semaphore p
      then Some (mkPool (_started p) (_browser p) (_semaphore p - 1) (_waiting p - 1)
                   b (retired p) (S (granted p)) (live p) (dead p) (lost p))
      else None
  | O => None
  end.

(** [except asyncio.TimeoutError]: [self._waiting -= 1], then the
    pool-busy [RuntimeError] built from the decremented counter. *)
Definition busy_error (timeout : Q) (p : BrowserPool) : exn :=
  RuntimeError (PoolBusy timeout (MAX_BROWSER_PAGES config) (_waiting p)).

Definition timeout_ (p : BrowserPool) : option BrowserPool :=
  match blocked p with
  | S b =>
      Some (mkPool (_started p) (_browser p) (_semaphore p) (_waiting p - 1)
              b (retired p) (granted p) (live p) (dead p) (lost p))
  | O => None
  end.

(** The task is cancelled while it waits: the [CancelledError] passes
    the [except asyncio.TimeoutError] clause and the statement after the
    [try], so no permit is taken and [self._waiting] keeps counting the
    call. *)
Definition cancel (p : BrowserPool) : option BrowserPool :=
  match blocked p with
  | S b =>
      Some (mkPool (_started p) (_browser p) (_semaphore p) (_waiting p)
              b (retired p) (granted p) (live p) (dead p) (lost p))
  | O => None
  end.

(** The same two endings for a call blocked on a replaced semaphore. *)
Definition retired_grant (i : nat) (p : BrowserPool) : option BrowserPool :=
  match retired p !! i with
  | Some (v, S b) =>
      if 0 <? v
      then Some (mkPool (_started p) (_browser p) (_semaphore p) (_waiting p - 1)
                   (blocked p) (<[i := (v - 1, b)]> (retired p))
                   (S (granted p)) (live p) (dead p) (lost p))
      else None
  | _ => None
  end.

Definition retired_timeout (i : nat) (p : BrowserPool) : option BrowserPool :=
  match retired p !! i with
  | Some (v, S b) =>
      Some (mkPool (_started p) (_browser p) (_semaphore p) (_waiting p - 1)
              (blocked p) (<[i := (v, b)]> (retired p))
              (granted p) (live p) (dead p) (lost p))
  | _ => None
  end.

(** And its cancellation. *)
Definition retired_cancel (i : nat) (p : BrowserPool) : option BrowserPool :=
  match retired p !! i with
  | Some (v, S b) =>
      Some (mkPool (_started p) (_browser p) (_semaphore p) (_waiting p)
              (blocked p) (<[i := (v, b)]> (retired p))
              (granted p) (live p) (dead p) (lost p))
  | _ => None
  end.

(** The [finally] clause: [self._semaphore.release()] on the semaphore
    the attribute refers to now. [asyncio.Semaphore.release] has no upper
    bound. *)
Definition release (p : BrowserPool) : BrowserPool :=
  mkPool (_started p) (_browser p) (_semaphore p + 1) (_waiting p)
    (blocked p) (retired p) (granted p) (live p) (dead p) (lost p).

(** After the acquire: [_ensure_browser()] relaunches a browser that is
    not connected, then [new_context()]. On either failure [ctx] is still
    [None] and the [finally] clause only releases. *)
Definition open_context (o : open_result) (p : BrowserPool) : option BrowserPool :=
  match granted p with
  | S g =>
      match o with
      | Opened =>
          Some (mkPool (_started p) Connected (_semaphore p) (_waiting p)
                  (blocked p) (retired p) g (S (live p)) (dead p) (lost p))
      | LaunchFailed =>
          match _browser p with
          | Connected => None
          | _ => Some (release
                   (mkPool (_started p) (_browser p) (_semaphore p) (_waiting p)
                      (blocked p) (retired p) g (live p) (dead p) (lost p)))
          end
      | NewContextFailed =>
          Some (release
                  (mkPool (_started p) Connected (_semaphore p) (_waiting p)
                     (blocked p) (retired p) g (live p) (dead p) (lost p)))
      end
  | O => None
  end.

(** The block exits, in whatever way, and [ctx.close()] returns or
    raises an [Exception]: the [finally] clause swallows the exception
    and releases. *)
Definition exit_block (ctx_live : bool) (how : exit_kind) (c : close_result)
    (p : BrowserPool) : option BrowserPool :=
  if ctx_live then
    match live p with
    | S l => Some (release
               (mkPool (_started p) (_browser p) (_semaphore p) (_waiting p)
                  (blocked p) (retired p) (granted p) l (dead p) (lost p)))
    | O => None
    end
  else
    match dead p with
    | S d => Some (release
               (mkPool (_started p) (_browser p) (_semaphore p) (_waiting p)
                  (blocked p) (retired p) (granted p) (live p) d (lost p)))
    | O => None
    end.

(** The block exits and the task is cancelled inside
    [await ctx.close()]: [except Exception] does not catch the
    [CancelledError], which leaves the [finally] clause before
    [self._semaphore.release()]. The call is over, its permit is not
    given back, and the context may not have been closed. *)
Definition close_cancelled (ctx_live : bool) (how : exit_kind)
    (p : BrowserPool) : option BrowserPool :=
  if ctx_live then
    match live p with
    | S l => Some (mkPool (_started p) (_browser p) (_semaphore p) (_waiting p)
                     (blocked p) (retired p) (granted p) l (dead p) (S (lost p)))
    | O => None
    end
  else
    match dead p with
    | S d => Some (mkPool (_started p) (_browser p) (_semaphore p) (_waiting p)
                     (blocked p) (retired p) (granted p) (live p) d (S (lost p)))
    | O => None
    end.

(** One step of the pool; [None] when the event cannot happen in [p]. *)
Definition step (p : BrowserPool) (e : event) : option BrowserPool :=
  match e with
  | Start launched => Some (start launched p)
  | Stop => Some (stop p)
  | Crash => crash p
  | Request => match request p with Returns p' => Some p' | Raises _ => None end
  | Grant => grant p
  | Timeout => timeout_ p
  | RetiredGrant i => retired_grant i p
  | RetiredTimeout i => retired_timeout i p
  | Open o => open_context o p
  | Exit ctx_live how c => exit_block ctx_live how c p
  | Cancel => cancel p
  | RetiredCancel i => retired_cancel i p
  | CloseCancelled ctx_live how => close_cancelled ctx_live how p
  end.

Fixpoint run (p : BrowserPool) (tr : list event) : option BrowserPool :=
  match tr with
  | [] => Some p
  | e :: tr' => match step p e with Some p' => run p' tr' | None => None end
  end.

(** Calls of [get_context] between their entry and the end of their
    [finally] clause. *)
Definition in_flight (p : BrowserPool) : nat :=
  (blocked p + sum_list (map snd (retired p)) + granted p + live p + dead p)%nat.

(** [start()] does something only on a pool that is not started; the
    trace is [settled] when each such call finds no [get_context] call
    in flight. *)
Fixpoint settled (p : BrowserPool) (tr : list event) : bool :=
  match tr with
  | [] => true
  | e :: tr' =>
      match e with
      | Start true => (_started p || (in_flight p =? 0)%nat)
      | _ => true
      end
      && match step p e with Some p' => settled p' tr' | None => true end
  end.

(** *** One call of [get_context], seen from its caller *)

(** [asyncio.wait_for(self._semaphore.acquire(), timeout=timeout)], from
    asyncio's documentation: the acquire completes when a permit reaches
    this waiter, [slot_after] seconds after the call ([None]: never);
    [wait_for] returns then if that is within [timeout], and raises
    [TimeoutError] at [timeout] otherwise. The second component is the
    time spent in the call. *)
Definition wait_for_acquire (slot_after : option Q) (timeout : Q)
    : wait_result * Q :=
  match slot_after with
  | Some d => if Qle_bool d timeout then (Acquired, d) else (TimedOut, timeout)
  | None => (TimedOut, timeout)
  end.

(** [if timeout is None: timeout = float(config.BROWSER_POOL_TIMEOUT)]. *)
Definition resolve_timeout (timeout : option Q) : Q :=
  match timeout with
  | Some t => t
  | None => inject_Z (BROWSER_POOL_TIMEOUT config)
  end.

(** From the wait to the end of the [try]/[except] around it, on the
    pool [p] as it is when the waiter resumes. *)
Definition acquire (timeout : option Q) (slot_after : option Q)
    (p : BrowserPool) : option (BrowserPool * outcome unit) * Q :=
  let t := resolve_timeout timeout in
  match wait_for_acquire slot_after t with
  | (Acquired, d) =>
      (match grant p with
       | Some p' => Some (p', Returns ())
       | None => None
       end, d)
  | (TimedOut, d) =>
      (match timeout_ p with
       | Some p' => Some (p', Raises (busy_error t p'))
       | None => None
       end, d)
  end.

(** What the environment decides for one call: whether a permit arrives
    in time, the value of [self._waiting] seen by the [except] clause,
    what opening the context does and the error it raises when it fails,
    whether the context is still open when the block exits, and what
    [close()] does. *)
Record Lease := mkLease {
  wait : wait_result;
  waiting_seen : Z;
  opened : open_result;
  open_error : exn;
  ctx_survives : bool;
  close : close_result
}.

Definition exit_of {A} (r : outcome A) : exit_kind :=
  match r with Returns _ => ExitNormal | Raises _ => ExitException end.

(** The events one call of [get_context] contributes to the pool, for
    each way [how] in which the caller's block may end. The block is
    entered only when the context was opened. *)
Definition lease_events (started : bool) (l : Lease) (how : exit_kind)
    : list event :=
  if started then
    match wait l with
    | TimedOut => [Request; Timeout]
    | Acquired =>
        match opened l with
        | Opened =>
            [Request; Grant; Open Opened; Exit (ctx_survives l) how (close l)]
        | o => [Request; Grant; Open o]
        end
    end
  else [].

(** [async with browser_pool.get_context(timeout) as ctx: body], for a
    block that returns or raises: the events, and what the statement
    evaluates to. *)
Definition get_context {A} (started : bool) (timeout : option Q) (l : Lease)
    (body : outcome A) : list event * outcome A :=
  (lease_events started l (exit_of body),
   if started then
     match wait l with
     | TimedOut =>
         Raises (RuntimeError (PoolBusy (resolve_timeout timeout)
                                 (MAX_BROWSER_PAGES config) (waiting_seen l)))
     | Acquired =>
         match opened l with
         | Opened => body
         | _ => Raises (open_error l)
         end
     end
   else Raises (RuntimeError NotStarted)).

End WithConfig.
End Pool.

(** ** NSN helpers ([utils/helpers.py]) *)

Module Helpers.

(** [nsn.replace] of every dash by nothing. *)
Fixpoint remove_dashes (s : string) : string :=
  match s with
  | EmptyString => EmptyString
  | String c s' =>
      if Ascii.eqb c "-"%char then remove_dashes s' else String c (remove_dashes s')
  end.

Definition format_nsn (nsn : string) : string := remove_dashes nsn.

Definition format_nsn_with_dashes (nsn : string) : string :=
  let clean := remove_dashes nsn in
  if negb (String.length clean =? 13)%nat then nsn
  else String.substring 0 4 clean +:+ "-" +:+ String.substring 4 2 clean
       +:+ "-" +:+ String.substring 6 3 clean +:+ "-" +:+ String.substring 9 4 clean.

(** [\d]. Identifiers are strings over the code points below 256, of
    which the decimal digits are [0] to [9]. *)
Definition is_digit (c : ascii) : bool :=
  let n := nat_of_ascii c in (48 <=? n)%nat && (n <=? 57)%nat.

(** [\d{n}] at the head of [s]: the rest of the string on a match. *)
Fixpoint digits (n : nat) (s : string) : option string :=
  match n with
  | O => Some s
  | S n' =>
      match s with
      | String c s' => if is_digit c then digits n' s' else None
      | EmptyString => None
      end
  end.

(** A literal ["-"] at the head of [s]. *)
Definition dash (s : string) : option string :=
  match s with
  | String c s' => if Ascii.eqb c "-"%char then Some s' else None
  | EmptyString => None
  end.

(** [$] without [re.MULTILINE]: the end of the string, or just before a
    newline that ends the string. *)
Definition at_end (s : string) : bool :=
  match s with
  | EmptyString => true
  | String c EmptyString => Ascii.eqb c (ascii_of_nat 10)
  | _ => false
  end.

Definition matches (r : option string) : bool :=
  match r with Some rest => at_end rest | None => false end.

Definition validate_nsn (nsn : string) : bool :=
  matches (s1 ← digits 4 nsn; s2 ← dash s1; s3 ← digits 2 s2; s4 ← dash s3;
           s5 ← digits 3 s4; s6 ← dash s5; digits 4 s6)
  || matches (digits 13 nsn).

End Helpers.

(** ** The workflow orchestrator ([core.scrape_nsn]) *)

Module Workflow.

Inductive Confidence := high | medium | low.

(** [SupplierContact]; the fields the orchestrator and its callers read. *)
Record SupplierContact := mkContact {
  contact_company_name : string;
  email : option string;
  phone : option string;
  confidence : Confidence
}.

Record SupplierWithContact := mkSupplierWithContact {
  company_name : string;
  cage_code : string;
  part_number : string;
  contact : option SupplierContact
}.

(** The literals of [WorkflowStatus]. *)
Inductive StageStatus := Success | Error | Skipped | Partial | PartialTimeout.

#[export] Instance StageStatus_eq_dec : EqDecision StageStatus.
Proof. solve_decision. Defined.

Record WorkflowStatus := mkWorkflowStatus {
  dibbs_status : StageStatus;
  wbparts_status : StageStatus;
  firecrawl_status : StageStatus
}.

(** [RFQData] and [WBPartsData]; the fields [scrape_nsn] reads. *)
Record RFQData := mkRFQData {
  rfq_nsn : string;
  nomenclature : string;
  approved_sources : list ApprovedSource;
  has_open_rfqs : bool
}.

Record ScrapeResult := mkScrapeResult {
  success : bool;
  data : option RFQData;
  error : option string
}.

Record WBPartsData := mkWBPartsData {
  wb_nsn : string;
  wb_item_name : string;
  manufacturers : list WBPartsManufacturer
}.

Record WBPartsScrapeResult := mkWBPartsScrapeResult {
  wb_success : bool;
  wb_data : option WBPartsData;
  wb_error : option string
}.

Record RawData := mkRawData {
  dibbs : option RFQData;
  wbparts : option WBPartsData
}.

Record EnhancedRFQResult := mkEnhancedRFQResult {
  nsn : string;
  item_name : string;
  has_open_rfq : bool;
  suppliers : list SupplierWithContact;
  raw_data : RawData;
  workflow : WorkflowStatus;
  scraped_at : string
}.

(** What [find_supplier_contact], run through [asyncio.to_thread],
    does for one supplier: it returns a contact (or [None]), or raises. *)
Inductive enrichment :=
| Found (c : option SupplierContact)
| Failed (e : exn).

(** Everything [scrape_nsn] obtains from outside: the pool and its
    lease, the two source fetches, the enrichment service (by supplier
    index), the readings of [time.monotonic()] at the places where the
    code takes them, and [get_timestamp()]. *)
Record World := mkWorld {
  pool_started : bool;
  lease : Pool.Lease;
  fetch_dibbs : outcome ScrapeResult;
  fetch_wbparts : outcome WBPartsScrapeResult;
  find_supplier_contact : nat -> enrichment;
  t_scrape_start : Q;
  t_deadline_base : Q;
  t_check : nat -> Q;
  t_finished : Q;
  timestamp : string
}.

(** What a run leaves behind besides its result: its pool events, the
    suppliers (by index) for which the enrichment service was called, the
    [timed_out] flag, and the elapsed time logged on return. *)
Record Footprint := mkFootprint {
  pool_events : list Pool.event;
  enrichment_calls : list nat;
  timed_out : bool;
  finished_in : option Q
}.


Section WithConfig.
Variable config : Config.

(** [asyncio.gather] of the two fetches: both results, or the exception
    of a fetch that raised. *)
Definition gather2 {A B} (a : outcome A) (b : outcome B) : outcome (A * B) :=
  match a, b with
  | Returns x, Returns y => Returns (x, y)
  | Raises e, _ => Raises e
  | _, Raises e => Raises e
  end.

(** Stage A: the fetches, under a pool lease when the pool is started. *)
Definition stage_a (w : World)
    : list Pool.event * outcome (ScrapeResult * WBPartsScrapeResult) :=
  if pool_started w
  then Pool.get_context config true None (lease w)
         (gather2 (fetch_dibbs w) (fetch_wbparts w))
  else ([], gather2 (fetch_dibbs w) (fetch_wbparts w)).

(** Lines 131-134: the entity lists come from the sources that carry
    data. *)
Definition dibbs_sources_of (r : ScrapeResult) : list ApprovedSource :=
  match data r with Some d => approved_sources d | None => [] end.

Definition wbparts_mfrs_of (r : WBPartsScrapeResult) : list WBPartsManufacturer :=
  match wb_data r with Some d => manufacturers d | None => [] end.

Definition merged_suppliers (dr : ScrapeResult) (wr : WBPartsScrapeResult)
    : list Supplier :=
  Merge.get_unique_suppliers_list (dibbs_sources_of dr) (wbparts_mfrs_of wr).

(** The cap on the suppliers sent to contact discovery. *)
Definition cap_suppliers (max_suppliers : Z) (all_suppliers : list Supplier)
    : list Supplier :=
  if (0 <? max_suppliers) && (max_suppliers <? Z.of_nat (length all_suppliers))
  then take (Z.to_nat max_suppliers) all_suppliers
  else all_suppliers.

(** [deadline = (time.monotonic() + timeout_seconds) if timeout_seconds > 0
    else None]. *)
Definition deadline_of (w : World) (timeout_seconds : Z) : option Q :=
  if 0 <? timeout_seconds
  then Some (t_deadline_base w + inject_Z timeout_seconds)%Q
  else None.

(** [deadline is not None and (deadline - time.monotonic()) <= 5]. *)
Definition past_margin (deadline : option Q) (now : Q) : bool :=
  match deadline with
  | Some d => Qle_bool (d - now) 5
  | None => false
  end.

Definition with_contact (s : Supplier) (c : option SupplierContact)
    : SupplierWithContact :=
  mkSupplierWithContact (companyName s) (cageCode s) (partNumber s) c.

(** What one enrichment task did: whether it set [timed_out], whether it
    called the service, and the row it returned. *)
Record Discovery := mkDiscovery {
  d_idx : nat;
  hit_deadline : bool;
  called : bool;
  row : SupplierWithContact
}.

(** [firecrawl_sem = asyncio.Semaphore(config.FIRECRAWL_CONCURRENCY)]:
    the constructor raises [ValueError] for a negative value. Every task
    releases the permit it takes ([async with firecrawl_sem]), so with a
    positive value each task that asks for a permit gets one in its turn;
    with the value 0 no permit is ever granted. *)
Definition firecrawl_sem : outcome Z :=
  if FIRECRAWL_CONCURRENCY config <? 0
  then Raises (ValueError "Semaphore initial value must be >= 0")
  else Returns (FIRECRAWL_CONCURRENCY config).

(** One enrichment task that is granted its permit. The deadline check
    comes first and needs no permit; the semaphore is taken after it,
    bounds how many calls run at once and does not appear in what a
    granted task returns. A task that passes the check under a semaphore
    of value 0 never returns: see [stalls]. *)
Definition _discover_one (w : World) (deadline : option Q) (idx : nat)
    (supplier : Supplier) : Discovery :=
  if past_margin deadline (t_check w idx)
  then mkDiscovery idx true false (with_contact supplier None)
  else
    let contact :=
      match find_supplier_contact w idx with
      | Found c => c
      | Failed _ => None
      end in
    mkDiscovery idx false true (with_contact supplier contact).

(** [swc.contact and swc.contact.confidence != "low"]. *)
Definition counts_as_success (swc : SupplierWithContact) : bool :=
  match contact swc with
  | Some c => match confidence c with low => false | _ => true end
  | None => false
  end.

Definition success_count (rows : list SupplierWithContact) : nat :=
  length (List.filter counts_as_success rows).

Definition status_of (timed_out : bool) (success_count total : nat) : StageStatus :=
  if timed_out then PartialTimeout
  else if (success_count =? total)%nat then Success
  else if (0 <? success_count)%nat then Partial
  else Error.

(** The tasks of Stage C, in supplier order as [asyncio.gather] returns
    them; empty when the stage is skipped. *)
Definition discoveries (w : World) (timeout_seconds : Z)
    (all_suppliers : list Supplier) : list Discovery :=
  match all_suppliers with
  | [] => []
  | _ =>
      if is_firecrawl_configured config
      then imap (_discover_one w (deadline_of w timeout_seconds)) all_suppliers
      else []
  end.

(** Stage C once its semaphore exists and for tasks that are granted
    (or when the stage is skipped, which needs no semaphore): the rows,
    the [timed_out] flag and the status. *)
Definition stage_c_granted (w : World) (timeout_seconds : Z)
    (all_suppliers : list Supplier)
    : list SupplierWithContact * bool * StageStatus :=
  match all_suppliers with
  | [] => ([], false, Skipped)
  | _ =>
      if is_firecrawl_configured config then
        let results := discoveries w timeout_seconds all_suppliers in
        let suppliers_with_contacts := map row results in
        let timed_out := existsb hit_deadline results in
        (suppliers_with_contacts, timed_out,
         status_of timed_out (success_count suppliers_with_contacts)
           (length all_suppliers))
      else (map (fun s => with_contact s None) all_suppliers, false, Skipped)
  end.

(** Stage C: [if all_suppliers and config.is_firecrawl_configured()],
    the semaphore is created before any task runs, and its [ValueError]
    leaves [scrape_nsn]. *)
Definition stage_c (w : World) (timeout_seconds : Z)
    (all_suppliers : list Supplier)
    : outcome (list SupplierWithContact * bool * StageStatus) :=
  if negb (bool_decide (all_suppliers = [])) && is_firecrawl_configured config
  then
    match firecrawl_sem with
    | Raises e => Raises e
    | Returns _ => Returns (stage_c_granted w timeout_seconds all_suppliers)
    end
  else Returns (stage_c_granted w timeout_seconds all_suppliers).

Definition source_status (ok : bool) : StageStatus :=
  if ok then Success else Error.

(** [scrape_nsn], for a run that returns or raises. The progress
    callback and the logger are observers and are taken to return. *)
Definition scrape_nsn (nsn : string) (max_suppliers timeout_seconds : Z)
    (w : World) : Footprint * outcome EnhancedRFQResult :=
  match stage_a w with
  | (evs, Raises e) => (mkFootprint evs [] false None, Raises e)
  | (evs, Returns (dibbs_result, wbparts_result)) =>
      let all_suppliers :=
        cap_suppliers max_suppliers (merged_suppliers dibbs_result wbparts_result) in
      let has_open_rfq :=
        match data dibbs_result with Some d => has_open_rfqs d | None => false end in
      match stage_c w timeout_seconds all_suppliers with
      | Raises e => (mkFootprint evs [] false None, Raises e)
      | Returns (suppliers_with_contacts, timed_out, firecrawl_status) =>
      let calls :=
        map d_idx (List.filter called (discoveries w timeout_seconds all_suppliers)) in
      (mkFootprint evs calls timed_out
         (Some (t_finished w - t_scrape_start w)%Q),
       Returns (mkEnhancedRFQResult
         (match data dibbs_result with
          | Some d => rfq_nsn d
          | None => Helpers.format_nsn_with_dashes nsn
          end)
         (match wb_data wbparts_result with
          | Some d => wb_item_name d
          | None =>
              match data dibbs_result with
              | Some d => nomenclature d
              | None => EmptyString
              end
          end)
         has_open_rfq
         suppliers_with_contacts
         (mkRawData (data dibbs_result) (wb_data wbparts_result))
         (mkWorkflowStatus
            (source_status (success dibbs_result))
            (source_status (wb_success wbparts_result))
            firecrawl_status)
         (timestamp w)))
      end
  end.

(** A run stalls when Stage C runs under a semaphore of value 0 and
    some task passes its deadline check: the task waits for ever for a
    permit, and [asyncio.gather] and [scrape_nsn] never return. For such
    a run [scrape_nsn] above says what the run would do were its tasks
    granted; that a run returns is said of [scrape_nsn_call] below. *)
Definition stalls (max_suppliers timeout_seconds : Z) (w : World) : bool :=
  match stage_a w with
  | (_, Returns (dibbs_result, wbparts_result)) =>
      let all_suppliers :=
        cap_suppliers max_suppliers (merged_suppliers dibbs_result wbparts_result) in
      negb (bool_decide (all_suppliers = [])) && is_firecrawl_configured config
      && (FIRECRAWL_CONCURRENCY config =? 0)
      && existsb
           (fun idx =>
              negb (past_margin (deadline_of w timeout_seconds) (t_check w idx)))
           (seq 0 (length all_suppliers))
  | (_, Raises _) => false
  end.

(** The call [scrape_nsn(...)] itself: [None] when it never returns,
    and otherwise what [scrape_nsn] says of the run. *)
Definition scrape_nsn_call (nsn : string) (max_suppliers timeout_seconds : Z)
    (w : World) : option (Footprint * outcome EnhancedRFQResult) :=
  if stalls max_suppliers timeout_seconds w then None
  else Some (scrape_nsn nsn max_suppliers timeout_seconds w).

End WithConfig.
End Workflow.

(** ** Paced-sequential batches ([core.scrape_batch]) *)

Module Batch.
Import Workflow.

(** The literals of [BatchNSNResult.status]. *)
Inductive ItemStatus := Pending | Processing | ItemSuccess | ItemError.

#[export] Instance ItemStatus_eq_dec : EqDecision ItemStatus.
Proof. solve_decision. Defined.

Record BatchNSNResult := mkBatchNSNResult {
  b_nsn : string;
  status : ItemStatus;
  result : option EnhancedRFQResult;
  error_message : option string;
  processed_at : option string
}.

Record BatchProcessingResult := mkBatchProcessingResult {
  total_nsns : Z;
  processed : Z;
  successful : Z;
  failed : Z;
  results : list BatchNSNResult;
  started_at : string;
  completed_at : option string
}.

(** What the environment decides for one item: the world its workflow
    runs in, whether dumping and saving the result raises (file-system
    errors), and [get_timestamp()]. *)
Record ItemWorld := mkItemWorld {
  world : World;
  save_result : option exn;
  stamp : string
}.

(** What the batch does that its caller can observe besides the result:
    the callbacks, the workflow runs with their footprints, and the
    pacing sleeps (milliseconds). Items are numbered from 1. *)
Inductive batch_event :=
| ProgressCallback (idx : nat)
| StatusCallback (idx : nat) (entry : BatchNSNResult)
| WorkflowRun (idx : nat) (fp : Footprint)
| Sleep (ms : Z).

Section WithConfig.
Variable config : Config.

Definition loop_state : Type := BatchProcessingResult * list batch_event.

(** The [try] block of one iteration and its [except Exception] clause:
    the entry as the iteration leaves it, and the increments of
    [successful] and [failed]. The success counter is incremented before
    [save_result] is called. *)
Definition process_item (formatted_nsn : string) (iw : ItemWorld)
    : Footprint * BatchNSNResult * Z * Z :=
  match scrape_nsn config formatted_nsn 0 0 (world iw) with
  | (fp, Returns r) =>
      match save_result iw with
      | None =>
          (fp, mkBatchNSNResult formatted_nsn ItemSuccess (Some r) None
                 (Some (stamp iw)), 1, 0)
      | Some e =>
          (fp, mkBatchNSNResult formatted_nsn ItemError (Some r) (Some (str e))
                 (Some (stamp iw)), 1, 1)
      end
  | (fp, Raises e) =>
      (fp, mkBatchNSNResult formatted_nsn ItemError None (Some (str e))
             (Some (stamp iw)), 0, 1)
  end.

(** One iteration of the [for idx, nsn in enumerate(nsns, start=1)]
    loop over a batch of [total] items. *)
Definition iteration (total : nat) (items : nat -> ItemWorld)
    (st : loop_state) (idx : nat) (nsn : string) : loop_state :=
  let '(batch_result, log) := st in
  if negb (Helpers.validate_nsn nsn) then
    let entry :=
      mkBatchNSNResult nsn ItemError None (Some ("Invalid NSN format: " +:+ nsn))
        (Some (stamp (items idx))) in
    (mkBatchProcessingResult (total_nsns batch_result)
       (processed batch_result + 1) (successful batch_result)
       (failed batch_result + 1) (results batch_result ++ [entry])
       (started_at batch_result) (completed_at batch_result),
     log ++ [StatusCallback idx entry])
  else
    let formatted_nsn := Helpers.format_nsn_with_dashes nsn in
    let started := mkBatchNSNResult formatted_nsn Processing None None None in
    let '(fp, entry, ok, ko) := process_item formatted_nsn (items idx) in
    (mkBatchProcessingResult (total_nsns batch_result)
       (processed batch_result + 1) (successful batch_result + ok)
       (failed batch_result + ko) (results batch_result ++ [entry])
       (started_at batch_result) (completed_at batch_result),
     log ++ [ProgressCallback idx; StatusCallback idx started; WorkflowRun idx fp;
             StatusCallback idx entry]
         ++ (if (idx <? total)%nat then [Sleep (BATCH_DELAY config)] else [])).

Fixpoint loop (total : nat) (items : nat -> ItemWorld) (st : loop_state)
    (idx : nat) (nsns : list string) : loop_state :=
  match nsns with
  | [] => st
  | nsn :: rest =>
      loop total items (iteration total items st idx nsn) (S idx) rest
  end.

Definition scrape_batch (started completed : string)
    (items : nat -> ItemWorld) (nsns : list string) : loop_state :=
  let total := length nsns in
  let '(batch_result, log) :=
    loop total items
      (mkBatchProcessingResult (Z.of_nat total) 0 0 0 [] started None, [])
      1%nat nsns in
  (mkBatchProcessingResult (total_nsns batch_result) (processed batch_result)
     (successful batch_result) (failed batch_result) (results batch_result)
     (started_at batch_result) (Some completed), log).

(** The items (numbered from 1) whose workflow was run. *)
Definition workflow_runs (log : list batch_event) : list nat :=
  omap (fun e => match e with WorkflowRun idx _ => Some idx | _ => None end) log.

(** The pool events of item [idx]. *)
Definition pool_events_of (idx : nat) (log : list batch_event) : list Pool.event :=
  mbind (fun e => match e with
               | WorkflowRun i fp => if (i =? idx)%nat then pool_events fp else []
               | _ => []
               end) log.

End WithConfig.
End Batch.

(** ** Bounded-concurrent batches ([api.scrape_nsns_suppliers_batch_endpoint]) *)

Module Api.
Import Workflow.

Record SupplierInfo := mkSupplierInfo {
  si_companyName : string;
  si_cageCode : string;
  si_partNumber : string;
  si_email : option string;
  si_phone : option string;
  si_confidence : Confidence
}.

Record BatchSuppliersNSNResult := mkBatchSuppliersNSNResult {
  r_nsn : string;
  r_status : string;
  r_nomenclature : option string;
  r_hasOpenRfq : option bool;
  r_suppliers : list SupplierInfo;
  r_timedOut : bool;
  r_error : option string
}.

Record BatchSuppliersResponse := mkBatchSuppliersResponse {
  results : list BatchSuppliersNSNResult;
  totalNsns : Z;
  successful : Z;
  failed : Z
}.

(** What the endpoint answers: the response model, or an HTTP error. *)
Inductive response :=
| Ok (body : BatchSuppliersResponse)
| HttpError (code : Z) (detail : string).

(** [NSN_CONCURRENCY = 2]: two items, two pages each, for a pool of four. *)
Definition NSN_CONCURRENCY : Z := 2.

(** Per item, in the order the item goes through them. *)
Inductive api_event :=
| SlotAcquired (idx : nat)
| WorkflowRun (idx : nat) (fp : Footprint)
| SlotReleased (idx : nat).

Section WithConfig.
Variable config : Config.

(** The filter to high and medium confidence. *)
Definition supplier_info (s : SupplierWithContact) : option SupplierInfo :=
  match contact s with
  | Some c =>
      match confidence c with
      | low => None
      | conf => Some (mkSupplierInfo (company_name s) (cage_code s) (part_number s)
                        (email c) (phone c) conf)
      end
  | None => None
  end.

Definition _scrape_one (maxSuppliers : Z) (w : World) (nsn : string)
    : Footprint * BatchSuppliersNSNResult :=
  match scrape_nsn config nsn maxSuppliers 180 w with
  | (fp, Returns result) =>
      (fp, mkBatchSuppliersNSNResult (Workflow.nsn result) "success"
             (Some (item_name result)) (Some (has_open_rfq result))
             (omap supplier_info (suppliers result))
             (bool_decide (firecrawl_status (workflow result) = PartialTimeout))
             None)
  | (fp, Raises e) =>
      (fp, mkBatchSuppliersNSNResult nsn "error" None None [] false (Some (str e)))
  end.

(** [_limited_scrape]: the item takes a permit of [nsn_sem], then runs. *)
Definition _limited_scrape (maxSuppliers : Z) (worlds : nat -> World)
    (idx : nat) (nsn : string) : list api_event * BatchSuppliersNSNResult :=
  let '(fp, r) := _scrape_one maxSuppliers (worlds idx) nsn in
  ([SlotAcquired idx; WorkflowRun idx fp; SlotReleased idx], r).

Definition count_status (s : string) (rs : list BatchSuppliersNSNResult) : Z :=
  Z.of_nat (length (List.filter (fun r => String.eqb (r_status r) s) rs)).

(** The endpoint, for a batch that finishes within its 600 seconds
    ([in_time]) or does not. The events of the items are listed item by
    item, in submission order; for a batch cut short by the deadline the
    events that did happen are not determined and none is listed. *)
Definition scrape_nsns_suppliers_batch_endpoint (nsns : list string)
    (maxSuppliers : Z) (worlds : nat -> World) (in_time : bool)
    : list api_event * response :=
  match nsns with
  | [] => ([], HttpError 400 "No NSNs provided")
  | _ =>
      if (50 <? length nsns)%nat
      then ([], HttpError 400 "Maximum 50 NSNs per batch request")
      else if in_time then
        let runs := imap (_limited_scrape maxSuppliers worlds) nsns in
        let rs := map snd runs in
        (mbind fst runs,
         Ok (mkBatchSuppliersResponse rs (Z.of_nat (length nsns))
               (count_status "success" rs) (count_status "error" rs)))
      else ([], HttpError 504 "Batch supplier scrape timed out")
  end.

End WithConfig.
End Api.

(** ** The merge as the specification words it *)

Module MergeSpec.
Import Merge Workflow.

(** "The entity lists from all successful sources", in source order. *)
Definition successful_entities (dr : ScrapeResult) (wr : WBPartsScrapeResult)
    : list Supplier :=
  (if success dr then map of_source (dibbs_sources_of dr) else [])
  ++ (if wb_success wr then map of_mfr (wbparts_mfrs_of wr) else []).

(** "Union ... deduplicating by composite identity key,
    first-occurrence-wins, preserving insertion order". *)
Definition spec_merge (dr : ScrapeResult) (wr : WBPartsScrapeResult)
    : list Supplier :=
  dedup_first identity (successful_entities dr wr).

(** A fetch result as the scrapers build it: data only on success. *)
Definition consistent (dr : ScrapeResult) : Prop :=
  success dr = false -> data dr = None.

Definition wb_consistent (wr : WBPartsScrapeResult) : Prop :=
  wb_success wr = false -> wb_data wr = None.

Definition has_bar_free_name (e : Supplier) : Prop :=
  bar_free (companyName e) = true.

(** Sample fetch results: a DIBBS page whose first row has no company
    name, and a WBParts page with one manufacturer. *)
Definition sample_dibbs : ScrapeResult :=
  mkScrapeResult true
    (Some (mkRFQData "5306-00-373-3291" "BOLT"
             [mkApprovedSource "1ABC2" "P-1" EmptyString;
              mkApprovedSource "3DEF4" "P-2" "Acme"] false))
    None.

Definition sample_wbparts : WBPartsScrapeResult :=
  mkWBPartsScrapeResult true
    (Some (mkWBPartsData "5306-00-373-3291" "BOLT"
             [mkWBPartsManufacturer "P-2" "3DEF4" "Acme";
              mkWBPartsManufacturer "P-3" "5GHI6" "Bolt Works"]))
    None.

End MergeSpec.

(** ** The Stage-C status table as the specification words it *)

Module StageCSpec.
Import Workflow.

(** The table of section 4.2, for a stage that ran ([ran]: there are
    merged entities and the enrichment capability is configured) with
    [succ] successes, [fail] failures and [timed] deadline-skipped
    entities. *)
Definition table (ran : bool) (succ fail timed : nat) : StageStatus :=
  if negb ran then Skipped
  else if (0 <? timed)%nat then PartialTimeout
  else if (fail =? 0)%nat then Success
  else if (succ =? 0)%nat then Error
  else Partial.

(** How many indices below [n] satisfy [P]. *)
Definition count (P : nat -> bool) (n : nat) : nat :=
  length (List.filter P (seq 0 n)).

Section Run.
Variable config : Config.
Variable w : World.
Variable timeout_seconds : Z.

(** The task of supplier [i] finds the deadline margin used up. *)
Definition deadline_skipped (i : nat) : bool :=
  past_margin (deadline_of w timeout_seconds) (t_check w i).

(** "A success is an attempt that yields a contact." *)
Definition yields_contact (i : nat) : bool :=
  match find_supplier_contact w i with
  | Found (Some _) => true
  | _ => false
  end.

(** An attempt that yields a contact of high or medium confidence. *)
Definition yields_usable_contact (i : nat) : bool :=
  match find_supplier_contact w i with
  | Found (Some c) => match confidence c with low => false | _ => true end
  | _ => false
  end.

Definition ran (all_suppliers : list Supplier) : bool :=
  match all_suppliers with
  | [] => false
  | _ => is_firecrawl_configured config
  end.

(** The status the table gives when successes are counted by [good]. *)
Definition status_by (good : nat -> bool) (all_suppliers : list Supplier)
    : StageStatus :=
  let n := length all_suppliers in
  table (ran all_suppliers)
    (count (fun i => negb (deadline_skipped i) && good i) n)
    (count (fun i => negb (deadline_skipped i) && negb (good i)) n)
    (count deadline_skipped n).

Definition claimed_status := status_by yields_contact.
Definition derived_status := status_by yields_usable_contact.

End Run.

(** The suppliers Stage C receives in a run. *)
Definition stage_c_input (config : Config) (max_suppliers : Z) (w : World)
    : list Supplier :=
  match stage_a config w with
  | (_, Returns (dr, wr)) => cap_suppliers max_suppliers (merged_suppliers dr wr)
  | (_, Raises _) => []
  end.

End StageCSpec.

(** ** Sample configuration and worlds *)

Module Samples.
Import Workflow MergeSpec.

(** The defaults of [config.py], with a Firecrawl key. *)
Definition config : Config := mkConfig "fc-0123456789" 3 500 4 300.

(** The same with an enrichment semaphore that cannot be created, and
    with one that never grants. *)
Definition negative_config : Config := mkConfig "fc-0123456789" (-1) 500 4 300.

Definition zero_config : Config := mkConfig "fc-0123456789" 0 500 4 300.

Definition a_lease : Pool.Lease :=
  Pool.mkLease Pool.Acquired 0 Pool.Opened (OtherError "launch failed") true
    Pool.Closed.

Definition contact_of (c : Confidence) : SupplierContact :=
  mkContact "Acme" (Some "sales@acme.example") None c.

(** A run without the pool in which both fetches succeed, every
    enrichment call answers [answer], the clock stands at [0] until the
    run returns at [finished]. *)
Definition world_with (answer : enrichment) (finished : Q) : World :=
  mkWorld false a_lease (Returns sample_dibbs) (Returns sample_wbparts)
    (fun _ => answer) 0 0 (fun _ => 0%Q) finished "2026-01-01T00:00:00Z".

(** Every enrichment call yields a contact of low confidence. *)
Definition low_world : World := world_with (Found (Some (contact_of low))) 1.

(** Every enrichment call yields a contact of high confidence, and the
    run takes a minute. *)
Definition slow_world : World := world_with (Found (Some (contact_of high))) 60.

(** The same run under a started pool. *)
Definition pooled_world : World :=
  mkWorld true a_lease (Returns sample_dibbs) (Returns sample_wbparts)
    (fun _ => Found (Some (contact_of high))) 0 0 (fun _ => 0%Q) 1
    "2026-01-01T00:00:00Z".

(** A run under a started pool in which neither source knows the
    identifier: both fetches return their failure outcome. *)
Definition unknown_item_world : World :=
  mkWorld true a_lease
    (Returns (mkScrapeResult false None (Some "No data found after retries")))
    (Returns (mkWBPartsScrapeResult false None (Some "HTTP 404: Page not found")))
    (fun _ => Found None) 0 0 (fun _ => 0%Q) 1 "2026-01-01T00:00:00Z".

End Samples.

(** ** The pool's accounting *)

Module PoolSpec.
Import Pool.

(** Calls that hold a permit: past the acquire, before the release. *)
Definition holders (p : BrowserPool) : nat :=
  (granted p + live p + dead p)%nat.

(** Every permit of the current semaphore is free, held, or lost to a
    cancelled [ctx.close()], and no call is blocked on a replaced
    semaphore; before the first [start()] nothing is in flight. *)
Definition accounted (config : Config) (p : BrowserPool) : Prop :=
  Forall (fun r : Z * nat => r.2 = 0%nat) (retired p)
  /\ 0 <= _semaphore p
  /\ (_semaphore p + Z.of_nat (holders p) + Z.of_nat (lost p)
      = MAX_BROWSER_PAGES config
      \/ (_started p = false /\ blocked p = 0%nat /\ holders p = 0%nat
          /\ lost p = 0%nat)).

(** The calls of a trace that were cancelled while they waited for a
    slot, and the exits cancelled inside [ctx.close()]. *)
Definition abandoned (tr : list event) : nat :=
  length (List.filter
            (fun e => match e with Cancel | RetiredCancel _ => true | _ => false end)
            tr).

Definition cancelled_closes (tr : list event) : nat :=
  length (List.filter
            (fun e => match e with CloseCancelled _ _ => true | _ => false end)
            tr).

(** One call that takes a lease and is cancelled inside [ctx.close()]
    when its block exits. *)
Definition lease_with_cancelled_close : list event :=
  [Request; Grant; Open Opened; CloseCancelled true ExitCancelled].

(** One call that takes a lease and stays in its block. *)
Definition lease_and_hold : list event := [Request; Grant; Open Opened].

(** A lease is taken; the pool is stopped and started again while the
    lease is out; the lease's block then exits and releases a permit of
    the new semaphore; five calls take a lease each. *)
Definition restart_trace : list event :=
  [Start true] ++ lease_and_hold
  ++ [Stop; Start true; Exit false ExitNormal CloseRaised]
  ++ lease_and_hold ++ lease_and_hold ++ lease_and_hold ++ lease_and_hold
  ++ lease_and_hold.

(** The pool after [start()] with every permit taken and one call
    waiting. *)
Definition saturated (config : Config) : BrowserPool :=
  mkPool true Connected 0 1 1 [(0, 0%nat)] 0
    (Z.to_nat (MAX_BROWSER_PAGES config)) 0 0.

End PoolSpec.

(** ** What a batch records for one item *)

Module BatchSpec.
Import Workflow Batch.

Section WithConfig.
Variable config : Config.
Variable items : nat -> ItemWorld.

(** The entry of item [idx], from that item's own identifier and world. *)
Definition entry_of (idx : nat) (nsn : string) : BatchNSNResult :=
  if negb (Helpers.validate_nsn nsn)
  then mkBatchNSNResult nsn ItemError None (Some ("Invalid NSN format: " +:+ nsn))
         (Some (stamp (items idx)))
  else (process_item config (Helpers.format_nsn_with_dashes nsn) (items idx)).1.1.2.

(** What item [idx] adds to [successful] and to [failed]. *)
Definition ok_of (idx : nat) (nsn : string) : Z :=
  if negb (Helpers.validate_nsn nsn) then 0
  else (process_item config (Helpers.format_nsn_with_dashes nsn) (items idx)).1.2.

Definition ko_of (idx : nat) (nsn : string) : Z :=
  if negb (Helpers.validate_nsn nsn) then 1
  else (process_item config (Helpers.format_nsn_with_dashes nsn) (items idx)).2.

End WithConfig.

Definition total_of (l : list Z) : Z := foldr Z.add 0 l.


Definition raising_world : World :=
  mkWorld false Samples.a_lease (Raises (OtherError "page crashed"))
    (Returns MergeSpec.sample_wbparts)
    (fun _ => Found None) 0 0 (fun _ => 0%Q) 1 "2026-01-01T00:00:00Z".

Definition third_raises (idx : nat) : ItemWorld :=
  if (idx =? 3)%nat
  then mkItemWorld raising_world None "2026-01-01T00:00:03Z"
  else mkItemWorld Samples.pooled_world None "2026-01-01T00:00:01Z".

(** A batch that holds one identifier that is not an NSN. *)
Definition with_invalid : list string := ["5306003733291"; "not-an-nsn"].

End BatchSpec.

(** ** Strings without dashes *)

Module HelpersSpec.

(** No dash among the characters of [s]. *)
Fixpoint dashless (s : string) : bool :=
  match s with
  | EmptyString => true
  | String c s' => negb (Ascii.eqb c "-"%char) && dashless s'
  end.

(** The line feed that [$] tolerates at the end of an identifier. *)
Definition newline : string := String (ascii_of_nat 10) EmptyString.

End HelpersSpec.

(** ** Flat rows ([core.flatten_to_rows], [core.flatten_batch_results]) and
    the batch endpoint ([api.process_batch]) *)

Module Flatten.
Import Workflow.

(** The dictionaries of [flatten_to_rows], with keys ["nsn"],
    ["open_status"], ["supplier_name"], ["cage_code"], ["email"] and
    ["phone"]. *)
Record Row := mkRow {
  row_nsn : string;
  open_status : string;
  supplier_name : string;
  row_cage_code : string;
  row_email : string;
  row_phone : string
}.

(** [value or ""] on an optional string. *)
Definition or_empty (o : option string) : string :=
  match o with Some s => s | None => EmptyString end.

Definition flatten_to_rows (result : EnhancedRFQResult) : list Row :=
  let status := if has_open_rfq result then "OPEN" else "CLOSED" in
  match suppliers result with
  | [] => [mkRow (nsn result) status EmptyString EmptyString EmptyString EmptyString]
  | _ =>
      map (fun supplier =>
             mkRow (nsn result) status (company_name supplier) (cage_code supplier)
               (or_empty (c ← contact supplier; email c))
               (or_empty (c ← contact supplier; phone c)))
        (suppliers result)
  end.

(** The rows of one batch entry: those of its result when it succeeded,
    one [ERROR] row when it failed, none otherwise. *)
Definition entry_rows (nsn_result : Batch.BatchNSNResult) : list Row :=
  match Batch.status nsn_result, Batch.result nsn_result with
  | Batch.ItemSuccess, Some r => flatten_to_rows r
  | Batch.ItemError, _ =>
      [mkRow (Batch.b_nsn nsn_result) "ERROR" EmptyString EmptyString EmptyString
         EmptyString]
  | _, _ => []
  end.

Definition flatten_batch_results (batch_result : Batch.BatchProcessingResult)
    : list Row :=
  mbind entry_rows (Batch.results batch_result).

Record BatchSummary := mkBatchSummary {
  total_nsns : Z;
  total_rows : Z;
  successful : Z;
  failed : Z
}.

(** What [/api/batch] answers. *)
Inductive batch_response :=
| BatchOk (results : list Row) (summary : BatchSummary)
| BatchHttpError (code : Z) (detail : string).

Definition process_batch (config : Config) (started completed : string)
    (items : nat -> Batch.ItemWorld) (nsns : list string) : batch_response :=
  match nsns with
  | [] => BatchHttpError 400 "No NSNs provided"
  | _ =>
      if (500 <? length nsns)%nat
      then BatchHttpError 400 "Maximum 500 NSNs per batch request"
      else
        let batch_result :=
          (Batch.scrape_batch config started completed items nsns).1 in
        let flat_rows := flatten_batch_results batch_result in
        BatchOk flat_rows
          (mkBatchSummary (Batch.total_nsns batch_result)
             (Z.of_nat (length flat_rows)) (Batch.successful batch_result)
             (Batch.failed batch_result))
  end.

(** The entries that failed, and the entries that carry a result. *)
Definition is_error (e : Batch.BatchNSNResult) : bool :=
  match Batch.status e with Batch.ItemError => true | _ => false end.

Definition has_result (e : Batch.BatchNSNResult) : bool :=
  match Batch.result e with Some _ => true | None => false end.

Definition is_error_row (r : Row) : bool := String.eqb (open_status r) "ERROR".

(** The pacing sleeps of a batch log, in order. *)
Definition pacing_sleeps (log : list Batch.batch_event) : list Z :=
  omap (fun e => match e with Batch.Sleep ms => Some ms | _ => None end) log.

End Flatten.

(** ** The single-item endpoint ([api.scrape_nsn_suppliers_endpoint]) *)

Module ApiSingle.
Import Workflow.

Record ScrapeNSNSuppliersResponse := mkScrapeNSNSuppliersResponse {
  s_nsn : string;
  s_nomenclature : string;
  s_hasOpenRfq : bool;
  s_suppliers : list Api.SupplierInfo;
  s_timedOut : bool
}.

(** The message of an error response: one of the fixed texts, or
    [f"Scraping failed: {type(e).__name__}: {e}"], kept as the exception
    it is formatted from. *)
Inductive detail :=
| Fixed (s : string)
| ScrapingFailed (e : exn).

(** What the endpoint answers: the response model, or
    [_error_response(status_code, message)]. *)
Inductive response :=
| Answer (body : ScrapeNSNSuppliersResponse)
| ErrorResponse (status_code : Z) (message : detail).

Section WithConfig.
Variable config : Config.

(** A run that finds the pool saturated waits
    [config.BROWSER_POOL_TIMEOUT] seconds for a slot before it raises the
    pool-busy error: when that is 280 seconds or more, the endpoint's own
    [asyncio.wait_for(..., timeout=280)], armed first, has expired by
    then. *)
Definition pool_wait_outlasts (w : World) : bool :=
  pool_started w
  && match Pool.wait (lease w) with Pool.TimedOut => true | Pool.Acquired => false end
  && (280 <=? BROWSER_POOL_TIMEOUT config).

(** The endpoint, for a run that ends within the 280 seconds of
    [asyncio.wait_for] or does not: [in_time] says which, except for a
    run whose pool wait alone outlasts the 280 seconds. A run that
    stalls ([Workflow.stalls]) does not end in time. The [except]
    clauses are tried in order; [TimeoutError] stands for
    [asyncio.TimeoutError], and [result.item_name or EmptyString] is
    [result.item_name]. *)
Definition scrape_nsn_suppliers_endpoint (nsn : string) (maxSuppliers : Z)
    (w : World) (in_time : bool) : response :=
  if in_time && negb (pool_wait_outlasts w) then
    match (scrape_nsn config nsn maxSuppliers 180 w).2 with
    | Returns result =>
        Answer (mkScrapeNSNSuppliersResponse (Workflow.nsn result)
                  (item_name result) (has_open_rfq result)
                  (omap Api.supplier_info (suppliers result))
                  (bool_decide (firecrawl_status (workflow result) = PartialTimeout)))
    | Raises TimeoutError => ErrorResponse 504 (Fixed "Supplier scrape timed out")
    | Raises (RuntimeError _) =>
        ErrorResponse 503 (Fixed "Supplier scraper temporarily unavailable")
    | Raises e => ErrorResponse 500 (ScrapingFailed e)
    end
  else ErrorResponse 504 (Fixed "Supplier scrape timed out").

End WithConfig.


(** A run under a started pool whose every slot stays taken for the
    whole wait. *)
Definition busy_world : World :=
  mkWorld true
    (Pool.mkLease Pool.TimedOut 1 Pool.Opened (OtherError "launch failed") true
       Pool.Closed)
    (Returns MergeSpec.sample_dibbs) (Returns MergeSpec.sample_wbparts)
    (fun _ => Found None) 0 0 (fun _ => 0%Q) 1 "2026-01-01T00:00:00Z".

End ApiSingle.

(** ** Contact discovery ([services/firecrawl.py]) *)

Module Firecrawl.

(** How one [requests.post] attempt, with [raise_for_status()] and
    [json()], can fail: the three exceptions the retry loop catches
    ([HTTPError] with the status of its response, if it has one), or any
    other exception, which the loop lets through. *)
Inductive failure :=
| HTTPError (status : option Z)
| Timeout
| ConnectionError
| Unhandled (e : exn).

(** What a call of [firecrawl_request] did: the attempts it made, the
    [time.sleep] delays in seconds, and how it ended. [answer] is the
    JSON it returned ([inl]) or the exception it raised ([inr]); [None]
    stands for leaving the [for] loop, after which the function returns
    [None]. *)
Record RequestRun (J : Type) := mkRequestRun {
  attempts : nat;
  sleeps : list Q;
  answer : option (J + failure)
}.
Arguments mkRequestRun {J} _ _ _.
Arguments attempts {J} _.
Arguments sleeps {J} _.
Arguments answer {J} _.

(** [status in (400, 401, 403, 404)], with [status = 0] for an error
    without a response. *)
Definition permanent (status : option Z) : bool :=
  let status := match status with Some s => s | None => 0 end in
  (status =? 400) || (status =? 401) || (status =? 403) || (status =? 404).

(** The [raise] statements of the three [except] clauses. *)
Definition gives_up (max_retries : Z) (attempt : nat) (f : failure) : bool :=
  match f with
  | HTTPError status => permanent status || (Z.of_nat attempt =? max_retries - 1)
  | Timeout => Z.of_nat attempt =? max_retries - 1
  | ConnectionError => Z.of_nat attempt =? max_retries - 1
  | Unhandled _ => true
  end.

(** [delay = (2 ** attempt) + random.uniform(0, 1)]. *)
Definition delay (jitter : nat -> Q) (attempt : nat) : Q :=
  (inject_Z (2 ^ Z.of_nat attempt) + jitter attempt)%Q.

Section Request.
Context {J : Type}.
(** The outcome of the attempt numbered [attempt], and the value drawn by
    [random.uniform(0, 1)] after it. *)
Variable post : nat -> J + failure.
Variable jitter : nat -> Q.

(** The iterations of [for attempt in range(max_retries)] from [attempt]
    on, [todo] of them. *)
Fixpoint request_loop (max_retries : Z) (attempt todo : nat) : RequestRun J :=
  match todo with
  | O => mkRequestRun 0 [] None
  | S todo' =>
      match post attempt with
      | inl json => mkRequestRun 1 [] (Some (inl json))
      | inr f =>
          if gives_up max_retries attempt f
          then mkRequestRun 1 [] (Some (inr f))
          else
            let rest := request_loop max_retries (S attempt) todo' in
            mkRequestRun (S (attempts rest)) (delay jitter attempt :: sleeps rest)
              (answer rest)
      end
  end.

Definition firecrawl_request (max_retries : Z) : RequestRun J :=
  let max_retries := if max_retries <? 1 then 1 else max_retries in
  request_loop max_retries 0 (Z.to_nat max_retries).

End Request.

Record ContactPerson := mkContactPerson {
  person_name : option string;
  person_title : option string;
  person_email : option string;
  person_phone : option string
}.

(** [models.SupplierContact], all fields. *)
Record SupplierContact := mkSupplierContact {
  companyName : string;
  email : option string;
  phone : option string;
  address : option string;
  website : option string;
  contactPage : option string;
  additionalContacts : list ContactPerson;
  source : string;
  confidence : Workflow.Confidence;
  scrapedAt : string
}.

Definition calculate_confidence (has_email has_phone has_address has_website : bool)
    : Workflow.Confidence :=
  if has_email && has_phone && has_address && has_website then Workflow.high
  else if has_phone then Workflow.medium
  else Workflow.low.

(** [confidence_order]. *)
Definition confidence_order (c : Workflow.Confidence) : Z :=
  match c with Workflow.high => 3 | Workflow.medium => 2 | Workflow.low => 1 end.

(** A JSON value where the code expects a string: [null], a string, or
    a value of another type. The code does not test which one it has,
    so a value of another type is given by its truth value and by what
    a field of type [Optional[str]] of the pydantic models makes of it:
    a string, or a validation error. *)
Inductive value :=
| Null
| Str (s : string)
| Other (truth : bool) (validated : outcome string).

(** A JSON value where the code expects a list, as far as the code
    looks at it: its truth value and, when it is truthy, what [x[0]]
    gives, a value or an exception. A list of strings is a case of it;
    so are a list that starts with [null] and a number. *)
Inductive entries :=
| Falsy
| Truthy (first : outcome value).

(** What the [try] block of one iteration of the scrape loop obtains up
    to the comparison of confidences: an exception (from
    [firecrawl_request] or from reading the response), or a response
    with its [success] flag and the [emails], [phones], [address] and
    [contactPersons] of its JSON part. The extraction schema asks for
    lists of strings and a string; the code takes what it gets.
    [contactPersons] is given by what the loop that builds
    [additional_contacts] makes of it: the list of [ContactPerson], or
    the exception raised on the way (a value that is not a list of
    dicts, a person that does not validate). *)
Inductive scrape_reply :=
| ScrapeRaised
| ScrapeReply (success : bool) (emails phones : entries) (address : value)
    (contactPersons : outcome (list ContactPerson)).

(** [bool(x)]. *)
Definition has (l : entries) : bool :=
  match l with Falsy => false | Truthy _ => true end.

Definition truth_of (v : value) : bool :=
  match v with
  | Null => false
  | Str s => truthy s
  | Other truth _ => truth
  end.

Definition truthy_opt (o : option string) : bool :=
  match o with Some s => truthy s | None => false end.

(** [x[0] if x else None]. *)
Definition first_or_none (l : entries) : outcome value :=
  match l with Falsy => Returns Null | Truthy first => first end.

(** A value passed to a field of type [Optional[str]]. *)
Definition as_optional_str (v : value) : outcome (option string) :=
  match v with
  | Null => Returns None
  | Str s => Returns (Some s)
  | Other _ (Returns s) => Returns (Some s)
  | Other _ (Raises e) => Raises e
  end.

(** [needle in hay]. *)
Definition contains (needle hay : string) : bool :=
  match String.index 0 needle hay with Some _ => true | None => false end.

(** [str.lower()] on the letters A to Z; the other characters are left
    as they are, which gives the same answers to the three containment
    tests below. *)
Definition lower_char (c : ascii) : ascii :=
  let n := N_of_ascii c in
  if ((65 <=? n) && (n <=? 90))%N then ascii_of_N (n + 32) else c.

Fixpoint lower (s : string) : string :=
  match s with
  | EmptyString => EmptyString
  | String c s' => String (lower_char c) (lower s')
  end.

(** [any(x in website_url.lower() for x in ["/contact", "/about", "/reach"])]. *)
Definition is_contact_like (website_url : string) : bool :=
  existsb (fun x => contains x (lower website_url)) ["/contact"; "/about"; "/reach"].

(** [best_result], a dict in the source. *)
Record Best := mkBest {
  best_email : value;
  best_phone : value;
  best_address : value;
  best_additional_contacts : list ContactPerson;
  best_conf : Workflow.Confidence
}.

(** The statements between the assignment of [contact_page_url] and the
    test for high confidence: the loop over [contact_persons], then the
    dict with [emails[0]] and [phones[0]]. *)
Definition build_best (emails phones : entries) (address : value)
    (contact_persons : outcome (list ContactPerson))
    (confidence : Workflow.Confidence) : outcome Best :=
  match contact_persons with
  | Raises e => Raises e
  | Returns additional_contacts =>
      match first_or_none emails with
      | Raises e => Raises e
      | Returns email =>
          match first_or_none phones with
          | Raises e => Raises e
          | Returns phone =>
              Returns (mkBest email phone address additional_contacts confidence)
          end
      end
  end.

(** The variables of the scrape loop, and the URLs requested so far. *)
Record ScrapeState := mkScrapeState {
  best_result : option Best;
  best_confidence : Workflow.Confidence;
  contact_page_url : option string;
  requested : list string
}.

Section Extract.
Variable config : Config.
(** [urlparse(url)]: the scheme and the network location, or the
    [ValueError] it raises. *)
Variable urlparse : string -> outcome (string * string).
(** The scrape request for a URL. *)
Variable scrape : string -> scrape_reply.

(** [for url in urls_to_try], with its [break] and its
    [except Exception: continue]. [best_confidence] and
    [contact_page_url] are assigned before [best_result] is built, so
    they keep their new values when the building raises; [best_result]
    then keeps its old one, and the [break] is not reached. *)
Fixpoint scrape_loop (website_url : string) (urls : list string)
    (st : ScrapeState) : ScrapeState :=
  match urls with
  | [] => st
  | url :: rest =>
      let st := mkScrapeState (best_result st) (best_confidence st)
                  (contact_page_url st) (requested st ++ [url]) in
      match scrape url with
      | ScrapeReply true emails phones address contact_persons =>
          let confidence :=
            calculate_confidence (has emails) (has phones)
              (truth_of address) (truthy website_url) in
          if confidence_order (best_confidence st) <? confidence_order confidence
          then
            let st :=
              mkScrapeState (best_result st) confidence
                (if contains "/contact" url then Some url else None)
                (requested st) in
            match build_best emails phones address contact_persons confidence with
            | Returns best =>
                let st' :=
                  mkScrapeState (Some best) (best_confidence st)
                    (contact_page_url st) (requested st) in
                match confidence with
                | Workflow.high => st'
                | _ => scrape_loop website_url rest st'
                end
            | Raises _ => scrape_loop website_url rest st
            end
          else scrape_loop website_url rest st
      | _ => scrape_loop website_url rest st
      end
  end.

Definition empty_contact (website_url company_name timestamp : string)
    : SupplierContact :=
  mkSupplierContact company_name None None None (Some website_url) None []
    "firecrawl_scrape" Workflow.low timestamp.

(** The [SupplierContact] built from [best_result] after the loop,
    outside the [try] block: the model validates [email], [phone] and
    [address]. *)
Definition contact_of_best (website_url company_name timestamp : string)
    (contact_page_url : option string) (best : Best) : outcome SupplierContact :=
  match as_optional_str (best_email best) with
  | Raises e => Raises e
  | Returns email =>
      match as_optional_str (best_phone best) with
      | Raises e => Raises e
      | Returns phone =>
          match as_optional_str (best_address best) with
          | Raises e => Raises e
          | Returns address =>
              Returns
                (mkSupplierContact company_name email phone address
                   (Some website_url) contact_page_url
                   (best_additional_contacts best) "firecrawl_scrape"
                   (best_conf best) timestamp)
          end
      end
  end.

(** [extract_contact_info]: the URLs it requested and what it returns
    or raises. [urlparse] is called outside the [try] block. *)
Definition extract_contact_info (website_url company_name timestamp : string)
    : list string * outcome SupplierContact :=
  if negb (is_firecrawl_configured config)
  then ([], Returns (empty_contact website_url company_name timestamp))
  else
    let urls_to_try :=
      if negb (is_contact_like website_url) then
        match urlparse website_url with
        | Returns (scheme, netloc) =>
            Returns [website_url; scheme +:+ "://" +:+ netloc +:+ "/contact"]
        | Raises e => Raises e
        end
      else Returns [website_url] in
    match urls_to_try with
    | Raises e => ([], Raises e)
    | Returns urls =>
        let st := scrape_loop website_url urls
                    (mkScrapeState None Workflow.low None []) in
        (requested st,
         match best_result st with
         | Some best =>
             contact_of_best website_url company_name timestamp
               (contact_page_url st) best
         | None => Returns (empty_contact website_url company_name timestamp)
         end)
    end.

(** [search_supplier_website(company_name, cage_code)]: [None], or a
    search result with its [url], if it has one. *)
Variable search_supplier_website : string -> option string -> option (option string).

(** [find_supplier_contact]: whether it searched, the URLs it
    requested, and what it returns or raises. *)
Definition find_supplier_contact (company_name : string)
    (cage_code known_website : option string) (timestamp : string)
    : bool * list string * outcome SupplierContact :=
  let extracted (searched : bool) (website_url : string) :=
    (searched, (extract_contact_info website_url company_name timestamp).1,
     (extract_contact_info website_url company_name timestamp).2) in
  let not_found :=
    (true, [],
     Returns (mkSupplierContact company_name None None None None None []
                "firecrawl_search" Workflow.low timestamp)) in
  let by_search :=
    match search_supplier_website company_name cage_code with
    | Some (Some website_url) =>
        if truthy website_url then extracted true website_url else not_found
    | _ => not_found
    end in
  match known_website with
  | Some known => if truthy known then extracted false known else by_search
  | None => by_search
  end.

End Extract.

End Firecrawl.

(** ** Contact discovery as a caller sees it *)

Module FirecrawlSpec.
Import Firecrawl.

(** An attempt after which the retry loop goes on, if attempts remain. *)
Definition retryable {J} (r : J + failure) : bool :=
  match r with
  | inl _ => false
  | inr (HTTPError status) => negb (permanent status)
  | inr Timeout => true
  | inr ConnectionError => true
  | inr (Unhandled _) => false
  end.

(** The attempts allowed: [max(1, max_retries)]. *)
Definition allowed (max_retries : Z) : nat := Z.to_nat (Z.max 1 max_retries).

Definition total (l : list Q) : Q := fold_right Qplus 0%Q l.

(** A site whose main page yields a phone number only and whose contact
    page yields everything. *)
Definition sample_scrape (url : string) : Firecrawl.scrape_reply :=
  if String.eqb url "https://acme.example"
  then ScrapeReply true Falsy (Truthy (Returns (Str "555-0100"))) Null (Returns [])
  else ScrapeReply true (Truthy (Returns (Str "sales@acme.example")))
         (Truthy (Returns (Str "555-0100"))) (Str "1 Main St") (Returns []).

(** A site whose pages yield [phones: [null]]. *)
Definition null_phone_scrape (url : string) : Firecrawl.scrape_reply :=
  ScrapeReply true Falsy (Truthy (Returns Null)) Null (Returns []).

(** A site whose main page yields everything, with a contact person
    that is not an object, and whose contact page yields a phone
    number. *)
Definition broken_person_scrape (url : string) : Firecrawl.scrape_reply :=
  if String.eqb url "https://acme.example"
  then ScrapeReply true (Truthy (Returns (Str "sales@acme.example")))
         (Truthy (Returns (Str "555-0100"))) (Str "1 Main St")
         (Raises (OtherError "'str' object has no attribute 'get'"))
  else ScrapeReply true Falsy (Truthy (Returns (Str "555-0100"))) Null (Returns []).

(** A site whose pages yield [emails: [42]], where the model rejects
    the number. *)
Definition number_email_scrape (url : string) : Firecrawl.scrape_reply :=
  ScrapeReply true
    (Truthy (Returns (Other true (Raises (ValueError "Input should be a valid string")))))
    (Truthy (Returns (Str "555-0100"))) Null (Returns []).

Definition sample_urlparse (url : string) : outcome (string * string) :=
  Returns ("https", "acme.example").

Definition sample_search (company_name : string) (cage_code : option string)
    : option (option string) :=
  Some (Some "https://acme.example").

(** Three attempts: a timeout, a 503 and an answer. *)
Definition sample_post (attempt : nat) : string + failure :=
  match attempt with
  | 0%nat => inr Timeout
  | 1%nat => inr (HTTPError (Some 503))
  | _ => inl "{}"
  end.

(** The confidence one page gives on its own. *)
Definition page_confidence (scrape : string -> scrape_reply)
    (website_url url : string) : Workflow.Confidence :=
  match scrape url with
  | ScrapeReply true emails phones address _ =>
      calculate_confidence (has emails) (has phones) (truth_of address)
        (truthy website_url)
  | _ => Workflow.low
  end.

(** Whether [best_result] can be built from a page; true of a page from
    which the loop does not try. *)
Definition page_builds (scrape : string -> scrape_reply) (url : string) : bool :=
  match scrape url with
  | ScrapeReply true emails phones address contact_persons =>
      match build_best emails phones address contact_persons Workflow.low with
      | Returns _ => true
      | Raises _ => false
      end
  | _ => true
  end.

(** The values of a page that can reach the contact: the first email,
    the first phone and the address. *)
Definition firsts (l : entries) : list value :=
  match l with Truthy (Returns v) => [v] | _ => [] end.

Definition page_values (scrape : string -> scrape_reply) (url : string)
    : list value :=
  match scrape url with
  | ScrapeReply true emails phones address _ =>
      firsts emails ++ firsts phones ++ [address]
  | _ => []
  end.

(** [best] was built from the page at [url]: the page was a success
    whose [phones] was truthy, its confidence is that of [best], and the
    fields of [best] are its first email (or [null]), its first phone,
    its address and its contact persons. *)
Definition built_from (scrape : string -> scrape_reply) (website_url url : string)
    (best : Best) : Prop :=
  exists emails address,
    scrape url
    = ScrapeReply true emails (Truthy (Returns (best_phone best))) address
        (Returns (best_additional_contacts best))
    /\ calculate_confidence (has emails) true (truth_of address) (truthy website_url)
       = best_conf best
    /\ first_or_none emails = Returns (best_email best)
    /\ address = best_address best.

(** What the confidence of a contact stands on. A contact of low
    confidence carries no contact data at all. A contact of medium or
    high confidence carries the data of one of the pages requested, a
    page that gives this confidence: its first email, first phone and
    address as the model validates them, and its contact persons. The
    values themselves can be [null] or empty. *)
Definition backed (scrape : string -> scrape_reply) (website_url : string)
    (reqs : list string) (c : SupplierContact) : Prop :=
  match confidence c with
  | Workflow.low =>
      email c = None /\ phone c = None /\ address c = None
      /\ contactPage c = None /\ additionalContacts c = []
  | conf =>
      exists url best,
        url ∈ reqs
        /\ built_from scrape website_url url best
        /\ best_conf best = conf
        /\ as_optional_str (best_email best) = Returns (email c)
        /\ as_optional_str (best_phone best) = Returns (phone c)
        /\ as_optional_str (best_address best) = Returns (address c)
        /\ additionalContacts c = best_additional_contacts best
  end.

(** The best rank among some pages; that of low when there is none. *)
Definition best_rank (l : list Workflow.Confidence) : Z :=
  foldr Z.max 1 (map confidence_order l).

(** What the scrape loop keeps true of its variables: [best_confidence]
    is at most the best rank among the pages requested so far, and
    [best_result], when set, was built from one of them, with a
    confidence above low and at most [best_confidence]. When every page
    requested so far could be built, [best_confidence] is the best rank
    and [best_result] is set exactly when that is above low, with this
    confidence. *)
Definition tracked (scrape : string -> scrape_reply) (website_url : string)
    (st : ScrapeState) : Prop :=
  confidence_order (best_confidence st)
  <= best_rank (map (page_confidence scrape website_url) (requested st))
  /\ match best_result st with
     | None => True
     | Some b =>
         best_conf b <> Workflow.low
         /\ confidence_order (best_conf b) <= confidence_order (best_confidence st)
         /\ exists url, url ∈ requested st /\ built_from scrape website_url url b
     end
  /\ (forallb (page_builds scrape) (requested st) = true ->
      confidence_order (best_confidence st)
      = best_rank (map (page_confidence scrape website_url) (requested st))
      /\ match best_result st with
         | None => best_confidence st = Workflow.low
         | Some b => best_conf b = best_confidence st
         end).

End FirecrawlSpec.

(** * Properties *)

Lemma truthy_true s : truthy s = true <-> s <> EmptyString.
Proof.
  unfold truthy. rewrite negb_true_iff. split.
  - intros H ->. by rewrite String.eqb_refl in H.
  - intros H. by apply String.eqb_neq.
Qed.

Lemma truthy_false s : truthy s = false <-> s = EmptyString.
Proof.
  unfold truthy. rewrite negb_false_iff. apply String.eqb_eq.
Qed.

(** ** Stage B *)

Section MergeFacts.
Import Merge.

Lemma add_source_entity st s : add_source st s = add_entity st (of_source s).
Proof. reflexivity. Qed.

Lemma add_mfr_entity st m : add_mfr st m = add_entity st (of_mfr m).
Proof. reflexivity. Qed.

Lemma foldl_add_source st l :
  foldl add_source st l = foldl add_entity st (map of_source l).
Proof. revert st. induction l as [|x l IH]; intros st; simpl; [done|]. by rewrite IH. Qed.

Lemma foldl_add_mfr st l :
  foldl add_mfr st l = foldl add_entity st (map of_mfr l).
Proof. revert st. induction l as [|x l IH]; intros st; simpl; [done|]. by rewrite IH. Qed.

(** The two loops are one pass over the concatenated entity lists. *)
Lemma get_unique_suppliers_list_fold d w :
  get_unique_suppliers_list d w
  = (foldl add_entity (∅, []) (map of_source d ++ map of_mfr w)).2.
Proof.
  unfold get_unique_suppliers_list. cbv zeta.
  by rewrite foldl_app, foldl_add_source, foldl_add_mfr.
Qed.

Lemma add_entity_cases (seen : gset string) acc e :
  add_entity (seen, acc) e
  = if bool_decide (key_of e ∉ seen) && named e
    then ({[key_of e]} ∪ seen, acc ++ [e]) else (seen, acc).
Proof. by destruct e. Qed.

(** The pass computes the first-occurrence deduplication, by the key
    string, of the entities that have a name. *)
Lemma foldl_add_entity_dedup l : forall (seen : gset string) seenl acc,
  (forall k, k ∈ seen <-> k ∈ seenl) ->
  (foldl add_entity (seen, acc) l).2
  = acc ++ dedup_from key_of seenl (List.filter named l).
Proof.
  induction l as [|e l IH]; intros seen seenl acc Hseen; simpl.
  - by rewrite app_nil_r.
  - rewrite add_entity_cases. destruct (named e) eqn:Hn; simpl.
    + rewrite andb_true_r. case_bool_decide as Hk; case_bool_decide as Hk';
        try (exfalso; rewrite Hseen in Hk; tauto).
      * rewrite (IH _ (key_of e :: seenl)).
        -- by rewrite <- app_assoc.
        -- intros k. rewrite elem_of_union, elem_of_singleton, elem_of_cons, Hseen.
           tauto.
      * by apply IH.
    + rewrite andb_false_r. by apply IH.
Qed.

Lemma get_unique_suppliers_list_dedup d w :
  get_unique_suppliers_list d w
  = dedup_first key_of (List.filter named (map of_source d ++ map of_mfr w)).
Proof.
  rewrite get_unique_suppliers_list_fold.
  rewrite (foldl_add_entity_dedup _ ∅ [] []); [done|].
  intros k. rewrite elem_of_nil. set_solver.
Qed.

Lemma dedup_from_elem {K} `{EqDecision K} (key : Supplier -> K) l :
  forall seen x, x ∈ dedup_from key seen l -> x ∈ l /\ key x ∉ seen.
Proof.
  induction l as [|y l IH]; intros seen x; simpl.
  - by rewrite elem_of_nil.
  - case_bool_decide as Hy.
    + intros [? ?]%IH. split; [by right|done].
    + rewrite elem_of_cons. intros [->|[? Hn]%IH].
      * split; [by left|done].
      * split; [by right|]. rewrite elem_of_cons in Hn. tauto.
Qed.

Lemma dedup_from_NoDup {K} `{EqDecision K} (key : Supplier -> K) l :
  forall seen, NoDup (map key (dedup_from key seen l)).
Proof.
  induction l as [|y l IH]; intros seen; simpl.
  - constructor.
  - case_bool_decide as Hy; [apply IH|].
    simpl. constructor; [|apply IH].
    rewrite list_elem_of_fmap. intros (x & Hx & Hin).
    apply dedup_from_elem in Hin as [_ Hn].
    apply Hn. rewrite <- Hx. by left.
Qed.

Lemma key_of_identity e : key_of e = supplier_key (identity e).1 (identity e).2.
Proof. reflexivity. Qed.

Lemma NoDup_identity_of_key l : NoDup (map key_of l) -> NoDup (map identity l).
Proof.
  intros H.
  apply (NoDup_fmap_1 (fun p : string * string => supplier_key p.1 p.2)).
  by rewrite <- list_fmap_compose.
Qed.

Lemma append_nil_l s : EmptyString +:+ s = s.
Proof. reflexivity. Qed.

Lemma append_cons_l a s t : String a s +:+ t = String a (s +:+ t).
Proof. reflexivity. Qed.

Lemma append_bar_inj n1 : forall n2 c1 c2,
  bar_free n1 = true -> bar_free n2 = true ->
  supplier_key n1 c1 = supplier_key n2 c2 -> n1 = n2 /\ c1 = c2.
Proof.
  unfold supplier_key.
  induction n1 as [|a n1 IH]; intros [|b n2] c1 c2 H1 H2 Heq; simpl in H1, H2;
    repeat (rewrite append_nil_l in Heq || rewrite append_cons_l in Heq).
  - by injection Heq as ->.
  - injection Heq as <- _. by rewrite Ascii.eqb_refl in H2.
  - injection Heq as -> _. by rewrite Ascii.eqb_refl in H1.
  - injection Heq as -> Heq.
    apply andb_true_iff in H1 as [_ H1]. apply andb_true_iff in H2 as [_ H2].
    destruct (IH _ _ _ H1 H2 Heq) as [-> ->]. done.
Qed.

(** On entities whose names hold no bar, the key string and the pair
    (name, secondary id) identify the same entities. *)
Lemma key_of_inj x y :
  MergeSpec.has_bar_free_name x -> MergeSpec.has_bar_free_name y ->
  key_of x = key_of y <-> identity x = identity y.
Proof.
  intros Hx Hy. unfold key_of, identity. split.
  - intros Heq. by destruct (append_bar_inj _ _ _ _ Hx Hy Heq) as [-> ->].
  - by intros [= -> ->].
Qed.

Lemma dedup_from_identity l : forall s,
  Forall MergeSpec.has_bar_free_name s -> Forall MergeSpec.has_bar_free_name l ->
  dedup_from key_of (map key_of s) l = dedup_from identity (map identity s) l.
Proof.
  induction l as [|x l IH]; intros s Hs Hl; simpl; [done|].
  apply Forall_cons in Hl as [Hx Hl].
  assert (key_of x ∈ map key_of s <-> identity x ∈ map identity s) as Hiff.
  { rewrite !list_elem_of_fmap. split; intros (y & Hy & Hin); exists y;
      (split; [|done]); rewrite Forall_forall in Hs;
      apply (key_of_inj x y Hx (Hs _ Hin)); done. }
  case_bool_decide as H1; case_bool_decide as H2; try tauto.
  - by apply IH.
  - f_equal. apply (IH (x :: s)); [by constructor|done].
Qed.

Lemma Forall_filter_named (P : Supplier -> Prop) l :
  Forall P l -> Forall P (List.filter named l).
Proof.
  induction 1 as [|x l Hx _ IH]; simpl; [constructor|].
  destruct (named x); [by constructor|done].
Qed.

End MergeFacts.

Section MergeClaims.
Import Merge MergeSpec Workflow.

Lemma merged_suppliers_entities dr wr :
  consistent dr -> wb_consistent wr ->
  map of_source (dibbs_sources_of dr) ++ map of_mfr (wbparts_mfrs_of wr)
  = successful_entities dr wr.
Proof.
  unfold consistent, wb_consistent, successful_entities,
    dibbs_sources_of, wbparts_mfrs_of.
  intros Hd Hw.
  destruct (success dr); [|rewrite Hd by done];
    (destruct (wb_success wr); [|rewrite Hw by done]); done.
Qed.

(** C4, as the code has it. For fetch results built as the scrapers
    build them (data only on success), the merged supplier list is the
    first-occurrence, order-preserving deduplication of the entities of
    the successful sources that have a non-empty company name, by the key
    string [name|cage]; it holds at most one entity per (name, CAGE code)
    pair; and when no company name contains a vertical bar, the key string
    and the pair (name, CAGE code) deduplicate alike. *)
Theorem merge_dedups_named_entities dr wr :
  consistent dr -> wb_consistent wr ->
  merged_suppliers dr wr
    = dedup_first key_of (List.filter named (successful_entities dr wr))
  /\ NoDup (map identity (merged_suppliers dr wr))
  /\ (Forall has_bar_free_name (successful_entities dr wr) ->
      merged_suppliers dr wr
      = dedup_first identity (List.filter named (successful_entities dr wr))).
Proof.
  intros Hd Hw. unfold merged_suppliers.
  rewrite get_unique_suppliers_list_dedup, (merged_suppliers_entities _ _ Hd Hw).
  split; [done|split].
  - apply NoDup_identity_of_key, dedup_from_NoDup.
  - intros Hbar. apply (dedup_from_identity _ []); [constructor|].
    by apply Forall_filter_named.
Qed.

Lemma merge_dedups_named_entities_witness :
  merged_suppliers sample_dibbs sample_wbparts
  = [mkSupplier "Acme" "3DEF4" "P-2"; mkSupplier "Bolt Works" "5GHI6" "P-3"]
  /\ NoDup (map identity (merged_suppliers sample_dibbs sample_wbparts)).
Proof.
  assert (consistent sample_dibbs) as Hd by (intros H; discriminate H).
  assert (wb_consistent sample_wbparts) as Hw by (intros H; discriminate H).
  destruct (merge_dedups_named_entities sample_dibbs sample_wbparts Hd Hw)
    as (Heq & Hnd & _).
  split; [|exact Hnd]. rewrite Heq. vm_compute. reflexivity.
Defined.

(** C4 as stated fails: an entity without a company name belongs to the
    union of the successful sources' entity lists but not to the merged
    list. *)
Lemma merge_is_not_the_plain_union :
  merged_suppliers sample_dibbs sample_wbparts
  <> spec_merge sample_dibbs sample_wbparts.
Proof. vm_compute. discriminate. Qed.

(** Two entities with different (name, CAGE code) pairs and the same key
    string: the second is dropped. *)
Example key_strings_collide :
  get_unique_suppliers_list
    [mkApprovedSource "C" "p" "A|B"] [mkWBPartsManufacturer "q" "B|C" "A"]
  = [mkSupplier "A|B" "C" "p"].
Proof. vm_compute. reflexivity. Qed.

(** C9, as the code has it. When one source returns ("Acme","123") and
    one further entity, and the other returns ("Acme","123") and one other
    further entity, the further entities having non-empty names and key
    strings that differ from Acme's and from each other, the merge yields
    exactly three entities: Acme, then the first source's further entity,
    then the second's. *)
Theorem acme_and_two_unique_yield_three p1 p2 u1 u2 :
  src_company_name u1 <> EmptyString ->
  mfr_company_name u2 <> EmptyString ->
  key_of (of_source u1) <> "Acme|123" ->
  key_of (of_mfr u2) <> "Acme|123" ->
  key_of (of_mfr u2) <> key_of (of_source u1) ->
  get_unique_suppliers_list
    [mkApprovedSource "123" p1 "Acme"; u1]
    [mkWBPartsManufacturer p2 "123" "Acme"; u2]
  = [mkSupplier "Acme" "123" p1; of_source u1; of_mfr u2].
Proof.
  intros Hn1 Hn2 Hk1 Hk2 Hk12.
  rewrite get_unique_suppliers_list_dedup. unfold dedup_first. simpl.
  assert (named (of_source u1) = true) as ->
    by (by apply truthy_true).
  assert (named (of_mfr u2) = true) as ->
    by (by apply truthy_true).
  change (named (of_source (mkApprovedSource "123" p1 "Acme"))) with true.
  change (named (of_mfr (mkWBPartsManufacturer p2 "123" "Acme"))) with true.
  cbv iota. simpl dedup_from.
  change (key_of (of_source (mkApprovedSource "123" p1 "Acme"))) with "Acme|123".
  change (key_of (of_mfr (mkWBPartsManufacturer p2 "123" "Acme"))) with "Acme|123".
  rewrite (bool_decide_eq_false_2 (key_of (of_source u1) ∈ _))
    by (rewrite elem_of_cons, elem_of_nil; tauto).
  rewrite (bool_decide_eq_true_2 ("Acme|123" ∈ _))
    by (rewrite !elem_of_cons; tauto).
  rewrite (bool_decide_eq_false_2 (key_of (of_mfr u2) ∈ _))
    by (rewrite !elem_of_cons, elem_of_nil; tauto).
  reflexivity.
Qed.

Lemma acme_and_two_unique_yield_three_witness :
  get_unique_suppliers_list
    [mkApprovedSource "123" "P1" "Acme"; mkApprovedSource "456" "P2" "Bolt"]
    [mkWBPartsManufacturer "P9" "123" "Acme"; mkWBPartsManufacturer "P3" "789" "Coil"]
  = [mkSupplier "Acme" "123" "P1"; mkSupplier "Bolt" "456" "P2";
     mkSupplier "Coil" "789" "P3"].
Proof.
  apply (acme_and_two_unique_yield_three "P1" "P9"
           (mkApprovedSource "456" "P2" "Bolt")
           (mkWBPartsManufacturer "P3" "789" "Coil")); vm_compute; discriminate.
Defined.

(** C9 as stated fails: the two sources of the example merge into three
    entities, not two. *)
Lemma acme_merge_is_not_two :
  length (get_unique_suppliers_list
    [mkApprovedSource "123" "P1" "Acme"; mkApprovedSource "456" "P2" "Bolt"]
    [mkWBPartsManufacturer "P9" "123" "Acme"; mkWBPartsManufacturer "P3" "789" "Coil"])
  <> 2%nat.
Proof. vm_compute. discriminate. Qed.

End MergeClaims.

(** ** Stage C *)

Section WorkflowFacts.
Import Workflow StageCSpec.
Variable config : Config.

Lemma row_discover_name w d i s :
  company_name (row (_discover_one w d i s)) = companyName s.
Proof. unfold _discover_one. by destruct (past_margin _ _). Qed.

Lemma discover_hit w ts i s :
  hit_deadline (_discover_one w (deadline_of w ts) i s) = deadline_skipped w ts i.
Proof. unfold _discover_one, deadline_skipped. by destruct (past_margin _ _). Qed.

Lemma discover_called w ts i s :
  called (_discover_one w (deadline_of w ts) i s) = negb (deadline_skipped w ts i).
Proof. unfold _discover_one, deadline_skipped. by destruct (past_margin _ _). Qed.

Lemma discover_idx w d i s : d_idx (_discover_one w d i s) = i.
Proof. unfold _discover_one. by destruct (past_margin _ _). Qed.

Lemma discover_success w ts i s :
  counts_as_success (row (_discover_one w (deadline_of w ts) i s))
  = negb (deadline_skipped w ts i) && yields_usable_contact w i.
Proof.
  unfold _discover_one, deadline_skipped, yields_usable_contact, counts_as_success.
  destruct (past_margin _ _); simpl; [done|].
  destruct (find_supplier_contact w i) as [[c|]|e]; done.
Qed.

(** A task that finds the margin used up does not call the service and
    returns the entity without a contact. *)
Lemma discover_skipped w ts i s :
  deadline_skipped w ts i = true ->
  _discover_one w (deadline_of w ts) i s
  = mkDiscovery i true false (with_contact s None).
Proof. unfold _discover_one, deadline_skipped. by intros ->. Qed.

(** A task whose call raises returns the entity without a contact. *)
Lemma discover_failed w ts i s e :
  deadline_skipped w ts i = false ->
  find_supplier_contact w i = Failed e ->
  _discover_one w (deadline_of w ts) i s
  = mkDiscovery i false true (with_contact s None).
Proof. unfold _discover_one, deadline_skipped. by intros -> ->. Qed.

Lemma imap_shift {A B} (f : nat -> A -> B) k (l : list A) :
  imap ((fun i => f (k + i)%nat) ∘ S) l = imap (fun i => f (S k + i)%nat) l.
Proof. apply imap_ext. intros i x _. simpl. f_equal. lia. Qed.

Lemma discoveries_hit w ts l : forall k,
  existsb hit_deadline
    (imap (fun i => _discover_one w (deadline_of w ts) (k + i)) l)
  = (0 <? length (List.filter (deadline_skipped w ts) (seq k (length l))))%nat.
Proof.
  induction l as [|s l IH]; intros k; [done|].
  rewrite imap_cons, imap_shift. cbn [existsb length seq List.filter].
  rewrite IH, discover_hit, Nat.add_0_r.
  destruct (deadline_skipped w ts k); done.
Qed.

Lemma discoveries_success w ts l : forall k,
  success_count
    (map row (imap (fun i => _discover_one w (deadline_of w ts) (k + i)) l))
  = length (List.filter
      (fun i => negb (deadline_skipped w ts i) && yields_usable_contact w i)
      (seq k (length l))).
Proof.
  unfold success_count.
  induction l as [|s l IH]; intros k; [done|].
  rewrite imap_cons, imap_shift. cbn [map length seq List.filter].
  rewrite discover_success, Nat.add_0_r.
  destruct (negb _ && _); cbn [length]; by rewrite IH.
Qed.

Lemma discoveries_called w ts l : forall k,
  map d_idx (List.filter called
    (imap (fun i => _discover_one w (deadline_of w ts) (k + i)) l))
  = List.filter (fun i => negb (deadline_skipped w ts i)) (seq k (length l)).
Proof.
  induction l as [|s l IH]; intros k; [done|].
  rewrite imap_cons, imap_shift. cbn [map length seq List.filter].
  rewrite discover_called, Nat.add_0_r.
  destruct (negb _); cbn [map]; rewrite ?discover_idx, IH; done.
Qed.

Lemma filter_three_way (P Q : nat -> bool) l :
  length l
  = (length (List.filter P l)
     + length (List.filter (fun i => negb (P i) && Q i) l)
     + length (List.filter (fun i => negb (P i) && negb (Q i)) l))%nat.
Proof.
  induction l as [|x l IH]; [done|]. cbn [List.filter length].
  destruct (P x), (Q x); cbn [negb andb length]; lia.
Qed.

Lemma status_of_table (timed succ fail : nat) :
  status_of (0 <? timed)%nat succ (timed + succ + fail)
  = table true succ fail timed.
Proof.
  unfold status_of, table. cbn [negb].
  destruct (0 <? timed)%nat eqn:Ht; [done|].
  apply Nat.ltb_ge in Ht. assert (timed = 0%nat) as -> by lia. cbn [Nat.add].
  destruct (fail =? 0)%nat eqn:Hf.
  - apply Nat.eqb_eq in Hf as ->. by rewrite Nat.add_0_r, Nat.eqb_refl.
  - apply Nat.eqb_neq in Hf.
    assert ((succ =? succ + fail)%nat = false) as -> by (apply Nat.eqb_neq; lia).
    destruct succ; done.
Qed.

Lemma discoveries_eq w ts l :
  l <> [] -> is_firecrawl_configured config = true ->
  discoveries config w ts l = imap (fun i => _discover_one w (deadline_of w ts) (0 + i)) l.
Proof. unfold discoveries. intros Hl ->. by destruct l. Qed.

(** The status Stage C computes is the table's, with an attempt counted
    as a success when it yields a contact of high or medium confidence
    and as a failure otherwise. *)
Lemma stage_c_status w ts l :
  (stage_c_granted config w ts l).2 = derived_status config w ts l.
Proof.
  unfold derived_status, status_by, stage_c_granted.
  destruct l as [|s l]; [done|].
  unfold ran. destruct (is_firecrawl_configured config) eqn:Hc; [|done].
  cbn [snd]. rewrite (discoveries_eq w ts (s :: l)) by done.
  rewrite discoveries_hit, discoveries_success. unfold count.
  set (n := length (s :: l)).
  pose proof (filter_three_way (deadline_skipped w ts) (yields_usable_contact w)
                (seq 0 n)) as Hn.
  rewrite length_seq in Hn.
  set (a := length (List.filter (deadline_skipped w ts) (seq 0 n))) in *.
  set (b := length (List.filter
    (fun i => negb (deadline_skipped w ts i) && yields_usable_contact w i)
    (seq 0 n))) in *.
  set (c := length (List.filter
    (fun i => negb (deadline_skipped w ts i) && negb (yields_usable_contact w i))
    (seq 0 n))) in *.
  clearbody a b c n. subst n. apply status_of_table.
Qed.

Lemma stage_c_rows_names w ts l :
  map company_name (stage_c_granted config w ts l).1.1 = map companyName l.
Proof.
  unfold stage_c_granted. destruct l as [|s l]; [done|].
  destruct (is_firecrawl_configured config) eqn:Hc; cbn [fst].
  - rewrite (discoveries_eq w ts (s :: l)) by done.
    rewrite <- !list_fmap_compose, fmap_imap.
    erewrite imap_ext; [apply imap_const|].
    intros i x _. apply row_discover_name.
  - by rewrite <- list_fmap_compose.
Qed.

End WorkflowFacts.

Section WorkflowClaims.
Import Workflow StageCSpec.
Variable config : Config.

(** Stage C raises only the [ValueError] of a semaphore with a negative
    initial value, and only when it runs. *)
Lemma stage_c_cases w ts l :
  stage_c config w ts l = Returns (stage_c_granted config w ts l)
  \/ (FIRECRAWL_CONCURRENCY config < 0 /\ l <> []
      /\ is_firecrawl_configured config = true
      /\ stage_c config w ts l
         = Raises (ValueError "Semaphore initial value must be >= 0")).
Proof.
  unfold stage_c, firecrawl_sem.
  destruct (bool_decide (l = [])) eqn:Hl; cbn [negb andb]; [by left|].
  apply bool_decide_eq_false in Hl.
  destruct (is_firecrawl_configured config); [|by left].
  destruct (Z.ltb_spec (FIRECRAWL_CONCURRENCY config) 0); [by right|by left].
Qed.

Lemma stage_c_returns w ts l :
  0 <= FIRECRAWL_CONCURRENCY config \/ l = []
  \/ is_firecrawl_configured config = false ->
  stage_c config w ts l = Returns (stage_c_granted config w ts l).
Proof.
  intros H. destruct (stage_c_cases w ts l) as [?|(? & ? & ? & _)]; [done|].
  destruct H as [?|[?|?]]; [lia|done|congruence].
Qed.

Lemma positive_concurrency_never_stalls ms ts w :
  0 < FIRECRAWL_CONCURRENCY config -> stalls config ms ts w = false.
Proof.
  intros Hsem. unfold stalls.
  destruct (stage_a config w) as [evs [[dr wr]|e]]; [|done].
  assert ((FIRECRAWL_CONCURRENCY config =? 0) = false) as ->
    by (apply Z.eqb_neq; lia).
  by rewrite andb_false_r.
Qed.

Lemma scrape_nsn_call_positive nsn ms ts w :
  0 < FIRECRAWL_CONCURRENCY config ->
  scrape_nsn_call config nsn ms ts w = Some (scrape_nsn config nsn ms ts w).
Proof.
  intros Hsem. unfold scrape_nsn_call.
  by rewrite positive_concurrency_never_stalls.
Qed.

Lemma scrape_nsn_granted nsn ms ts w evs dr wr :
  stage_a config w = (evs, Returns (dr, wr)) ->
  let l := cap_suppliers ms (merged_suppliers dr wr) in
  stage_c config w ts l = Returns (stage_c_granted config w ts l) ->
  scrape_nsn config nsn ms ts w
  = (mkFootprint evs
       (map d_idx (List.filter called (discoveries config w ts l)))
       (stage_c_granted config w ts l).1.2
       (Some (t_finished w - t_scrape_start w)%Q),
     Returns (mkEnhancedRFQResult
       (match data dr with
        | Some d => rfq_nsn d
        | None => Helpers.format_nsn_with_dashes nsn
        end)
       (match wb_data wr with
        | Some d => wb_item_name d
        | None => match data dr with
                  | Some d => nomenclature d
                  | None => EmptyString
                  end
        end)
       (match data dr with Some d => has_open_rfqs d | None => false end)
       (stage_c_granted config w ts l).1.1
       (mkRawData (data dr) (wb_data wr))
       (mkWorkflowStatus (source_status (success dr))
          (source_status (wb_success wr)) (stage_c_granted config w ts l).2)
       (timestamp w))).
Proof.
  intros Ha l Hc. unfold scrape_nsn. rewrite Ha. fold l. rewrite Hc.
  by destruct (stage_c_granted config w ts l) as [[rows t] st].
Qed.

Lemma scrape_nsn_sem_raises nsn ms ts w evs dr wr e :
  stage_a config w = (evs, Returns (dr, wr)) ->
  stage_c config w ts (cap_suppliers ms (merged_suppliers dr wr)) = Raises e ->
  scrape_nsn config nsn ms ts w = (mkFootprint evs [] false None, Raises e).
Proof. intros Ha Hc. unfold scrape_nsn. by rewrite Ha, Hc. Qed.

(** After Stage A a run returns its result, unless the semaphore cannot
    be created. *)
Lemma scrape_nsn_returns nsn ms ts w evs dr wr :
  stage_a config w = (evs, Returns (dr, wr)) ->
  let l := cap_suppliers ms (merged_suppliers dr wr) in
  scrape_nsn config nsn ms ts w
  = (mkFootprint evs
       (map d_idx (List.filter called (discoveries config w ts l)))
       (stage_c_granted config w ts l).1.2
       (Some (t_finished w - t_scrape_start w)%Q),
     Returns (mkEnhancedRFQResult
       (match data dr with
        | Some d => rfq_nsn d
        | None => Helpers.format_nsn_with_dashes nsn
        end)
       (match wb_data wr with
        | Some d => wb_item_name d
        | None => match data dr with
                  | Some d => nomenclature d
                  | None => EmptyString
                  end
        end)
       (match data dr with Some d => has_open_rfqs d | None => false end)
       (stage_c_granted config w ts l).1.1
       (mkRawData (data dr) (wb_data wr))
       (mkWorkflowStatus (source_status (success dr))
          (source_status (wb_success wr)) (stage_c_granted config w ts l).2)
       (timestamp w)))
  \/ (FIRECRAWL_CONCURRENCY config < 0 /\ l <> []
      /\ is_firecrawl_configured config = true
      /\ scrape_nsn config nsn ms ts w
         = (mkFootprint evs [] false None,
            Raises (ValueError "Semaphore initial value must be >= 0"))).
Proof.
  intros Ha l.
  destruct (stage_c_cases w ts l) as [Hc|(Hneg & Hl & Hconf & Hc)].
  - left. by apply scrape_nsn_granted.
  - right. repeat split; [done..|].
    by apply (scrape_nsn_sem_raises nsn ms ts w evs dr wr).
Qed.

Lemma scrape_nsn_raises nsn ms ts w evs e :
  stage_a config w = (evs, Raises e) ->
  scrape_nsn config nsn ms ts w = (mkFootprint evs [] false None, Raises e).
Proof. intros Ha. unfold scrape_nsn. by rewrite Ha. Qed.



Lemma stage_c_input_eq w ms evs dr wr :
  stage_a config w = (evs, Returns (dr, wr)) ->
  stage_c_input config ms w = cap_suppliers ms (merged_suppliers dr wr).
Proof. unfold stage_c_input. by intros ->. Qed.

(** C1, as the code has it. For every run that returns, the Stage-C
    status is the table's, where a success is an attempt that yields a
    contact of high or medium confidence and every other attempt (no
    contact, a raised call, or a low-confidence contact) is a failure:
    skipped when there are no merged entities or the capability is not
    configured, partial_timeout when any entity was deadline-skipped,
    else success when no attempt failed, error when none succeeded, and
    partial otherwise. *)
Theorem stage_c_status_follows_table nsn ms ts w r :
  (scrape_nsn config nsn ms ts w).2 = Returns r ->
  firecrawl_status (workflow r)
  = derived_status config w ts (stage_c_input config ms w).
Proof.
  destruct (stage_a config w) as [evs [[dr wr]|e]] eqn:Ha.
  - destruct (scrape_nsn_returns nsn ms ts w evs dr wr Ha) as [->|(_ & _ & _ & ->)];
      [|discriminate].
    cbn [snd]. intros [= <-]. cbn [workflow firecrawl_status].
    rewrite (stage_c_input_eq _ _ _ _ _ Ha). apply stage_c_status.
  - rewrite (scrape_nsn_raises _ _ _ _ _ _ Ha). discriminate.
Qed.

Lemma cap_suppliers_Forall (P : Supplier -> Prop) ms l :
  Forall P l -> Forall P (cap_suppliers ms l).
Proof.
  unfold cap_suppliers. destruct (_ && _); [apply Forall_take|done].
Qed.

Lemma merged_named d w :
  Forall (fun s => companyName s <> EmptyString)
    (Merge.get_unique_suppliers_list d w).
Proof.
  rewrite get_unique_suppliers_list_dedup. apply Forall_forall.
  intros x Hin.
  unfold Merge.dedup_first in Hin. apply dedup_from_elem in Hin as [Hin _].
  rewrite list_elem_of_In, filter_In in Hin. destruct Hin as [_ Hn].
  by apply truthy_true.
Qed.

End WorkflowClaims.

Section WorkflowClaims2.
Import Workflow StageCSpec.

Lemma Forall_of_map {A B} (f : A -> B) (P : B -> Prop) l :
  Forall P (map f l) <-> Forall (fun x => P (f x)) l.
Proof. apply Forall_fmap. Qed.

Lemma stage_c_status_follows_table_witness :
  exists r,
    (scrape_nsn Samples.config "5306003733291" 0 0 Samples.low_world).2 = Returns r
    /\ firecrawl_status (workflow r)
       = derived_status Samples.config Samples.low_world 0
           (stage_c_input Samples.config 0 Samples.low_world).
Proof.
  eexists. split; [vm_compute; reflexivity|].
  apply (stage_c_status_follows_table Samples.config "5306003733291" 0 0
           Samples.low_world).
  vm_compute. reflexivity.
Defined.

(** C1 as stated fails: when every attempt yields a contact, but of low
    confidence, all attempts are successes in the claim's sense, none
    failed and none timed out, so the table gives success; the run
    reports error. *)
Lemma low_confidence_contacts_report_error :
  exists r,
    (scrape_nsn Samples.config "5306003733291" 0 0 Samples.low_world).2 = Returns r
    /\ firecrawl_status (workflow r) = Error
    /\ Forall (fun s => contact s <> None) (suppliers r)
    /\ claimed_status Samples.config Samples.low_world 0
         (stage_c_input Samples.config 0 Samples.low_world) = Success.
Proof.
  eexists. split; [vm_compute; reflexivity|].
  split; [reflexivity|]. split; [|vm_compute; reflexivity].
  repeat constructor; discriminate.
Qed.

(** C10. Every supplier of the merged list has a non-empty company name;
    an entity without a name leaves the loop state, its [seen] set
    included, as it was; and the suppliers of every returned result have
    non-empty names. *)
Theorem merged_suppliers_have_names :
  (forall d w,
     Forall (fun s => companyName s <> EmptyString)
       (Merge.get_unique_suppliers_list d w))
  /\ (forall st cage_code part_number,
        Merge.add_supplier st EmptyString cage_code part_number = st)
  /\ (forall config nsn ms ts w,
        match (scrape_nsn config nsn ms ts w).2 with
        | Returns r =>
            Forall (fun s => company_name s <> EmptyString) (suppliers r)
        | Raises _ => True
        end).
Proof.
  split; [apply merged_named|]. split.
  - intros st c p. unfold Merge.add_supplier.
    by rewrite andb_false_r.
  - intros config nsn ms ts w.
    destruct (stage_a config w) as [evs [[dr wr]|e]] eqn:Ha.
    + destruct (scrape_nsn_returns config nsn ms ts w evs dr wr Ha)
        as [->|(_ & _ & _ & ->)]; [|done].
      cbn [snd suppliers].
      apply (Forall_of_map company_name (fun n => n <> EmptyString)).
      rewrite stage_c_rows_names.
      apply (Forall_of_map companyName (fun n => n <> EmptyString)).
      apply cap_suppliers_Forall, merged_named.
    + by rewrite (scrape_nsn_raises _ _ _ _ _ _ _ Ha).
Qed.

End WorkflowClaims2.

Section DeadlineClaims.
Import Workflow StageCSpec.
Variable config : Config.

Lemma stage_c_configured w ts l :
  l <> [] -> is_firecrawl_configured config = true ->
  let ds := imap (fun i => _discover_one w (deadline_of w ts) (0 + i)) l in
  stage_c_granted config w ts l
  = (map row ds, existsb hit_deadline ds,
     status_of (existsb hit_deadline ds) (success_count (map row ds)) (length l)).
Proof.
  intros Hl Hc ds. unfold stage_c_granted. rewrite Hc.
  rewrite (discoveries_eq config w ts l Hl Hc). by destruct l.
Qed.

Lemma deadline_skipped_below_margin w ts i :
  0 < ts ->
  (t_deadline_base w + inject_Z ts - t_check w i < 5)%Q ->
  deadline_skipped w ts i = true.
Proof.
  intros Hts Hrem. unfold deadline_skipped, deadline_of.
  assert ((0 <? ts) = true) as -> by (apply Z.ltb_lt; lia).
  cbn [past_margin]. apply Qle_bool_iff. by apply Qlt_le_weak.
Qed.

(** The row Stage C returns for an entity that was deadline-skipped or
    whose enrichment call raised: the entity, without a contact. *)
Lemma stage_c_row_without_contact w ts l i s :
  l !! i = Some s ->
  deadline_skipped w ts i = true
  \/ (exists e, find_supplier_contact w i = Failed e)
  \/ is_firecrawl_configured config = false ->
  (stage_c_granted config w ts l).1.1 !! i = Some (with_contact s None).
Proof.
  intros Hi Hwhy.
  assert (l <> []) as Hl by (intros ->; by rewrite lookup_nil in Hi).
  destruct (is_firecrawl_configured config) eqn:Hc.
  - rewrite (stage_c_configured w ts l Hl Hc). cbn [fst].
    rewrite list_lookup_fmap, list_lookup_imap, Hi. cbn. f_equal.
    destruct (deadline_skipped w ts i) eqn:Hs.
    + by rewrite (discover_skipped w ts i s Hs).
    + destruct Hwhy as [?|[[e He]|?]]; [done| |done].
      by rewrite (discover_failed w ts i s e Hs He).
  - unfold stage_c_granted. rewrite Hc. destruct l; [done|]. cbn [fst].
    by rewrite list_lookup_fmap, Hi.
Qed.

(** X28. What the deadline check does do. In a run with a positive
    deadline and a positive [FIRECRAWL_CONCURRENCY] whose Stage A
    returned, a task that finds less than 5 seconds left at its check
    (the deadline running from the start of Stage C) does not call the
    enrichment service and returns its entity without a contact; the run
    sets its [timed_out] flag and returns a result whose Stage-C status
    is partial_timeout. *)
Theorem late_task_is_skipped nsn ms ts w evs dr wr i s :
  0 < FIRECRAWL_CONCURRENCY config ->
  0 < ts ->
  is_firecrawl_configured config = true ->
  stage_a config w = (evs, Returns (dr, wr)) ->
  cap_suppliers ms (merged_suppliers dr wr) !! i = Some s ->
  (t_deadline_base w + inject_Z ts - t_check w i < 5)%Q ->
  exists fp r,
    scrape_nsn_call config nsn ms ts w = Some (fp, Returns r)
    /\ (i ∉ enrichment_calls fp)
    /\ suppliers r !! i = Some (with_contact s None)
    /\ timed_out fp = true
    /\ firecrawl_status (workflow r) = PartialTimeout.
Proof.
  intros Hsem Hts Hc Ha Hi Hrem.
  rewrite (scrape_nsn_call_positive config nsn ms ts w Hsem).
  pose proof (deadline_skipped_below_margin w ts i Hts Hrem) as Hs.
  set (l := cap_suppliers ms (merged_suppliers dr wr)) in *.
  assert (l <> []) as Hl by (intros E; by rewrite E, lookup_nil in Hi).
  assert (existsb hit_deadline
            (imap (fun i => _discover_one w (deadline_of w ts) (0 + i)) l) = true)
    as Hhit.
  { rewrite discoveries_hit. apply Nat.ltb_lt.
    assert (In i (List.filter (deadline_skipped w ts) (seq 0 (length l)))) as Hin.
    { apply filter_In. split; [|done]. apply in_seq.
      apply lookup_lt_Some in Hi. lia. }
    destruct (List.filter _ _); [done|cbn; lia]. }
  rewrite (scrape_nsn_granted config nsn ms ts w evs dr wr Ha)
    by (apply stage_c_returns; left; lia).
  fold l.
  do 2 eexists. split; [reflexivity|].
  cbn [enrichment_calls suppliers timed_out workflow firecrawl_status].
  split; [|split; [|split]].
  - rewrite (discoveries_eq config w ts l Hl Hc), discoveries_called.
    rewrite list_elem_of_In, filter_In, Hs. intros [_ ?]. done.
  - apply stage_c_row_without_contact; auto.
  - by rewrite (stage_c_configured w ts l Hl Hc).
  - rewrite (stage_c_configured w ts l Hl Hc). cbn [snd]. by rewrite Hhit.
Qed.


End DeadlineClaims.

Section DeadlineExamples.
Import Workflow StageCSpec.

(** C3. The deadline does not bound the call. With a deadline of 10
    seconds, two suppliers and three enrichment permits, both tasks pass
    their check with the full 10 seconds left; the calls they start are
    not interrupted, no entity is skipped, [timed_out] stays unset, and
    the run returns a minute after it began. *)
Lemma started_enrichment_outlives_the_deadline :
  exists fp r q,
    scrape_nsn Samples.config "5306003733291" 0 10 Samples.slow_world
    = (fp, Returns r)
    /\ timed_out fp = false
    /\ enrichment_calls fp = [0; 1]%nat
    /\ finished_in fp = Some q
    /\ (inject_Z 10 < q)%Q.
Proof.
  do 3 eexists. split; [vm_compute; reflexivity|].
  repeat split; vm_compute; reflexivity.
Qed.

Lemma late_task_is_skipped_witness :
  exists fp r,
    scrape_nsn_call Samples.config "5306003733291" 0 3 Samples.low_world
    = Some (fp, Returns r)
    /\ (0%nat ∉ enrichment_calls fp)
    /\ suppliers r !! 0%nat
       = Some (with_contact (mkSupplier "Acme" "3DEF4" "P-2") None)
    /\ timed_out fp = true
    /\ firecrawl_status (workflow r) = PartialTimeout.
Proof.
  apply (late_task_is_skipped Samples.config "5306003733291" 0 3
           Samples.low_world [] MergeSpec.sample_dibbs MergeSpec.sample_wbparts
           0%nat (mkSupplier "Acme" "3DEF4" "P-2")).
  - vm_compute. reflexivity.
  - lia.
  - vm_compute. reflexivity.
  - vm_compute. reflexivity.
  - vm_compute. reflexivity.
  - vm_compute. reflexivity.
Defined.


(** Where the enrichment semaphore shows: a negative
    [FIRECRAWL_CONCURRENCY] makes a run with suppliers raise the
    constructor's [ValueError] before any task runs, and the value 0
    makes it stall; a positive value never does. *)
Example negative_concurrency_raises :
  exists fp,
    scrape_nsn Samples.negative_config "5306003733291" 0 0 Samples.low_world
    = (fp, Raises (ValueError "Semaphore initial value must be >= 0"))
    /\ enrichment_calls fp = [].
Proof. eexists. split; [vm_compute; reflexivity|reflexivity]. Qed.

Example zero_concurrency_stalls :
  stalls Samples.zero_config 0 0 Samples.low_world = true
  /\ scrape_nsn_call Samples.zero_config "5306003733291" 0 0 Samples.low_world
     = None.
Proof. split; vm_compute; reflexivity. Qed.

End DeadlineExamples.

(** ** The browser pool *)

Ltac pool_cases :=
  repeat match goal with
  | H : context [match ?x with _ => _ end] |- _ => destruct x eqn:?; try discriminate
  | H : Some _ = Some _ |- _ => injection H as <-
  | H : Returns _ = Returns _ |- _ => injection H as <-
  end.

Section PoolFacts.
Import Pool PoolSpec.
Variable config : Config.

Lemma accounted_new_pool : accounted config new_pool.
Proof.
  unfold accounted, new_pool, holders. cbn.
  split; [constructor|]. split; [lia|]. by right.
Qed.

Lemma in_flight_zero p :
  in_flight p = 0%nat -> blocked p = 0%nat /\ holders p = 0%nat.
Proof. unfold in_flight, holders. lia. Qed.

Lemma retired_idle p i v b :
  Forall (fun r : Z * nat => r.2 = 0%nat) (retired p) ->
  retired p !! i = Some (v, S b) -> False.
Proof.
  intros Hall Hi. rewrite Forall_forall in Hall.
  apply list_elem_of_lookup_2, Hall in Hi. cbn in Hi. lia.
Qed.

(** A step keeps the accounting, provided a [start()] that takes effect
    finds nothing in flight. *)
Lemma step_accounted p e p' :
  accounted config p ->
  step config p e = Some p' ->
  (e = Start true -> _started p = true \/ in_flight p = 0%nat) ->
  accounted config p'.
Proof.
  intros Hacc Hstep Hstart. pose proof Hacc as (Hret & Hsem & Hsum).
  destruct e as [launched| | | | | |i|i|o|ctx_live how c| |i|ctx_live how];
    cbn [step] in Hstep.
  - injection Hstep as <-. unfold start.
    destruct (_started p) eqn:Hs; [done|].
    destruct launched; cbn [negb]; [|done].
    destruct (MAX_BROWSER_PAGES config <? 0) eqn:Hmax.
    + unfold accounted, holders in *. cbn.
      split; [done|]. split; [done|].
      destruct Hsum as [?|(_ & ? & ? & ?)]; [by left|by right].
    + apply Z.ltb_ge in Hmax.
      destruct (Hstart eq_refl) as [?|[Hb Hh]%in_flight_zero]; [congruence|].
      unfold accounted, holders in *. cbn.
      split; [constructor; [done|done]|]. split; [done|]. left. lia.
  - injection Hstep as <-. unfold stop.
    destruct (_started p) eqn:Hs; [|done].
    unfold accounted, holders in *. cbn.
    split; [done|]. split; [done|]. left.
    destruct Hsum as [?|[? _]]; [lia|done].
  - unfold crash in Hstep. pool_cases.
    unfold accounted, holders in *. cbn.
    split; [done|]. split; [done|].
    destruct Hsum as [?|(? & ? & ? & ?)];
      [left; lia|right; repeat split; [done|done|lia|done]].
  - unfold request in Hstep. pool_cases.
    unfold accounted, holders in *. cbn.
    split; [done|]. split; [done|].
    destruct Hsum as [?|[? _]]; [by left|congruence].
  - unfold grant in Hstep. pool_cases.
    match goal with H : (0 <? _) = true |- _ => apply Z.ltb_lt in H end.
    unfold accounted, holders in *. cbn.
    split; [done|]. split; [lia|].
    destruct Hsum as [?|(_ & ? & _)]; [left; lia|congruence].
  - unfold timeout_ in Hstep. pool_cases.
    unfold accounted, holders in *. cbn.
    split; [done|]. split; [done|].
    destruct Hsum as [?|(_ & ? & _)]; [by left|congruence].
  - unfold retired_grant in Hstep. pool_cases.
    exfalso. eapply retired_idle; eauto.
  - unfold retired_timeout in Hstep. pool_cases.
    exfalso. eapply retired_idle; eauto.
  - unfold open_context in Hstep. pool_cases;
      unfold accounted, holders, release in *; cbn;
      (split; [done|]); (split; [lia|]);
      (destruct Hsum as [?|(_ & _ & ? & _)]; [left; lia|lia]).
  - unfold exit_block in Hstep. pool_cases;
      unfold accounted, holders, release in *; cbn;
      (split; [done|]); (split; [lia|]);
      (destruct Hsum as [?|(_ & _ & ? & _)]; [left; lia|lia]).
  - unfold cancel in Hstep. pool_cases.
    unfold accounted, holders in *. cbn.
    split; [done|]. split; [done|].
    destruct Hsum as [?|(_ & ? & _)]; [by left|congruence].
  - unfold retired_cancel in Hstep. pool_cases.
    exfalso. eapply retired_idle; eauto.
  - unfold close_cancelled in Hstep. pool_cases;
      unfold accounted, holders in *; cbn;
      (split; [done|]); (split; [lia|]);
      (destruct Hsum as [?|(_ & _ & ? & _)]; [left; lia|lia]).
Qed.

Lemma run_accounted tr : forall p p',
  accounted config p ->
  run config p tr = Some p' ->
  settled config p tr = true ->
  accounted config p'.
Proof.
  induction tr as [|e tr IH]; intros p p' Hacc Hrun Hset; cbn in Hrun.
  - by injection Hrun as <-.
  - destruct (step config p e) as [p1|] eqn:Hstep; [|done].
    cbn [settled] in Hset. rewrite Hstep in Hset.
    apply andb_true_iff in Hset as [Hnow Hrest].
    apply (IH p1); [|done|done].
    apply (step_accounted p e); [done|done|].
    intros ->. apply orb_true_iff in Hnow as [?|Hz]; [by left|right].
    by apply Nat.eqb_eq.
Qed.

Lemma accounted_live_bound p :
  accounted config p ->
  Z.of_nat (live p) + Z.of_nat (lost p) <= Z.max 0 (MAX_BROWSER_PAGES config).
Proof.
  unfold accounted, holders. intros (_ & Hsem & [?|(_ & _ & ? & ?)]); lia.
Qed.

(** The permits lost since the pool was created are no more than the
    exits cancelled inside [ctx.close()]. *)
Lemma step_lost p e p' :
  step config p e = Some p' ->
  (lost p' <= lost p + cancelled_closes [e])%nat.
Proof.
  intros Hstep.
  destruct e as [launched| | | | | |i|i|o|ctx_live how c| |i|ctx_live how];
    cbn [step] in Hstep; unfold cancelled_closes; cbn [List.filter length].
  - injection Hstep as <-. unfold start.
    destruct (_started p); [lia|]. destruct launched; cbn [negb]; [|lia].
    destruct (MAX_BROWSER_PAGES config <? 0); cbn; lia.
  - injection Hstep as <-. unfold stop. destruct (_started p); cbn; lia.
  - unfold crash in Hstep. pool_cases. cbn. lia.
  - unfold request in Hstep. pool_cases. cbn. lia.
  - unfold grant in Hstep. pool_cases. cbn. lia.
  - unfold timeout_ in Hstep. pool_cases. cbn. lia.
  - unfold retired_grant in Hstep. pool_cases. cbn. lia.
  - unfold retired_timeout in Hstep. pool_cases. cbn. lia.
  - unfold open_context in Hstep. pool_cases; unfold release; cbn; lia.
  - unfold exit_block in Hstep. pool_cases; unfold release; cbn; lia.
  - unfold cancel in Hstep. pool_cases. cbn. lia.
  - unfold retired_cancel in Hstep. pool_cases. cbn. lia.
  - unfold close_cancelled in Hstep. pool_cases; cbn; lia.
Qed.

Lemma run_lost tr : forall p p',
  run config p tr = Some p' ->
  (lost p' <= lost p + cancelled_closes tr)%nat.
Proof.
  induction tr as [|e tr IH]; intros p p' Hrun; cbn in Hrun.
  - injection Hrun as <-. lia.
  - destruct (step config p e) as [p1|] eqn:Hstep; [|done].
    pose proof (step_lost p e p1 Hstep) as H1.
    pose proof (IH p1 p' Hrun) as H2.
    unfold cancelled_closes in *. cbn [List.filter] in *.
    destruct e; cbn [length] in *; lia.
Qed.

End PoolFacts.

Section PoolClaims.
Import Pool PoolSpec.

(** The exit of a block gives one permit back and ends one holding,
    however the block ends, when [close()] returns or raises an
    [Exception]. *)
Lemma exit_releases config q ctx_live how c q' :
  step config q (Exit ctx_live how c) = Some q' ->
  _semaphore q' = _semaphore q + 1 /\ S (holders q') = holders q.
Proof.
  cbn [step]. unfold exit_block. intros H. pool_cases;
    unfold holders, release; cbn; split; lia.
Qed.

(** A whole call, run without interleaving, leaves the semaphore and the
    number of holders as it found them. *)
Lemma lease_events_balanced config started l how q q' :
  run config q (lease_events started l how) = Some q' ->
  _semaphore q' = _semaphore q /\ holders q' = holders q
  /\ blocked q' = blocked q /\ _waiting q' = _waiting q.
Proof.
  unfold lease_events.
  destruct started; [|by intros [= <-]].
  destruct (wait l); [destruct (opened l)|]; cbn [run step]; intros H;
    unfold request, grant, timeout_, open_context, exit_block, release in H;
    pool_cases; unfold holders; cbn in *; repeat split; lia.
Qed.

(** C2, as the code has it. From a new pool, along every trace
    (cancellations included) in which [start()] takes effect only while
    no [get_context] call is in flight, the contexts open inside a block,
    together with those left behind by a close that was cancelled, never
    exceed [MAX_BROWSER_PAGES] (with a negative value the pool does not
    start and no context is leased); the exit of a block releases a
    permit and ends the holding for every way the block can end (normal,
    exception, cancellation) when [close()] returns or raises an
    [Exception]; and such a call leaves the semaphore and the number of
    holders as it found them. *)
Theorem live_contexts_bounded config tr p :
  run config new_pool tr = Some p ->
  settled config new_pool tr = true ->
  Z.of_nat (live p) + Z.of_nat (lost p) <= Z.max 0 (MAX_BROWSER_PAGES config)
  /\ (forall q ctx_live how c q',
        step config q (Exit ctx_live how c) = Some q' ->
        _semaphore q' = _semaphore q + 1 /\ S (holders q') = holders q)
  /\ (forall started l how q q',
        run config q (lease_events started l how) = Some q' ->
        _semaphore q' = _semaphore q /\ holders q' = holders q
        /\ blocked q' = blocked q /\ _waiting q' = _waiting q).
Proof.
  intros Hrun Hset. split; [|split].
  - apply accounted_live_bound.
    apply (run_accounted config tr new_pool p); [|done|done].
    apply accounted_new_pool.
  - apply exit_releases.
  - apply lease_events_balanced.
Qed.

Lemma live_contexts_bounded_witness :
  exists p,
    run Samples.config new_pool
      ([Start true]
       ++ lease_events true Samples.a_lease ExitCancelled
       ++ [Request; Cancel]
       ++ lease_with_cancelled_close
       ++ lease_events true Samples.a_lease ExitException) = Some p
    /\ Z.of_nat (live p) + Z.of_nat (lost p) <= 4
    /\ _semaphore p = 3.
Proof.
  eexists. split; [vm_compute; reflexivity|]. split; [|reflexivity].
  apply (live_contexts_bounded Samples.config
           ([Start true]
            ++ lease_events true Samples.a_lease ExitCancelled
            ++ [Request; Cancel]
            ++ lease_with_cancelled_close
            ++ lease_events true Samples.a_lease ExitException)).
  - vm_compute. reflexivity.
  - vm_compute. reflexivity.
Defined.

(** C2 as stated fails: after a [stop()] and a [start()] with a lease
    out, the lease's release goes to the new semaphore, which then admits
    five live contexts with [MAX_BROWSER_PAGES = 4]. *)
Lemma restart_admits_a_fifth_context :
  exists p,
    run Samples.config new_pool restart_trace = Some p
    /\ MAX_BROWSER_PAGES Samples.config = 4
    /\ live p = 5%nat.
Proof. eexists. split; [vm_compute; reflexivity|]. split; reflexivity. Qed.

(** C7. A call blocked in [get_context] with timeout [t] leaves the wait
    within [t]: with the permit, when one reaches it within [t], and
    otherwise at [t] with the pool-busy error that carries
    [MAX_BROWSER_PAGES] and the decremented waiting counter. The error is
    raised in no other case, and [self._waiting] is restored either
    way. *)
Theorem lease_ends_within_timeout config timeout slot_after p :
  blocked p <> 0%nat ->
  (forall d, slot_after = Some d ->
             (d <= resolve_timeout config timeout)%Q -> 0 < _semaphore p) ->
  exists p' r elapsed,
    acquire config timeout slot_after p = (Some (p', r), elapsed)
    /\ (elapsed <= resolve_timeout config timeout)%Q
    /\ _waiting p' = _waiting p - 1
    /\ ((exists d, slot_after = Some d
                   /\ (d <= resolve_timeout config timeout)%Q
                   /\ elapsed = d /\ r = Returns ()
                   /\ _semaphore p' = _semaphore p - 1)
        \/ ((forall d, slot_after = Some d ->
                       ~ (d <= resolve_timeout config timeout)%Q)
            /\ elapsed = resolve_timeout config timeout
            /\ r = Raises (RuntimeError
                     (PoolBusy (resolve_timeout config timeout)
                        (MAX_BROWSER_PAGES config) (_waiting p - 1)))
            /\ _semaphore p' = _semaphore p)).
Proof.
  intros Hb Hslot. unfold acquire, wait_for_acquire.
  set (t := resolve_timeout config timeout) in *.
  destruct (blocked p) as [|b] eqn:Hbl; [done|].
  destruct slot_after as [d|].
  - destruct (Qle_bool d t) eqn:Hd.
    + apply Qle_bool_iff in Hd.
      pose proof (Hslot d eq_refl Hd) as Hsem.
      unfold grant. rewrite Hbl.
      assert ((0 <? _semaphore p) = true) as -> by (apply Z.ltb_lt; lia).
      do 3 eexists. split; [reflexivity|]. split; [done|]. split; [done|].
      left. exists d. auto.
    + assert (~ (d <= t)%Q) as Hn
        by (intros H%Qle_bool_iff; congruence).
      unfold timeout_. rewrite Hbl.
      do 3 eexists. split; [reflexivity|]. split; [apply Qle_refl|].
      split; [done|]. right. split; [by intros ? [= <-]|]. auto.
  - unfold timeout_. rewrite Hbl.
    do 3 eexists. split; [reflexivity|]. split; [apply Qle_refl|].
    split; [done|]. right. split; [by intros ? [=]|]. auto.
Qed.

Lemma lease_ends_within_timeout_witness :
  exists p' elapsed,
    acquire Samples.config (Some 30%Q) None (saturated Samples.config)
    = (Some (p', Raises (RuntimeError (PoolBusy 30 4 0))), elapsed)
    /\ (elapsed <= 30)%Q.
Proof.
  destruct (lease_ends_within_timeout Samples.config (Some 30%Q) None
              (saturated Samples.config))
    as (p' & r & elapsed & Hrun & Hle & _ & [(d & Hd & _)|(_ & _ & Hr & _)]).
  - vm_compute. discriminate.
  - intros d Hd. discriminate Hd.
  - discriminate Hd.
  - exists p', elapsed. rewrite Hrun, Hr. split; [reflexivity|exact Hle].
Defined.

End PoolClaims.

(** ** Batches *)

Section BatchFacts.
Import Workflow Batch BatchSpec.
Variable config : Config.
Variable items : nat -> ItemWorld.
Variable total : nat.

Lemma iteration_results st idx nsn :
  results (iteration config total items st idx nsn).1
  = results st.1 ++ [entry_of config items idx nsn].
Proof.
  unfold iteration, entry_of. destruct st as [br log].
  destruct (negb (Helpers.validate_nsn nsn)); [done|].
  by destruct (process_item _ _ _) as [[[fp entry] ok] ko].
Qed.

Lemma iteration_counters st idx nsn :
  processed (iteration config total items st idx nsn).1 = processed st.1 + 1
  /\ successful (iteration config total items st idx nsn).1
     = successful st.1 + ok_of config items idx nsn
  /\ failed (iteration config total items st idx nsn).1
     = failed st.1 + ko_of config items idx nsn.
Proof.
  unfold iteration, ok_of, ko_of. destruct st as [br log].
  destruct (negb (Helpers.validate_nsn nsn)); cbn; [lia|].
  by destruct (process_item _ _ _) as [[[fp entry] ok] ko].
Qed.

(** The loop appends one entry per item, each determined by its own
    item alone, and never stops early. *)
Lemma loop_results nsns : forall st idx,
  results (loop config total items st idx nsns).1
  = results st.1 ++ imap (fun i => entry_of config items (idx + i)) nsns.
Proof.
  induction nsns as [|nsn nsns IH]; intros st idx; cbn [loop].
  - by rewrite app_nil_r.
  - rewrite IH, iteration_results, imap_cons, imap_shift, Nat.add_0_r.
    by rewrite <- app_assoc.
Qed.

Lemma loop_counters nsns : forall st idx,
  processed (loop config total items st idx nsns).1
  = processed st.1 + Z.of_nat (length nsns)
  /\ successful (loop config total items st idx nsns).1
     = successful st.1 + total_of (imap (fun i => ok_of config items (idx + i)) nsns)
  /\ failed (loop config total items st idx nsns).1
     = failed st.1 + total_of (imap (fun i => ko_of config items (idx + i)) nsns).
Proof.
  induction nsns as [|nsn nsns IH]; intros st idx; cbn [loop].
  - cbn. lia.
  - destruct (IH (iteration config total items st idx nsn) (S idx)) as (Hp & Hs & Hf).
    destruct (iteration_counters st idx nsn) as (Hp1 & Hs1 & Hf1).
    rewrite Hp, Hs, Hf, Hp1, Hs1, Hf1, !imap_cons, !imap_shift, !Nat.add_0_r.
    cbn [total_of foldr length]. fold (total_of). unfold total_of. lia.
Qed.

Lemma iteration_runs st idx nsn k :
  k ∈ workflow_runs (iteration config total items st idx nsn).2 ->
  k ∈ workflow_runs st.2 \/ (k = idx /\ Helpers.validate_nsn nsn = true).
Proof.
  unfold iteration. destruct st as [br log].
  destruct (Helpers.validate_nsn nsn); cbn [negb].
  - destruct (process_item _ _ _) as [[[fp entry] ok] ko]. cbn [snd].
    unfold workflow_runs. rewrite !omap_app. cbn [omap].
    destruct (idx <? total)%nat; cbn;
      rewrite !elem_of_app, ?elem_of_cons, ?elem_of_nil; intuition.
  - cbn [snd]. unfold workflow_runs. rewrite omap_app. cbn.
    rewrite elem_of_app, elem_of_nil. intuition.
Qed.

Lemma loop_runs nsns : forall st idx k,
  k ∈ workflow_runs (loop config total items st idx nsns).2 ->
  k ∈ workflow_runs st.2
  \/ exists i nsn, nsns !! i = Some nsn /\ k = (idx + i)%nat
                   /\ Helpers.validate_nsn nsn = true.
Proof.
  induction nsns as [|nsn nsns IH]; intros st idx k; cbn [loop]; [by left|].
  intros [Hk|(i & n & Hi & -> & Hv)]%IH.
  - apply iteration_runs in Hk as [?|[-> Hv]]; [by left|right].
    exists 0%nat, nsn. rewrite Nat.add_0_r. done.
  - right. exists (S i), n. repeat split; [done|lia|done].
Qed.

Lemma pool_events_of_unrun k log :
  k ∉ workflow_runs log -> pool_events_of k log = [].
Proof.
  unfold workflow_runs, pool_events_of.
  induction log as [|e log IH]; [done|]. cbn.
  destruct e as [idx|idx entry|idx fp|ms]; cbn; try apply IH.
  rewrite elem_of_cons. intros Hk.
  destruct (idx =? k)%nat eqn:E.
  - apply Nat.eqb_eq in E. subst. tauto.
  - cbn. apply IH. tauto.
Qed.

End BatchFacts.

Section BatchClaims.
Import Workflow Batch BatchSpec.
Variable config : Config.

Lemma scrape_batch_fields started completed items nsns :
  let run := scrape_batch config started completed items nsns in
  let l := loop config (length nsns) items
             (mkBatchProcessingResult (Z.of_nat (length nsns)) 0 0 0 [] started None, [])
             1%nat nsns in
  results run.1 = results l.1 /\ processed run.1 = processed l.1
  /\ successful run.1 = successful l.1 /\ failed run.1 = failed l.1
  /\ run.2 = l.2.
Proof. cbv zeta. unfold scrape_batch. by destruct (loop _ _ _ _ _ _) as [br log]. Qed.

Lemma scrape_batch_results started completed items nsns :
  results (scrape_batch config started completed items nsns).1
  = imap (fun i => entry_of config items (S i)) nsns.
Proof.
  destruct (scrape_batch_fields started completed items nsns) as (-> & _).
  by rewrite loop_results.
Qed.




End BatchClaims.

Section BatchExamples.
Import Workflow Batch BatchSpec.


(** The success counter is incremented before the result is saved: an
    item whose workflow returns and whose [save_result] raises is recorded
    as an error and counted both as successful and as failed. *)
Example failed_save_is_counted_twice :
  let items := fun idx : nat =>
    mkItemWorld Samples.pooled_world
      (if (idx =? 1)%nat then Some (OtherError "disk full") else None)
      "2026-01-01T00:00:01Z" in
  let br := (scrape_batch Samples.config "2026-01-01T00:00:00Z"
               "2026-01-01T00:00:09Z" items ["5306003733291"]).1 in
  map status (results br) = [ItemError]
  /\ processed br = 1 /\ successful br = 1 /\ failed br = 1.
Proof. vm_compute. repeat split. Qed.

End BatchExamples.

Section ValidationClaims.
Import Workflow BatchSpec.
Variable config : Config.

Lemma limited_scrape_events maxSuppliers worlds i nsn :
  (Api._limited_scrape config maxSuppliers worlds i nsn).1
  = [Api.SlotAcquired i;
     Api.WorkflowRun i (scrape_nsn config nsn maxSuppliers 180 (worlds i)).1;
     Api.SlotReleased i].
Proof.
  unfold Api._limited_scrape, Api._scrape_one.
  by destruct (scrape_nsn _ _ _ _ _) as [fp [r|e]].
Qed.

(** C8, as the code has it. In a paced-sequential batch an item with an
    invalid identifier gets an error entry at once: its workflow is not
    run and it contributes no pool event. The bounded-concurrent endpoint
    does not validate: every item of an accepted batch takes a
    concurrency slot and runs its workflow, whatever its identifier. *)
Theorem sequential_batch_validates_first started completed items nsns i nsn :
  nsns !! i = Some nsn ->
  Helpers.validate_nsn nsn = false ->
  (let run := Batch.scrape_batch config started completed items nsns in
   Batch.results run.1 !! i
   = Some (Batch.mkBatchNSNResult nsn Batch.ItemError None
             (Some ("Invalid NSN format: " +:+ nsn))
             (Some (Batch.stamp (items (S i)))))
   /\ (S i ∉ Batch.workflow_runs run.2)
   /\ Batch.pool_events_of (S i) run.2 = [])
  /\ (forall maxSuppliers worlds,
        (length nsns <= 50)%nat ->
        let run := Api.scrape_nsns_suppliers_batch_endpoint config nsns
                     maxSuppliers worlds true in
        Api.SlotAcquired i ∈ run.1
        /\ Api.WorkflowRun i (scrape_nsn config nsn maxSuppliers 180 (worlds i)).1
           ∈ run.1).
Proof.
  intros Hi Hv. split.
  - cbv zeta.
    assert (S i ∉ Batch.workflow_runs
              (Batch.scrape_batch config started completed items nsns).2) as Hrun.
    { destruct (scrape_batch_fields config started completed items nsns)
        as (_ & _ & _ & _ & ->).
      intros [Hk|(j & n & Hj & Hij & Hvj)]%loop_runs.
      - cbn in Hk. by apply elem_of_nil in Hk.
      - assert (j = i) as -> by lia. congruence. }
    split; [|split; [done|by apply pool_events_of_unrun]].
    rewrite scrape_batch_results, list_lookup_imap, Hi. cbn.
    unfold entry_of. by rewrite Hv.
  - intros maxSuppliers worlds Hlen. cbv zeta.
    unfold Api.scrape_nsns_suppliers_batch_endpoint.
    destruct nsns as [|n0 rest] eqn:E; [by rewrite lookup_nil in Hi|].
    rewrite <- E in *.
    assert ((50 <? length nsns)%nat = false) as -> by (apply Nat.ltb_ge; lia).
    cbn [fst].
    assert (Api._limited_scrape config maxSuppliers worlds i nsn
            ∈ imap (Api._limited_scrape config maxSuppliers worlds) nsns) as Hin.
    { apply list_elem_of_lookup. exists i. by rewrite list_lookup_imap, Hi. }
    split; apply list_elem_of_bind; eexists; (split; [|exact Hin]);
      rewrite limited_scrape_events, !elem_of_cons; auto.
Qed.

End ValidationClaims.

Section ValidationExamples.
Import Workflow BatchSpec.

Lemma sequential_batch_validates_first_witness :
  let run := Batch.scrape_batch Samples.config "2026-01-01T00:00:00Z"
               "2026-01-01T00:00:09Z" third_raises with_invalid in
  Batch.results run.1 !! 1%nat
  = Some (Batch.mkBatchNSNResult "not-an-nsn" Batch.ItemError None
            (Some "Invalid NSN format: not-an-nsn")
            (Some "2026-01-01T00:00:01Z"))
  /\ (2%nat ∉ Batch.workflow_runs run.2)
  /\ Batch.pool_events_of 2 run.2 = [].
Proof.
  destruct (sequential_batch_validates_first Samples.config
              "2026-01-01T00:00:00Z" "2026-01-01T00:00:09Z" third_raises
              with_invalid 1%nat "not-an-nsn" eq_refl eq_refl) as [Hseq _].
  exact Hseq.
Defined.

(** C8 as stated fails for the bounded-concurrent strategy: an item whose
    identifier is not an NSN takes a concurrency slot, runs the workflow
    under a pool lease and, both sources finding nothing, is reported with
    status success. *)
Lemma concurrent_batch_runs_invalid_items :
  Helpers.validate_nsn "not-an-nsn" = false
  /\ exists fp body,
       Api.scrape_nsns_suppliers_batch_endpoint Samples.config ["not-an-nsn"] 5
         (fun _ => Samples.unknown_item_world) true
       = ([Api.SlotAcquired 0; Api.WorkflowRun 0 fp; Api.SlotReleased 0],
          Api.Ok body)
       /\ pool_events fp
          = [Pool.Request; Pool.Grant; Pool.Open Pool.Opened;
             Pool.Exit true Pool.ExitNormal Pool.Closed]
       /\ map Api.r_status (Api.results body) = ["success"]
       /\ Api.failed body = 0.
Proof.
  split; [reflexivity|]. do 2 eexists.
  split; [vm_compute; reflexivity|]. repeat split.
Qed.

End ValidationExamples.

(** * Further properties of the code *)

(** ** NSN helpers *)

Section HelperFacts.
Import Helpers HelpersSpec.

Lemma remove_dashes_dashless s : dashless (remove_dashes s) = true.
Proof.
  induction s as [|c s IH]; [done|]. cbn [remove_dashes].
  destruct (Ascii.eqb c "-"%char) eqn:E; [done|].
  cbn [dashless]. by rewrite E, IH.
Qed.

Lemma remove_dashes_id s : dashless s = true -> remove_dashes s = s.
Proof.
  induction s as [|c s IH]; [done|]. cbn [dashless remove_dashes].
  intros [Hc Hs]%andb_true_iff. apply negb_true_iff in Hc.
  by rewrite Hc, IH.
Qed.

Lemma remove_dashes_idem s : remove_dashes (remove_dashes s) = remove_dashes s.
Proof. apply remove_dashes_id, remove_dashes_dashless. Qed.

Lemma is_digit_not_dash c : is_digit c = true -> Ascii.eqb c "-"%char = false.
Proof.
  unfold is_digit. intros [H1 H2]%andb_true_iff.
  apply Ascii.eqb_neq. intros ->. cbn in H1. discriminate.
Qed.

(** A string of thirteen characters without a dash, spelled out. *)
Lemma thirteen_chars s :
  String.length s = 13%nat ->
  exists c1 c2 c3 c4 c5 c6 c7 c8 c9 c10 c11 c12 c13,
    s = String c1 (String c2 (String c3 (String c4 (String c5 (String c6
          (String c7 (String c8 (String c9 (String c10 (String c11
          (String c12 (String c13 EmptyString)))))))))))).
Proof.
  intros H.
  do 13 (destruct s as [|? s]; [discriminate H|]; cbn [String.length] in H;
         apply Nat.succ_inj in H).
  destruct s; [|discriminate H]. by do 13 eexists.
Qed.

(** The dashed form of thirteen dash-free characters loses its dashes
    again under [remove_dashes]. *)
Lemma dashed_form_clean clean :
  String.length clean = 13%nat -> dashless clean = true ->
  let dashed := String.substring 0 4 clean +:+ "-" +:+ String.substring 4 2 clean
                +:+ "-" +:+ String.substring 6 3 clean +:+ "-"
                +:+ String.substring 9 4 clean in
  remove_dashes dashed = clean /\ String.length dashed = 16%nat.
Proof.
  intros Hlen Hd.
  destruct (thirteen_chars clean Hlen)
    as (c1&c2&c3&c4&c5&c6&c7&c8&c9&c10&c11&c12&c13&->).
  cbn [dashless] in Hd.
  repeat (apply andb_true_iff in Hd as [?%negb_true_iff Hd]).
  cbv [String.append String.substring]. cbn.
  repeat match goal with H : Ascii.eqb _ _ = false |- _ => rewrite H; clear H end.
  done.
Qed.

End HelperFacts.

Section HelperProperties.
Import Helpers HelpersSpec.

Local Arguments is_digit : simpl never.

Lemma remove_dashes_keep c s :
  Ascii.eqb c "-"%char = false ->
  remove_dashes (String c s) = String c (remove_dashes s).
Proof. intros H. cbn [remove_dashes]. by rewrite H. Qed.

Lemma remove_dashes_drop s : remove_dashes (String "-"%char s) = remove_dashes s.
Proof. reflexivity. Qed.

Lemma digits_step n c s :
  is_digit c = true -> digits (S n) (String c s) = digits n s.
Proof. intros H. cbn [digits]. by rewrite H. Qed.

Lemma digits_stop n s : digits (S n) (String "-"%char s) = None.
Proof. reflexivity. Qed.

Lemma dash_step s : dash (String "-"%char s) = Some s.
Proof. reflexivity. Qed.

Lemma dash_stop c s : is_digit c = true -> dash (String c s) = None.
Proof. intros H. unfold dash. by rewrite (is_digit_not_dash c H). Qed.

Lemma remove_dashes_nil : remove_dashes EmptyString = EmptyString.
Proof. reflexivity. Qed.

Lemma digits_O s : digits O s = Some s.
Proof. reflexivity. Qed.

Lemma digits_nil n : digits (S n) EmptyString = None.
Proof. reflexivity. Qed.

Lemma digits_newline n s : digits (S n) (String (ascii_of_nat 10) s) = None.
Proof. reflexivity. Qed.

(** Evaluation on a spelled-out identifier, one character at a time. *)
Ltac nsn_step :=
  first
  [ rewrite remove_dashes_keep by (assumption || reflexivity)
  | rewrite remove_dashes_drop
  | rewrite remove_dashes_nil
  | rewrite digits_step by assumption
  | rewrite digits_stop
  | rewrite digits_O
  | rewrite digits_nil
  | rewrite digits_newline
  | rewrite dash_step
  | rewrite dash_stop by assumption
  | rewrite append_cons_l
  | rewrite append_nil_l
  | progress cbn [String.length String.substring Nat.eqb
                  negb matches mbind option_bind orb] ].

Ltac nsn_eval :=
  unfold format_nsn_with_dashes, validate_nsn, newline; repeat nsn_step.

Lemma digits_inv n s r :
  digits (S n) s = Some r ->
  exists c s', s = String c s' /\ is_digit c = true
               /\ Ascii.eqb c "-"%char = false /\ digits n s' = Some r.
Proof.
  destruct s as [|c s']; cbn [digits]; [discriminate|].
  destruct (is_digit c) eqn:E; [|discriminate].
  intros H. exists c, s'. auto using is_digit_not_dash.
Qed.

Lemma dash_inv s r : dash s = Some r -> s = String "-"%char r.
Proof.
  unfold dash. destruct s as [|c s']; [discriminate|].
  destruct (Ascii.eqb c "-"%char) eqn:E; [|discriminate].
  apply Ascii.eqb_eq in E. subst c. by intros [= ->].
Qed.

Lemma at_end_inv r : at_end r = true -> r = EmptyString \/ r = newline.
Proof.
  unfold at_end. destruct r as [|c [|c' r']]; [by left| |discriminate].
  intros ->%Ascii.eqb_eq. by right.
Qed.

Ltac invert_digits :=
  repeat match goal with
  | H : digits (S _) _ = Some _ |- _ =>
      apply digits_inv in H as (? & ? & -> & ? & ? & H)
  | H : digits O _ = Some _ |- _ => cbn [digits] in H; injection H as ->
  | H : dash _ = Some _ |- _ => apply dash_inv in H as ->
  end.

(** The shapes of a valid identifier: thirteen digits, or digits grouped
    4-2-3-4 by dashes, then nothing or one line feed. *)
Lemma validate_nsn_shapes nsn :
  validate_nsn nsn = true ->
  exists body tail,
    nsn = body +:+ tail
    /\ (tail = EmptyString \/ tail = newline)
    /\ validate_nsn body = true
    /\ String.length (remove_dashes body) = 13%nat
    /\ remove_dashes nsn = remove_dashes body +:+ tail
    /\ validate_nsn (format_nsn_with_dashes body) = true
    /\ String.length (format_nsn_with_dashes body) = 16%nat
    /\ validate_nsn (body +:+ newline) = true
    /\ format_nsn_with_dashes (body +:+ newline) = body +:+ newline.
Proof.
  unfold validate_nsn at 1. intros [H|H]%orb_true_iff.
  - destruct (digits 4 nsn) as [s1|] eqn:H1; [|discriminate H]. cbn [mbind option_bind] in H.
    destruct (dash s1) as [s2|] eqn:H2; [|discriminate H]. cbn [mbind option_bind] in H.
    destruct (digits 2 s2) as [s3|] eqn:H3; [|discriminate H]. cbn [mbind option_bind] in H.
    destruct (dash s3) as [s4|] eqn:H4; [|discriminate H]. cbn [mbind option_bind] in H.
    destruct (digits 3 s4) as [s5|] eqn:H5; [|discriminate H]. cbn [mbind option_bind] in H.
    destruct (dash s5) as [s6|] eqn:H6; [|discriminate H]. cbn [mbind option_bind] in H.
    destruct (digits 4 s6) as [r|] eqn:H7; [|discriminate H]. cbn [mbind option_bind matches] in H.
    invert_digits. apply at_end_inv in H.
    eexists (String _ (String _ (String _ (String _ (String "-"%char
             (String _ (String _ (String "-"%char
             (String _ (String _ (String _ (String "-"%char
             (String _ (String _ (String _ (String _ EmptyString)))))))))))))))),
            r.
    split; [reflexivity|]. split; [exact H|].
    repeat split; try (destruct H as [->| ->]); nsn_eval; reflexivity.
  - destruct (digits 13 nsn) as [r|] eqn:H1; [|discriminate H]. cbn [mbind option_bind matches] in H.
    invert_digits. apply at_end_inv in H.
    eexists (String _ (String _ (String _ (String _ (String _ (String _
             (String _ (String _ (String _ (String _ (String _ (String _
             (String _ EmptyString))))))))))))), r.
    split; [reflexivity|]. split; [exact H|].
    repeat split; try (destruct H as [->| ->]); nsn_eval; reflexivity.
Qed.

End HelperProperties.

Section HelperTheorems.
Import Helpers HelpersSpec.

Lemma append_nil_r s : s +:+ EmptyString = s.
Proof. induction s as [|c s IH]; [done|]. by rewrite append_cons_l, IH. Qed.

Lemma length_append s t :
  String.length (s +:+ t) = (String.length s + String.length t)%nat.
Proof.
  induction s as [|c s IH]; [done|].
  rewrite append_cons_l. cbn [String.length]. by rewrite IH.
Qed.

Lemma format_nsn_with_dashes_short nsn :
  String.length (remove_dashes nsn) <> 13%nat ->
  format_nsn_with_dashes nsn = nsn.
Proof.
  intros H. unfold format_nsn_with_dashes.
  by apply Nat.eqb_neq in H as ->.
Qed.

(** X1. Formatting with dashes twice is formatting once, for every
    string. *)
Theorem format_nsn_with_dashes_idempotent nsn :
  format_nsn_with_dashes (format_nsn_with_dashes nsn) = format_nsn_with_dashes nsn.
Proof.
  destruct (decide (String.length (remove_dashes nsn) = 13%nat)) as [Hlen|Hlen].
  - unfold format_nsn_with_dashes at 2 3.
    apply Nat.eqb_eq in Hlen as Hb. rewrite Hb. cbn [negb].
    destruct (dashed_form_clean (remove_dashes nsn) Hlen (remove_dashes_dashless nsn))
      as [Hclean _].
    unfold format_nsn_with_dashes. rewrite Hclean, Hb. reflexivity.
  - by rewrite !(format_nsn_with_dashes_short nsn Hlen).
Qed.

(** X2. Removing the dashes after formatting with dashes gives what
    removing the dashes gives at once, and removing dashes twice is
    removing them once. *)
Theorem format_nsn_after_dashes nsn :
  format_nsn (format_nsn_with_dashes nsn) = format_nsn nsn
  /\ format_nsn (format_nsn nsn) = format_nsn nsn.
Proof.
  unfold format_nsn. split; [|apply remove_dashes_idem].
  destruct (decide (String.length (remove_dashes nsn) = 13%nat)) as [Hlen|Hlen].
  - unfold format_nsn_with_dashes.
    apply Nat.eqb_eq in Hlen as Hb. rewrite Hb. cbn [negb].
    apply (dashed_form_clean (remove_dashes nsn) Hlen (remove_dashes_dashless nsn)).
  - by rewrite (format_nsn_with_dashes_short nsn Hlen).
Qed.

(** X3. A valid identifier stays valid under formatting. Either it is
    formatted to the 16-character dashed form of its thirteen digits, or
    it is a valid identifier followed by a line feed and is returned as
    it is. *)
Theorem valid_nsn_is_formatted_or_passed_through nsn :
  validate_nsn nsn = true ->
  validate_nsn (format_nsn_with_dashes nsn) = true
  /\ ((String.length (format_nsn_with_dashes nsn) = 16%nat
       /\ String.length (format_nsn nsn) = 13%nat)
      \/ (exists body,
            nsn = body +:+ newline /\ validate_nsn body = true
            /\ format_nsn_with_dashes nsn = nsn)).
Proof.
  intros Hv.
  destruct (validate_nsn_shapes nsn Hv)
    as (body & tail & -> & [->| ->] & Hb & Hlen & _ & Hfv & Hfl & _ & Hpass).
  - rewrite append_nil_r. split; [done|]. left. by split.
  - rewrite Hpass. split; [done|]. right. by exists body.
Qed.

Lemma valid_nsn_is_formatted_or_passed_through_witness :
  validate_nsn (format_nsn_with_dashes "5306003733291") = true
  /\ format_nsn_with_dashes "5306003733291" = "5306-00-373-3291".
Proof.
  split; [|reflexivity].
  apply (valid_nsn_is_formatted_or_passed_through "5306003733291"). reflexivity.
Defined.

(** X4. A valid identifier of thirteen digits is still accepted with one
    line feed after it, and formatting leaves that spelling unchanged,
    without dashes added or the line feed removed. *)
Theorem trailing_newline_is_accepted nsn :
  validate_nsn nsn = true ->
  String.length (format_nsn nsn) = 13%nat ->
  validate_nsn (nsn +:+ newline) = true
  /\ format_nsn_with_dashes (nsn +:+ newline) = nsn +:+ newline.
Proof.
  intros Hv Hlen. unfold format_nsn in Hlen.
  destruct (validate_nsn_shapes nsn Hv)
    as (body & tail & -> & Htail & _ & Hb & Hrd & _ & _ & Hvn & Hpass).
  rewrite Hrd, length_append, Hb in Hlen.
  destruct Htail as [->| ->]; [|cbn in Hlen; lia].
  rewrite append_nil_r. by split.
Qed.

Lemma trailing_newline_is_accepted_witness :
  validate_nsn ("5306-00-373-3291" +:+ newline) = true
  /\ format_nsn_with_dashes ("5306-00-373-3291" +:+ newline)
     = "5306-00-373-3291" +:+ newline.
Proof.
  apply (trailing_newline_is_accepted "5306-00-373-3291"); reflexivity.
Defined.

End HelperTheorems.

(** ** Flat rows and batch bookkeeping *)

Section FlattenFacts.
Import Workflow BatchSpec Flatten.
Variable config : Config.
Variable items : nat -> Batch.ItemWorld.

(** X5. [flatten_to_rows] never returns an empty list: it gives one row
    per supplier, in order, or one row with empty supplier fields when
    there is no supplier; every row carries the result's NSN and its
    open status. *)
Theorem flatten_to_rows_shape (result : EnhancedRFQResult) :
  length (flatten_to_rows result) = Nat.max 1 (length (suppliers result))
  /\ Forall (fun r => row_nsn r = nsn result
                      /\ open_status r
                         = (if has_open_rfq result then "OPEN" else "CLOSED"))
       (flatten_to_rows result)
  /\ map supplier_name (flatten_to_rows result)
     = match suppliers result with
       | [] => [EmptyString]
       | l => map company_name l
       end.
Proof.
  unfold flatten_to_rows. destruct (suppliers result) as [|s l] eqn:E.
  - split; [done|]. split; [by repeat constructor|done].
  - split; [by rewrite length_map|]. split.
    + apply Forall_forall. intros r (x & -> & _)%list_elem_of_fmap. done.
    + by rewrite <- list_fmap_compose.
Qed.

Lemma flatten_to_rows_no_error_row result :
  List.filter is_error_row (flatten_to_rows result) = [].
Proof.
  unfold flatten_to_rows.
  assert (forall a b c d e,
            is_error_row (mkRow a (if has_open_rfq result then "OPEN" else "CLOSED")
                            b c d e) = false) as Hrow
    by (intros; unfold is_error_row; cbn; by destruct (has_open_rfq result)).
  destruct (suppliers result) as [|s l].
  - cbn [List.filter]. by rewrite Hrow.
  - generalize (s :: l). intros l'.
    induction l' as [|x l' IH]; [done|]. cbn [map List.filter]. by rewrite Hrow.
Qed.

(** Every entry a batch records is a success that carries its result, or
    an error. *)
Lemma entry_of_kind idx nsn :
  let e := entry_of config items idx nsn in
  (Batch.status e = Batch.ItemSuccess /\ is_Some (Batch.result e))
  \/ Batch.status e = Batch.ItemError.
Proof.
  cbv zeta. unfold entry_of, Batch.process_item.
  destruct (negb (Helpers.validate_nsn nsn)); [by right|].
  destruct (scrape_nsn _ _ _ _ _) as [fp [r|e]]; [|by right].
  destruct (Batch.save_result (items idx)); [by right|left].
  cbn. eauto.
Qed.

Lemma counters_of_entry idx nsn :
  ko_of config items idx nsn
  = (if is_error (entry_of config items idx nsn) then 1 else 0)
  /\ ok_of config items idx nsn
     = (if has_result (entry_of config items idx nsn) then 1 else 0).
Proof.
  unfold ko_of, ok_of, entry_of, Batch.process_item, is_error, has_result.
  destruct (negb (Helpers.validate_nsn nsn)); [done|].
  destruct (scrape_nsn _ _ _ _ _) as [fp [r|e]]; [|done].
  by destruct (Batch.save_result (items idx)).
Qed.

Lemma total_of_indicator {A} (P : A -> bool) (l : list A) :
  total_of (map (fun x => if P x then 1 else 0) l)
  = Z.of_nat (length (List.filter P l)).
Proof.
  induction l as [|x l IH]; [done|]. cbn [map total_of foldr List.filter].
  fold (total_of (map (fun x => if P x then 1 else 0) l)). rewrite IH.
  destruct (P x); cbn [length]; lia.
Qed.

Lemma entry_rows_count e :
  (Batch.status e = Batch.ItemSuccess /\ is_Some (Batch.result e))
  \/ Batch.status e = Batch.ItemError ->
  (1 <= length (entry_rows e))%nat
  /\ length (List.filter is_error_row (entry_rows e))
     = (if is_error e then 1 else 0)%nat.
Proof.
  unfold entry_rows, is_error. intros [[-> [r ->]]| ->].
  - rewrite flatten_to_rows_no_error_row.
    destruct (flatten_to_rows_shape r) as [-> _]. split; [lia|done].
  - done.
Qed.

Lemma filter_bind {A B} (P : B -> bool) (f : A -> list B) (l : list A) :
  List.filter P (l ≫= f) = l ≫= (fun x => List.filter P (f x)).
Proof.
  induction l as [|x l IH]; [done|]. cbn. by rewrite List.filter_app, IH.
Qed.

Lemma rows_of_entries (l : list Batch.BatchNSNResult) :
  Forall (fun e => (Batch.status e = Batch.ItemSuccess /\ is_Some (Batch.result e))
                   \/ Batch.status e = Batch.ItemError) l ->
  (length l <= length (l ≫= entry_rows))%nat
  /\ length (List.filter is_error_row (l ≫= entry_rows))
     = length (List.filter is_error l).
Proof.
  induction 1 as [|e l He _ IH]; [done|].
  destruct (entry_rows_count e He) as [H1 H2]. destruct IH as [IH1 IH2].
  cbn [mbind list_bind List.filter]. rewrite List.filter_app, !length_app, H2, IH2.
  split; [cbn [length]; lia|]. by destruct (is_error e).
Qed.

Lemma batch_entries_kind started completed nsns :
  Forall (fun e => (Batch.status e = Batch.ItemSuccess /\ is_Some (Batch.result e))
                   \/ Batch.status e = Batch.ItemError)
    (Batch.results (Batch.scrape_batch config started completed items nsns).1).
Proof.
  rewrite scrape_batch_results. apply Forall_forall.
  intros e (i & Hi)%list_elem_of_lookup. rewrite list_lookup_imap in Hi.
  destruct (nsns !! i) as [nsn|]; [|done]. injection Hi as <-.
  apply entry_of_kind.
Qed.

End FlattenFacts.

Section BatchBookkeeping.
Import Workflow BatchSpec Flatten.
Variable config : Config.
Variable items : nat -> Batch.ItemWorld.

Lemma total_of_counts (f : nat -> string -> Z) (P : Batch.BatchNSNResult -> bool)
    (nsns : list string) :
  (forall i nsn, f i nsn = if P (entry_of config items (S i) nsn) then 1 else 0) ->
  total_of (imap f nsns)
  = Z.of_nat (length (List.filter P
      (imap (fun i => entry_of config items (S i)) nsns))).
Proof.
  intros Hf. rewrite <- total_of_indicator, fmap_imap. f_equal.
  apply imap_ext. intros i x _. apply Hf.
Qed.

Lemma iteration_total total st idx nsn :
  Batch.total_nsns (Batch.iteration config total items st idx nsn).1
  = Batch.total_nsns st.1.
Proof.
  unfold Batch.iteration. destruct st as [br log].
  destruct (negb (Helpers.validate_nsn nsn)); [done|].
  by destruct (Batch.process_item _ _ _) as [[[fp entry] ok] ko].
Qed.

Lemma loop_total total nsns : forall st idx,
  Batch.total_nsns (Batch.loop config total items st idx nsns).1
  = Batch.total_nsns st.1.
Proof.
  induction nsns as [|nsn nsns IH]; intros st idx; cbn [Batch.loop]; [done|].
  by rewrite IH, iteration_total.
Qed.

Lemma batch_counters started completed nsns :
  let br := (Batch.scrape_batch config started completed items nsns).1 in
  length (Batch.results br) = length nsns
  /\ Batch.total_nsns br = Z.of_nat (length nsns)
  /\ Batch.processed br = Z.of_nat (length nsns)
  /\ Batch.failed br = Z.of_nat (length (List.filter is_error (Batch.results br)))
  /\ Batch.successful br
     = Z.of_nat (length (List.filter has_result (Batch.results br))).
Proof.
  cbv zeta.
  destruct (scrape_batch_fields config started completed items nsns)
    as (_ & Hp & Hs & Hf & _). cbv zeta in Hp, Hs, Hf.
  destruct (loop_counters config items (length nsns) nsns
              (Batch.mkBatchProcessingResult (Z.of_nat (length nsns)) 0 0 0 []
                 started None, [])
              1%nat) as (Hp' & Hs' & Hf').
  assert (Batch.total_nsns (Batch.scrape_batch config started completed items nsns).1
          = Z.of_nat (length nsns)) as Ht.
  { unfold Batch.scrape_batch.
    pose proof (loop_total (length nsns) nsns
                  (Batch.mkBatchProcessingResult (Z.of_nat (length nsns)) 0 0 0 []
                     started None, []) 1%nat) as Hl.
    by destruct (Batch.loop _ _ _ _ _ _) as [br log]. }
  rewrite Ht, Hp, Hs, Hf, Hp', Hs', Hf', scrape_batch_results, length_imap.
  cbn [fst Batch.processed Batch.successful Batch.failed].
  split; [done|]. split; [done|]. split; [lia|]. split.
  - rewrite (total_of_counts _ is_error); [lia|].
    intros i nsn. apply counters_of_entry.
  - rewrite (total_of_counts _ has_result); [lia|].
    intros i nsn. apply counters_of_entry.
Qed.

(** X6. The counters of a finished batch, read off its entries:
    [processed], [total_nsns] and the number of entries equal the number
    of submitted items, [failed] is the number of entries with status
    error, and [successful] is the number of entries that carry a
    result. *)
Theorem batch_counters_match_entries started completed nsns :
  let br := (Batch.scrape_batch config started completed items nsns).1 in
  length (Batch.results br) = length nsns
  /\ Batch.total_nsns br = Z.of_nat (length nsns)
  /\ Batch.processed br = Z.of_nat (length nsns)
  /\ Batch.failed br = Z.of_nat (length (List.filter is_error (Batch.results br)))
  /\ Batch.successful br
     = Z.of_nat (length (List.filter has_result (Batch.results br))).
Proof. apply batch_counters. Qed.

(** X7. The entries of a batch are in submission order: entry [i]
    carries the identifier of item [i], formatted with dashes when it is
    valid and as submitted when it is not. *)
Theorem batch_results_keep_submission_order started completed nsns :
  map Batch.b_nsn
    (Batch.results (Batch.scrape_batch config started completed items nsns).1)
  = map (fun nsn => if Helpers.validate_nsn nsn
                    then Helpers.format_nsn_with_dashes nsn else nsn) nsns.
Proof.
  rewrite scrape_batch_results, fmap_imap.
  erewrite imap_ext; [apply imap_const|].
  intros i nsn _. cbn. unfold entry_of, Batch.process_item.
  destruct (Helpers.validate_nsn nsn); cbn [negb]; [|done].
  destruct (scrape_nsn _ _ _ _ _) as [fp [r|e]]; [|done].
  by destruct (Batch.save_result (items (S i))).
Qed.

(** X8. [/api/batch] answers 400 for an empty batch and for more than
    500 items. Otherwise it answers with the flat rows and a summary in
    which [total_nsns] is the number of submitted items, there is at least
    one row per item, and [failed] is the number of [ERROR] rows. *)
Theorem process_batch_summary started completed nsns :
  match process_batch config started completed items nsns with
  | BatchHttpError code _ =>
      code = 400 /\ (nsns = [] \/ (500 < length nsns)%nat)
  | BatchOk rows summary =>
      nsns <> [] /\ (length nsns <= 500)%nat
      /\ total_nsns summary = Z.of_nat (length nsns)
      /\ total_rows summary = Z.of_nat (length rows)
      /\ (length nsns <= length rows)%nat
      /\ failed summary = Z.of_nat (length (List.filter is_error_row rows))
  end.
Proof.
  unfold process_batch. destruct nsns as [|n0 rest] eqn:E; [by split; [|left]|].
  rewrite <- E. assert (nsns <> []) as Hne by (by rewrite E).
  destruct (500 <? length nsns)%nat eqn:Hlen.
  - apply Nat.ltb_lt in Hlen. split; [done|by right].
  - apply Nat.ltb_ge in Hlen.
    destruct (batch_counters started completed nsns) as (Hn & Ht & _ & Hf & _).
    cbv zeta in Hn, Ht, Hf.
    destruct (rows_of_entries _ (batch_entries_kind config items started completed nsns))
      as [Hrows Herr].
    cbv zeta. cbn [total_nsns total_rows failed].
    unfold flatten_batch_results.
    repeat split; [done|done|exact Ht| |].
    + by rewrite <- Hn.
    + by rewrite Herr.
Qed.

End BatchBookkeeping.

Section BatchPacing.
Import Workflow BatchSpec Flatten.
Variable config : Config.
Variable items : nat -> Batch.ItemWorld.

Lemma iteration_sleeps total st idx nsn :
  pacing_sleeps (Batch.iteration config total items st idx nsn).2
  = pacing_sleeps st.2
    ++ (if Helpers.validate_nsn nsn && (idx <? total)%nat
        then [BATCH_DELAY config] else []).
Proof.
  unfold Batch.iteration, pacing_sleeps. destruct st as [br log].
  destruct (Helpers.validate_nsn nsn); cbn [negb andb].
  - destruct (Batch.process_item _ _ _) as [[[fp entry] ok] ko]. cbn [snd].
    rewrite !omap_app. cbn [omap]. rewrite app_nil_l.
    by destruct (idx <? total)%nat.
  - cbn [snd]. by rewrite omap_app.
Qed.

Lemma loop_sleeps total nsns : forall st idx,
  (idx + length nsns = S total)%nat ->
  pacing_sleeps (Batch.loop config total items st idx nsns).2
  = pacing_sleeps st.2
    ++ map (fun _ => BATCH_DELAY config)
         (List.filter Helpers.validate_nsn (take (length nsns - 1) nsns)).
Proof.
  induction nsns as [|nsn rest IH]; intros st idx Hidx; cbn [Batch.loop].
  - by rewrite app_nil_r.
  - cbn [length] in Hidx.
    rewrite (IH _ (S idx)) by lia. rewrite iteration_sleeps, <- app_assoc. f_equal.
    destruct rest as [|n2 rest'].
    + assert ((idx <? total)%nat = false) as -> by (apply Nat.ltb_ge; cbn in Hidx; lia).
      by rewrite andb_false_r.
    + assert ((idx <? total)%nat = true) as -> by (apply Nat.ltb_lt; cbn in Hidx; lia).
      rewrite andb_true_r.
      replace (length (nsn :: n2 :: rest') - 1)%nat with (S (length (n2 :: rest') - 1))
        by (cbn [length]; lia).
      cbn [take List.filter]. by destruct (Helpers.validate_nsn nsn).
Qed.

(** X9. Pacing of a sequential batch: the batch sleeps [BATCH_DELAY]
    once after each valid item except the last submitted item, and never
    after an invalid one; so a batch of [n] items sleeps at most [n - 1]
    times. *)
Theorem batch_sleeps_between_valid_items started completed nsns :
  pacing_sleeps (Batch.scrape_batch config started completed items nsns).2
  = map (fun _ => BATCH_DELAY config)
      (List.filter Helpers.validate_nsn (take (length nsns - 1) nsns))
  /\ (length (pacing_sleeps
                (Batch.scrape_batch config started completed items nsns).2)
      <= length nsns - 1)%nat.
Proof.
  assert (pacing_sleeps (Batch.scrape_batch config started completed items nsns).2
          = map (fun _ => BATCH_DELAY config)
              (List.filter Helpers.validate_nsn (take (length nsns - 1) nsns)))
    as Heq.
  { destruct (scrape_batch_fields config started completed items nsns)
      as (_ & _ & _ & _ & ->).
    destruct nsns as [|n0 rest] eqn:E; [done|]. rewrite <- E.
    rewrite loop_sleeps; [done|]. lia. }
  split; [exact Heq|]. rewrite Heq, length_map.
  etransitivity; [apply List.filter_length_le|].
  rewrite length_take. lia.
Qed.

End BatchPacing.

(** ** More on the browser pool *)

Section PoolCounters.
Import Pool PoolSpec.
Variable config : Config.

Lemma sum_waiters_insert (l : list (Z * nat)) : forall i v b v',
  l !! i = Some (v, S b) ->
  S (sum_list (map snd (<[i := (v', b)]> l))) = sum_list (map snd l).
Proof.
  induction l as [|[v0 b0] l IH]; intros [|i] v b v' Hi; try done.
  - injection Hi as -> ->. done.
  - specialize (IH i v b v' Hi). simpl. unfold sum_list, id in IH |- *. lia.
Qed.

Lemma values_insert (l : list (Z * nat)) i v b :
  Forall (fun r : Z * nat => 0 <= r.1) l -> 0 <= v ->
  Forall (fun r : Z * nat => 0 <= r.1) (<[i := (v, b)]> l).
Proof. intros Hl Hv. by apply Forall_insert. Qed.

(** A step keeps [self._waiting] equal to the number of blocked calls
    plus the calls cancelled while they waited, and every semaphore
    value non-negative. *)
Lemma step_counters p e p' k :
  step config p e = Some p' ->
  _waiting p = Z.of_nat (blocked p + sum_list (map snd (retired p)) + k)
  /\ 0 <= _semaphore p
  /\ Forall (fun r : Z * nat => 0 <= r.1) (retired p) ->
  _waiting p'
  = Z.of_nat (blocked p' + sum_list (map snd (retired p')) + (k + abandoned [e]))
  /\ 0 <= _semaphore p'
  /\ Forall (fun r : Z * nat => 0 <= r.1) (retired p').
Proof.
  intros Hstep (Hw & Hs & Hr).
  destruct e as [launched| | | | | |i|i|o|ctx_live how c| |i|ctx_live how];
    cbn [step] in Hstep; unfold abandoned; cbn [List.filter length].
  - injection Hstep as <-. unfold start.
    destruct (_started p); [split; [lia|done]|].
    destruct launched; cbn [negb]; [|split; [lia|done]].
    destruct (MAX_BROWSER_PAGES config <? 0) eqn:Hmax; [split; [cbn; lia|done]|].
    apply Z.ltb_ge in Hmax. cbn.
    split; [lia|]. split; [done|]. by constructor.
  - injection Hstep as <-. unfold stop.
    destruct (_started p); (split; [cbn; lia|done]).
  - unfold crash in Hstep. pool_cases. cbn. split; [lia|done].
  - unfold request in Hstep. pool_cases. cbn. split; [lia|done].
  - unfold grant in Hstep. pool_cases.
    match goal with H : (0 <? _) = true |- _ => apply Z.ltb_lt in H end.
    match goal with H : blocked p = S _ |- _ => try rewrite H in Hw end.
    cbn. split; [lia|]. split; [lia|done].
  - unfold timeout_ in Hstep. pool_cases.
    match goal with H : blocked p = S _ |- _ => try rewrite H in Hw end.
    cbn. split; [lia|done].
  - unfold retired_grant in Hstep. pool_cases.
    match goal with H : (0 <? _) = true |- _ => apply Z.ltb_lt in H end.
    match goal with H : retired p !! i = Some _ |- _ =>
      pose proof (sum_waiters_insert _ _ _ _ (z - 1) H) as Hsum end.
    cbn. split; [lia|]. split; [done|]. apply values_insert; [done|lia].
  - unfold retired_timeout in Hstep. pool_cases.
    match goal with H : retired p !! i = Some _ |- _ =>
      pose proof (sum_waiters_insert _ _ _ _ z H) as Hsum;
      pose proof (Forall_lookup_1 _ _ _ _ Hr H) as Hv end.
    cbn in Hv. cbn. split; [lia|]. split; [done|]. by apply values_insert.
  - unfold open_context in Hstep. pool_cases; unfold release; cbn;
      (split; [lia|]); (split; [lia|done]).
  - unfold exit_block in Hstep. pool_cases; unfold release; cbn;
      (split; [lia|]); (split; [lia|done]).
  - unfold cancel in Hstep. pool_cases.
    match goal with H : blocked p = S _ |- _ => try rewrite H in Hw end.
    cbn. split; [lia|done].
  - unfold retired_cancel in Hstep. pool_cases.
    match goal with H : retired p !! i = Some _ |- _ =>
      pose proof (sum_waiters_insert _ _ _ _ z H) as Hsum;
      pose proof (Forall_lookup_1 _ _ _ _ Hr H) as Hv end.
    cbn in Hv. cbn. split; [lia|]. split; [done|]. by apply values_insert.
  - unfold close_cancelled in Hstep. pool_cases; cbn; (split; [lia|done]).
Qed.

Lemma abandoned_cons e tr : abandoned (e :: tr) = (abandoned [e] + abandoned tr)%nat.
Proof. unfold abandoned. cbn [List.filter]. by destruct e. Qed.

Lemma run_counters tr : forall p p' k,
  run config p tr = Some p' ->
  _waiting p = Z.of_nat (blocked p + sum_list (map snd (retired p)) + k)
  /\ 0 <= _semaphore p
  /\ Forall (fun r : Z * nat => 0 <= r.1) (retired p) ->
  _waiting p'
  = Z.of_nat (blocked p' + sum_list (map snd (retired p')) + (k + abandoned tr))
  /\ 0 <= _semaphore p'
  /\ Forall (fun r : Z * nat => 0 <= r.1) (retired p').
Proof.
  induction tr as [|e tr IH]; intros p p' k Hrun Hinv; cbn in Hrun.
  - injection Hrun as <-. unfold abandoned. cbn. by rewrite Nat.add_0_r.
  - destruct (step config p e) as [p1|] eqn:Hstep; [|done].
    replace (k + abandoned (e :: tr))%nat
      with ((k + abandoned [e]) + abandoned tr)%nat
      by (rewrite (abandoned_cons e tr); lia).
    apply (IH p1); [done|]. by apply (step_counters p e).
Qed.

(** X10. Along every execution of the pool from its creation, restarts
    and cancellations included, [self._waiting] is the number of
    [get_context] calls that are blocked waiting for a slot plus the
    number of calls that were cancelled while they waited: it never
    undercounts the waiting calls, and each such cancellation leaves it
    one too high for good. The semaphore value is never negative. *)
Theorem waiting_counts_blocked_calls tr p :
  run config new_pool tr = Some p ->
  _waiting p
  = Z.of_nat (blocked p + sum_list (map snd (retired p)) + abandoned tr)
  /\ Z.of_nat (blocked p + sum_list (map snd (retired p))) <= _waiting p
  /\ 0 <= _semaphore p.
Proof.
  intros Hrun.
  destruct (run_counters tr new_pool p 0 Hrun) as (Hw & Hs & _).
  { cbn. split; [done|]. split; [done|constructor]. }
  cbn [Nat.add] in Hw. split; [done|]. split; [lia|done].
Qed.

(** X11. In an execution where [start()] takes effect only while no
    call is in flight, a started pool with no call holding a permit has
    all [MAX_BROWSER_PAGES] permits free except those lost to a
    cancellation inside [ctx.close()], of which there are no more than
    such cancellations: without one, no permit leaks, whatever way the
    blocks exited; each one can take a permit away for good. *)
Theorem idle_pool_has_all_permits tr p :
  run config new_pool tr = Some p ->
  settled config new_pool tr = true ->
  _started p = true ->
  holders p = 0%nat ->
  _semaphore p + Z.of_nat (lost p) = MAX_BROWSER_PAGES config
  /\ (lost p <= cancelled_closes tr)%nat.
Proof.
  intros Hrun Hset Hst Hh. split.
  - pose proof (run_accounted config tr new_pool p (accounted_new_pool config)
                  Hrun Hset) as (_ & _ & [Hsum|(Hns & _)]).
    + rewrite Hh in Hsum. lia.
    + congruence.
  - apply (run_lost config tr new_pool p Hrun).
Qed.

(** X12. [start()] and [stop()] are idempotent: a second [start()] after
    one that launched changes nothing, and neither does a second
    [stop()]; after [stop()] no context is live and [get_context] raises
    the not-started error. *)
Theorem start_and_stop_are_idempotent p launched :
  start config launched (start config true p) = start config true p
  /\ stop (stop p) = stop p
  /\ live (stop p) = (if _started p then 0%nat else live p)
  /\ request (stop p) = Raises (RuntimeError NotStarted).
Proof.
  repeat split.
  - unfold start. destruct (_started p) eqn:Hs; [by rewrite Hs|]. cbn [negb].
    destruct (MAX_BROWSER_PAGES config <? 0) eqn:Hmax; cbn; [|done].
    by destruct launched.
  - unfold stop. destruct (_started p) eqn:Hs; cbn; [done|by rewrite Hs].
  - unfold stop. by destruct (_started p).
  - unfold request, stop. destruct (_started p) eqn:Hs; cbn; [done|by rewrite Hs].
Qed.

End PoolCounters.

Lemma idle_pool_has_all_permits_witness :
  exists p,
    Pool.run Samples.config Pool.new_pool
      ([Pool.Start true]
       ++ Pool.lease_events true Samples.a_lease Pool.ExitNormal
       ++ PoolSpec.lease_with_cancelled_close
       ++ Pool.lease_events true Samples.a_lease Pool.ExitException) = Some p
    /\ Pool._semaphore p + Z.of_nat (Pool.lost p) = 4
    /\ (Pool.lost p <= 1)%nat.
Proof.
  eexists. split; [vm_compute; reflexivity|].
  apply (idle_pool_has_all_permits Samples.config
           ([Pool.Start true]
            ++ Pool.lease_events true Samples.a_lease Pool.ExitNormal
            ++ PoolSpec.lease_with_cancelled_close
            ++ Pool.lease_events true Samples.a_lease Pool.ExitException));
    vm_compute; reflexivity.
Defined.

(** A cancellation inside [ctx.close()] costs the pool a permit: after
    one such exit nothing is in flight and three of the four permits are
    free. *)
Example cancelled_close_keeps_the_permit :
  exists p,
    Pool.run Samples.config Pool.new_pool
      ([Pool.Start true] ++ PoolSpec.lease_with_cancelled_close) = Some p
    /\ Pool.in_flight p = 0%nat
    /\ MAX_BROWSER_PAGES Samples.config = 4
    /\ Pool._semaphore p = 3.
Proof. eexists. split; [vm_compute; reflexivity|]. by repeat split. Qed.

Lemma waiting_counts_blocked_calls_witness :
  exists p,
    Pool.run Samples.config Pool.new_pool
      [Pool.Start true; Pool.Request; Pool.Request; Pool.Grant;
       Pool.Cancel; Pool.Request] = Some p
    /\ Pool.blocked p = 1%nat
    /\ Pool._waiting p = 2.
Proof.
  eexists. split; [vm_compute; reflexivity|]. split; [reflexivity|].
  exact (proj1 (waiting_counts_blocked_calls Samples.config
                  [Pool.Start true; Pool.Request; Pool.Request; Pool.Grant;
                   Pool.Cancel; Pool.Request] _ eq_refl)).
Defined.

(** ** More on the single-item workflow *)

Section WorkflowEdges.
Import Workflow StageCSpec.
Variable config : Config.

Lemma scrape_nsn_inv nsn ms ts w fp r :
  scrape_nsn config nsn ms ts w = (fp, Returns r) ->
  exists evs dr wr,
    stage_a config w = (evs, Returns (dr, wr))
    /\ stage_c_input config ms w = cap_suppliers ms (merged_suppliers dr wr)
    /\ fp = mkFootprint evs
              (map d_idx (List.filter called
                 (discoveries config w ts (stage_c_input config ms w))))
              (stage_c_granted config w ts (stage_c_input config ms w)).1.2
              (Some (t_finished w - t_scrape_start w)%Q)
    /\ suppliers r = (stage_c_granted config w ts (stage_c_input config ms w)).1.1
    /\ firecrawl_status (workflow r)
       = (stage_c_granted config w ts (stage_c_input config ms w)).2
    /\ Workflow.nsn r = match data dr with
               | Some d => rfq_nsn d
               | None => Helpers.format_nsn_with_dashes nsn
               end
    /\ item_name r = match wb_data wr with
                     | Some d => wb_item_name d
                     | None => match data dr with
                               | Some d => nomenclature d
                               | None => EmptyString
                               end
                     end
    /\ has_open_rfq r
       = match data dr with Some d => has_open_rfqs d | None => false end.
Proof.
  intros H. destruct (stage_a config w) as [evs [[dr wr]|e]] eqn:Ha.
  - pose proof (stage_c_input_eq config w ms evs dr wr Ha) as Hin.
    destruct (scrape_nsn_returns config nsn ms ts w evs dr wr Ha)
      as [Hret|(_ & _ & _ & Hret)]; cbv zeta in Hret; rewrite Hret in H;
      [|discriminate H].
    rewrite Hin. injection H as <- <-. by exists evs, dr, wr.
  - rewrite (scrape_nsn_raises config nsn ms ts w evs e Ha) in H. discriminate H.
Qed.

Lemma stage_a_events w :
  (stage_a config w).1
  = Pool.lease_events (pool_started w) (lease w)
      (Pool.exit_of (gather2 (fetch_dibbs w) (fetch_wbparts w))).
Proof.
  unfold stage_a, Pool.get_context, Pool.lease_events.
  by destruct (pool_started w).
Qed.

Lemma scrape_nsn_pool_events nsn ms ts w :
  pool_events (scrape_nsn config nsn ms ts w).1 = (stage_a config w).1.
Proof.
  destruct (stage_a config w) as [evs [[dr wr]|e]] eqn:Ha.
  - by destruct (scrape_nsn_returns config nsn ms ts w evs dr wr Ha)
      as [Hret|(_ & _ & _ & Hret)]; cbv zeta in Hret; rewrite Hret.
  - by rewrite (scrape_nsn_raises config nsn ms ts w evs e Ha).
Qed.

Lemma filter_none {A} (P : A -> bool) (l : list A) :
  (forall x, P x = false) -> List.filter P l = [].
Proof.
  intros HP. induction l as [|x l IH]; [done|]. cbn. by rewrite HP.
Qed.

Lemma filter_all {A} (P : A -> bool) (l : list A) :
  (forall x, P x = true) -> List.filter P l = l.
Proof.
  intros HP. induction l as [|x l IH]; [done|]. cbn. by rewrite HP, IH.
Qed.

Lemma no_deadline_never_skips w ts i :
  ts <= 0 -> deadline_skipped w ts i = false.
Proof.
  intros Hts. unfold deadline_skipped, deadline_of.
  by destruct (Z.ltb_spec 0 ts); [lia|].
Qed.

Lemma status_of_not_skipped t s n : status_of t s n <> Skipped.
Proof.
  unfold status_of. destruct t; [done|].
  destruct (s =? n)%nat; [done|]. by destruct (0 <? s)%nat.
Qed.

Lemma supplier_eta (s : Supplier) :
  mkSupplier (companyName s) (cageCode s) (partNumber s) = s.
Proof. by destruct s. Qed.

Lemma stage_c_rows_identity w ts l :
  map (fun x => mkSupplier (company_name x) (cage_code x) (part_number x))
    (stage_c_granted config w ts l).1.1 = l.
Proof.
  assert (forall c : Supplier -> option SupplierContact,
            map (fun x => mkSupplier (company_name x) (cage_code x) (part_number x))
              (map (fun s => with_contact s (c s)) l) = l) as Hmap.
  { intros c. rewrite map_map. cbn. rewrite <- (map_id l) at 2.
    apply map_ext. intros s. apply supplier_eta. }
  destruct l as [|s0 l0] eqn:Hl; [done|]. rewrite <- Hl in *.
  assert (l <> []) as Hne by by rewrite Hl.
  clear Hl. unfold stage_c_granted. destruct l as [|s1 l1] eqn:Hl; [done|]. rewrite <- Hl in *.
  destruct (is_firecrawl_configured config) eqn:Hc; cbn [fst].
  - rewrite (discoveries_eq config w ts l Hne Hc).
    clear. generalize 0%nat. induction l as [|s l IH]; intros k; [done|].
    rewrite imap_cons. cbn [map]. rewrite imap_shift, IH. f_equal.
    unfold _discover_one. rewrite Nat.add_0_r.
    destruct (past_margin _ _); cbn; apply supplier_eta.
  - apply (Hmap (fun _ => None)).
Qed.

(** X13. A call of [scrape_nsn] gives back the pool slot it took: its
    pool events, run from any pool state, leave the semaphore, the
    waiting counter and the number of slot holders as they were, whether
    the call returns or raises. *)
Theorem scrape_nsn_gives_its_slot_back nsn ms ts w q q' :
  Pool.run config q (pool_events (scrape_nsn config nsn ms ts w).1) = Some q' ->
  Pool._semaphore q' = Pool._semaphore q
  /\ Pool._waiting q' = Pool._waiting q
  /\ PoolSpec.holders q' = PoolSpec.holders q.
Proof.
  rewrite scrape_nsn_pool_events, stage_a_events. intros Hrun.
  by destruct (lease_events_balanced _ _ _ _ _ _ Hrun) as (? & ? & _ & ?).
Qed.

(** X14. Without a deadline ([timeout_seconds <= 0]) no supplier is
    skipped: when the run returns, the enrichment service has been
    called for exactly the suppliers Stage C received (none when the
    stage does not run), the [timed_out] flag is unset and the status is
    not [partial_timeout]. *)
Theorem no_deadline_no_skipping nsn ms ts w fp r :
  ts <= 0 ->
  scrape_nsn config nsn ms ts w = (fp, Returns r) ->
  enrichment_calls fp
  = (if is_firecrawl_configured config
     then seq 0 (length (stage_c_input config ms w)) else [])
  /\ timed_out fp = false
  /\ firecrawl_status (workflow r) <> PartialTimeout.
Proof.
  intros Hts (evs & dr & wr & _ & _ & -> & _ & Hst & _)%scrape_nsn_inv.
  set (l := stage_c_input config ms w) in *. cbn [enrichment_calls timed_out].
  destruct l as [|s0 l0] eqn:Hl.
  { rewrite Hst. cbn. by destruct (is_firecrawl_configured config). }
  rewrite <- Hl in *. assert (l <> []) as Hne by by rewrite Hl.
  destruct (is_firecrawl_configured config) eqn:Hc.
  - rewrite Hst, (discoveries_eq config w ts l Hne Hc), discoveries_called.
    pose proof (stage_c_configured config w ts l Hne Hc) as Hsc.
    cbv zeta in Hsc. rewrite Hsc. cbn [fst snd].
    rewrite discoveries_hit.
    rewrite (filter_none (deadline_skipped w ts)),
            (filter_all (fun i => negb (deadline_skipped w ts i)));
      [|intros i; by rewrite no_deadline_never_skips
       |intros i; by rewrite no_deadline_never_skips].
    cbn [length Nat.ltb Nat.leb]. split; [done|]. split; [done|].
    unfold status_of. destruct (_ =? _)%nat; [done|]. by destruct (0 <? _)%nat.
  - rewrite Hst. unfold stage_c_granted, discoveries. rewrite Hl, <- Hl, Hc. done.
Qed.

(** X15. The contact stage is reported [skipped] exactly when it
    received no supplier or the Firecrawl key is not configured; then no
    enrichment call is made, the [timed_out] flag is unset and every
    supplier of the result has no contact. *)
Theorem contact_stage_skipped nsn ms ts w fp r :
  scrape_nsn config nsn ms ts w = (fp, Returns r) ->
  (firecrawl_status (workflow r) = Skipped
   <-> stage_c_input config ms w = [] \/ is_firecrawl_configured config = false)
  /\ (firecrawl_status (workflow r) = Skipped ->
      enrichment_calls fp = []
      /\ timed_out fp = false
      /\ Forall (fun s => contact s = None) (suppliers r)).
Proof.
  intros (evs & dr & wr & _ & _ & -> & Hsup & Hst & _)%scrape_nsn_inv.
  set (l := stage_c_input config ms w) in *. cbn [enrichment_calls timed_out].
  rewrite Hst, Hsup. unfold stage_c_granted, discoveries.
  destruct l as [|s0 l0] eqn:Hl.
  { cbn. split; [split; [by left|done]|done]. }
  rewrite <- Hl. destruct (is_firecrawl_configured config) eqn:Hc; cbn [fst snd].
  - split.
    + split; [by intros ?%status_of_not_skipped|].
      intros [Hnil|?]; [by rewrite Hl in Hnil|done].
    + by intros ?%status_of_not_skipped.
  - split; [split; [by right|done]|]. intros _. split; [done|]. split; [done|].
    apply Forall_of_map. by apply Forall_true.
Qed.

(** X16. With a positive [FIRECRAWL_CONCURRENCY], a run whose Stage A
    returned returns a result whose suppliers are the merged suppliers of
    the two sources, in merge order and with their three identity fields
    unchanged, cut to the first [max_suppliers] when that cap is
    positive; with a cap of zero or less none is dropped. *)
Theorem result_rows_follow_merged_suppliers nsn ms ts w evs dr wr :
  0 < FIRECRAWL_CONCURRENCY config ->
  stage_a config w = (evs, Returns (dr, wr)) ->
  exists fp r,
    scrape_nsn_call config nsn ms ts w = Some (fp, Returns r)
    /\ map (fun x => mkSupplier (company_name x) (cage_code x) (part_number x))
         (suppliers r)
       = (if 0 <? ms then take (Z.to_nat ms) (merged_suppliers dr wr)
          else merged_suppliers dr wr)
    /\ (0 < ms -> Z.of_nat (length (suppliers r)) <= ms).
Proof.
  intros Hsem Ha.
  rewrite (scrape_nsn_call_positive config nsn ms ts w Hsem).
  pose proof (scrape_nsn_granted config nsn ms ts w evs dr wr Ha) as Hret.
  cbv zeta in Hret. rewrite Hret by (apply stage_c_returns; left; lia).
  eexists _, _. split; [reflexivity|].
  cbn [suppliers]. rewrite stage_c_rows_identity.
  assert (cap_suppliers ms (merged_suppliers dr wr)
          = if 0 <? ms then take (Z.to_nat ms) (merged_suppliers dr wr)
            else merged_suppliers dr wr) as Hcap.
  { unfold cap_suppliers. destruct (Z.ltb_spec 0 ms); cbn [andb]; [|done].
    destruct (Z.ltb_spec ms (Z.of_nat (length (merged_suppliers dr wr)))); [done|].
    rewrite take_ge; [done|lia]. }
  split; [done|]. intros Hms.
  rewrite <- (length_map (fun x => mkSupplier (company_name x) (cage_code x)
                                     (part_number x))).
  rewrite stage_c_rows_identity, Hcap.
  destruct (Z.ltb_spec 0 ms); [|lia]. rewrite length_take. lia.
Qed.

(** X17. When neither source returns data the run still returns a
    result: no suppliers, the identifier in dashed form, an empty item
    name, no open RFQ, the contact stage [skipped], and no enrichment
    call. *)
Theorem no_data_gives_an_empty_result nsn ms ts w evs dr wr :
  stage_a config w = (evs, Returns (dr, wr)) ->
  data dr = None -> wb_data wr = None ->
  exists fp,
    scrape_nsn config nsn ms ts w
    = (fp, Returns (mkEnhancedRFQResult (Helpers.format_nsn_with_dashes nsn)
                      EmptyString false [] (mkRawData None None)
                      (mkWorkflowStatus (source_status (success dr))
                         (source_status (wb_success wr)) Skipped)
                      (timestamp w)))
    /\ enrichment_calls fp = [].
Proof.
  intros Ha Hd Hw.
  assert (cap_suppliers ms (merged_suppliers dr wr) = []) as Hnil.
  { unfold merged_suppliers, dibbs_sources_of, wbparts_mfrs_of.
    rewrite Hd, Hw. unfold cap_suppliers.
    assert (Merge.get_unique_suppliers_list [] [] = []) as -> by reflexivity.
    destruct (_ && _); [apply take_nil|done]. }
  pose proof (scrape_nsn_granted config nsn ms ts w evs dr wr Ha) as Hret.
  cbv zeta in Hret. rewrite Hret by (apply stage_c_returns; right; by left).
  rewrite Hnil, Hd, Hw. eexists. split; reflexivity.
Qed.

End WorkflowEdges.

Section WorkflowEdgeExamples.
Import Workflow StageCSpec.

Lemma scrape_nsn_gives_its_slot_back_witness :
  exists q',
    Pool.run Samples.config (Pool.start Samples.config true Pool.new_pool)
      (pool_events
         (scrape_nsn Samples.config "5306003733291" 0 0 Samples.pooled_world).1)
    = Some q'
    /\ Pool._semaphore q' = 4.
Proof.
  eexists. split; [vm_compute; reflexivity|].
  refine (proj1 (scrape_nsn_gives_its_slot_back Samples.config "5306003733291"
                   0 0 Samples.pooled_world
                   (Pool.start Samples.config true Pool.new_pool) _ _)).
  vm_compute. reflexivity.
Defined.

Lemma no_deadline_no_skipping_witness :
  exists fp r,
    scrape_nsn Samples.config "5306003733291" 0 0 Samples.low_world
    = (fp, Returns r)
    /\ enrichment_calls fp = [0; 1]%nat
    /\ timed_out fp = false.
Proof.
  eexists _, _. split; [vm_compute; reflexivity|].
  destruct (no_deadline_no_skipping Samples.config "5306003733291" 0 0
              Samples.low_world _ _ ltac:(lia) eq_refl) as (Hcalls & Hflag & _).
  split; [exact Hcalls|exact Hflag].
Defined.

Lemma contact_stage_skipped_witness :
  exists fp r,
    scrape_nsn Samples.config "5306003733291" 0 0 Samples.unknown_item_world
    = (fp, Returns r)
    /\ firecrawl_status (workflow r) = Skipped
    /\ enrichment_calls fp = [].
Proof.
  eexists _, _. split; [vm_compute; reflexivity|].
  destruct (contact_stage_skipped Samples.config "5306003733291" 0 0
              Samples.unknown_item_world _ _ eq_refl) as [[_ Hif] Hthen].
  assert (stage_c_input Samples.config 0 Samples.unknown_item_world = []
          \/ is_firecrawl_configured Samples.config = false) as Hin
    by (left; vm_compute; reflexivity).
  split; [exact (Hif Hin)|exact (proj1 (Hthen (Hif Hin)))].
Defined.

Lemma result_rows_follow_merged_suppliers_witness :
  exists fp r,
    scrape_nsn_call Samples.config "5306003733291" 1 0 Samples.low_world
    = Some (fp, Returns r)
    /\ Z.of_nat (length (suppliers r)) <= 1.
Proof.
  destruct (result_rows_follow_merged_suppliers Samples.config "5306003733291"
              1 0 Samples.low_world [] MergeSpec.sample_dibbs
              MergeSpec.sample_wbparts eq_refl eq_refl)
    as (fp & r & Hrun & _ & Hlen).
  exists fp, r. split; [exact Hrun|apply Hlen; lia].
Defined.

Lemma no_data_gives_an_empty_result_witness :
  exists fp r,
    scrape_nsn Samples.config "5306003733291" 0 0 Samples.unknown_item_world
    = (fp, Returns r)
    /\ Workflow.nsn r = "5306-00-373-3291"
    /\ suppliers r = []
    /\ enrichment_calls fp = [].
Proof.
  destruct (no_data_gives_an_empty_result Samples.config "5306003733291" 0 0
              Samples.unknown_item_world
              (stage_a Samples.config Samples.unknown_item_world).1
              (mkScrapeResult false None (Some "No data found after retries"))
              (mkWBPartsScrapeResult false None (Some "HTTP 404: Page not found"))
              eq_refl eq_refl eq_refl)
    as (fp & Hrun & Hcalls).
  eexists fp, _. split; [exact Hrun|]. split; [vm_compute; reflexivity|].
  split; [reflexivity|exact Hcalls].
Defined.

End WorkflowEdgeExamples.

(** ** The HTTP endpoints *)

Section EndpointFacts.
Import Workflow StageCSpec.
Variable config : Config.

Lemma stage_a_busy w :
  pool_started w = true -> Pool.wait (lease w) = Pool.TimedOut ->
  stage_a config w
  = ([Pool.Request; Pool.Timeout],
     Raises (RuntimeError (PoolBusy (Pool.resolve_timeout config None)
                             (MAX_BROWSER_PAGES config)
                             (Pool.waiting_seen (lease w))))).
Proof.
  intros Hs Hw. unfold stage_a, Pool.get_context, Pool.lease_events.
  by rewrite Hs, Hw.
Qed.

Lemma supplier_info_not_low rows :
  Forall (fun s => Api.si_confidence s <> low) (omap Api.supplier_info rows).
Proof.
  apply Forall_forall. intros si (x & _ & Hsi)%list_elem_of_omap.
  unfold Api.supplier_info in Hsi. destruct (contact x) as [c|]; [|done].
  by destruct (confidence c) eqn:Hc; [injection Hsi as <-..|].
Qed.

Lemma supplier_info_filter rows :
  map (fun s => (Api.si_companyName s, Api.si_cageCode s, Api.si_partNumber s))
    (omap Api.supplier_info rows)
  = map (fun x => (company_name x, cage_code x, part_number x))
      (List.filter counts_as_success rows).
Proof.
  induction rows as [|x rows IH]; [done|].
  change (omap Api.supplier_info (x :: rows))
    with (match Api.supplier_info x with
          | Some y => y :: omap Api.supplier_info rows
          | None => omap Api.supplier_info rows
          end).
  cbn [List.filter]. unfold Api.supplier_info at 1, counts_as_success at 1.
  destruct (contact x) as [c|]; [|done].
  destruct (confidence c); cbn; by rewrite ?IH.
Qed.

Lemma supplier_info_contact (rows : list SupplierWithContact) si :
  si ∈ omap Api.supplier_info rows ->
  exists x c, x ∈ rows /\ contact x = Some c
    /\ Api.si_email si = email c /\ Api.si_phone si = phone c
    /\ Api.si_confidence si = confidence c.
Proof.
  intros (x & Hx & Hsi)%list_elem_of_omap. exists x.
  unfold Api.supplier_info in Hsi. destruct (contact x) as [c|] eqn:Hx'; [|done].
  exists c. by destruct (confidence c) eqn:Hc; [injection Hsi as <-..|].
Qed.

Lemma stage_c_timed_out w ts l :
  bool_decide ((stage_c_granted config w ts l).2 = PartialTimeout)
  = (stage_c_granted config w ts l).1.2.
Proof.
  unfold stage_c_granted. destruct l as [|s l]; [done|].
  destruct (is_firecrawl_configured config); [|done]. cbn [fst snd].
  unfold status_of. destruct (existsb _ _); [done|].
  destruct (_ =? _)%nat; [done|]. by destruct (0 <? _)%nat.
Qed.

Lemma count_status_total rs :
  Forall (fun r => Api.r_status r = "success" \/ Api.r_status r = "error") rs ->
  Api.count_status "success" rs + Api.count_status "error" rs
  = Z.of_nat (length rs).
Proof.
  unfold Api.count_status. induction 1 as [|r rs [Hr|Hr] _ IH]; [done|..];
    cbn [List.filter length]; rewrite Hr; cbn; lia.
Qed.

Lemma scrape_one_cases ms w nsn :
  match (scrape_nsn config nsn ms 180 w).2 with
  | Returns res =>
      (Api._scrape_one config ms w nsn).2
      = Api.mkBatchSuppliersNSNResult (Workflow.nsn res) "success"
          (Some (item_name res)) (Some (has_open_rfq res))
          (omap Api.supplier_info (suppliers res))
          (bool_decide (firecrawl_status (workflow res) = PartialTimeout)) None
  | Raises e =>
      (Api._scrape_one config ms w nsn).2
      = Api.mkBatchSuppliersNSNResult nsn "error" None None [] false (Some (str e))
  end.
Proof.
  unfold Api._scrape_one. by destruct (scrape_nsn _ _ _ _ _) as [fp [res|e]].
Qed.

Lemma limited_scrape_result ms worlds i nsn :
  (Api._limited_scrape config ms worlds i nsn).2
  = (Api._scrape_one config ms (worlds i) nsn).2.
Proof.
  unfold Api._limited_scrape. by destruct (Api._scrape_one _ _ _ _).
Qed.


(** X19. When the workflow returns in time, the single-item endpoint
    answers with exactly the suppliers the workflow counted as successes
    (a contact of high or medium confidence), in the workflow's order;
    each carries its contact's email, phone and confidence, none has
    confidence low, and [timedOut] is the workflow's [timed_out] flag. *)
Theorem single_endpoint_keeps_usable_contacts nsn ms w fp r :
  scrape_nsn config nsn ms 180 w = (fp, Returns r) ->
  exists body,
    ApiSingle.scrape_nsn_suppliers_endpoint config nsn ms w true
    = ApiSingle.Answer body
    /\ map (fun s => (Api.si_companyName s, Api.si_cageCode s, Api.si_partNumber s))
         (ApiSingle.s_suppliers body)
       = map (fun x => (company_name x, cage_code x, part_number x))
           (List.filter counts_as_success (suppliers r))
    /\ Forall (fun s => Api.si_confidence s <> low) (ApiSingle.s_suppliers body)
    /\ (forall si, si ∈ ApiSingle.s_suppliers body ->
          exists x c, x ∈ suppliers r /\ contact x = Some c
            /\ Api.si_email si = email c /\ Api.si_phone si = phone c
            /\ Api.si_confidence si = confidence c)
    /\ ApiSingle.s_timedOut body = timed_out fp.
Proof.
  intros Hrun.
  assert (ApiSingle.pool_wait_outlasts config w = false) as Hwait.
  { unfold ApiSingle.pool_wait_outlasts.
    destruct (pool_started w) eqn:Hs; [|done].
    destruct (Pool.wait (lease w)) eqn:Hw; [done|].
    by rewrite (scrape_nsn_raises config nsn ms 180 w _ _ (stage_a_busy w Hs Hw))
      in Hrun. }
  unfold ApiSingle.scrape_nsn_suppliers_endpoint. rewrite Hwait, Hrun.
  cbn [snd andb negb]. eexists. split; [reflexivity|]. cbn [ApiSingle.s_suppliers ApiSingle.s_timedOut].
  split; [apply supplier_info_filter|].
  split; [apply supplier_info_not_low|].
  split; [apply supplier_info_contact|].
  apply scrape_nsn_inv in Hrun as (evs & dr & wr & _ & _ & -> & _ & -> & _).
  apply stage_c_timed_out.
Qed.

(** X20. The bounded-concurrent batch endpoint, for a batch that
    finishes in time: a batch of 1 to 50 items is answered with one
    result per item in submission order, [totalNsns] is the number of
    items and [successful + failed = totalNsns]; an item whose workflow
    raises becomes an error result carrying the submitted identifier and
    the exception's message, and no listed supplier has confidence low.
    Any other batch is rejected with 400 before any item is started. *)
Theorem batch_endpoint_accounts_for_every_item nsns ms worlds :
  match Api.scrape_nsns_suppliers_batch_endpoint config nsns ms worlds true with
  | (evs, Api.Ok body) =>
      (1 <= length nsns <= 50)%nat
      /\ length (Api.results body) = length nsns
      /\ Api.totalNsns body = Z.of_nat (length nsns)
      /\ Api.successful body + Api.failed body = Api.totalNsns body
      /\ (forall i nsn, nsns !! i = Some nsn ->
            exists res, Api.results body !! i = Some res
              /\ match (scrape_nsn config nsn ms 180 (worlds i)).2 with
                 | Returns out =>
                     Api.r_status res = "success"
                     /\ Api.r_nsn res = Workflow.nsn out
                     /\ Api.r_error res = None
                 | Raises e =>
                     res = Api.mkBatchSuppliersNSNResult nsn "error" None None []
                             false (Some (str e))
                 end)
      /\ Forall (fun res => Forall (fun s => Api.si_confidence s <> low)
                              (Api.r_suppliers res)) (Api.results body)
  | (evs, Api.HttpError code _) =>
      code = 400 /\ evs = [] /\ (nsns = [] \/ (50 < length nsns)%nat)
  end.
Proof.
  unfold Api.scrape_nsns_suppliers_batch_endpoint.
  destruct nsns as [|n0 ns] eqn:Hn; [by split; [|split; [|left]]|]. rewrite <- Hn.
  destruct (Nat.ltb_spec 50 (length nsns)) as [Hlen|Hlen];
    [by split; [|split; [|right]]|].
  cbn [Api.results Api.totalNsns Api.successful Api.failed].
  assert (map snd (imap (Api._limited_scrape config ms worlds) nsns)
          = imap (fun i nsn => (Api._scrape_one config ms (worlds i) nsn).2) nsns)
    as ->.
  { change (map snd) with (fmap (M:=list) (@snd (list Api.api_event)
                                              Api.BatchSuppliersNSNResult)).
    rewrite fmap_imap. apply imap_ext. intros i x _. apply limited_scrape_result. }
  assert (forall i nsn, nsns !! i = Some nsn ->
            imap (fun i nsn => (Api._scrape_one config ms (worlds i) nsn).2) nsns !! i
            = Some (Api._scrape_one config ms (worlds i) nsn).2) as Hlook.
  { intros i nsn Hi. by rewrite list_lookup_imap, Hi. }
  assert (Forall (fun res =>
            (Api.r_status res = "success" \/ Api.r_status res = "error")
            /\ Forall (fun s => Api.si_confidence s <> low) (Api.r_suppliers res))
            (imap (fun i nsn => (Api._scrape_one config ms (worlds i) nsn).2) nsns))
    as Hall.
  { apply Forall_lookup_2. intros i res Hres.
    rewrite list_lookup_imap in Hres.
    destruct (nsns !! i) as [nsn|]; [|done]. injection Hres as <-.
    pose proof (scrape_one_cases ms (worlds i) nsn) as Hcase.
    destruct (scrape_nsn config nsn ms 180 (worlds i)).2; rewrite Hcase; cbn.
    - split; [by left|apply supplier_info_not_low].
    - split; [by right|constructor]. }
  split; [split; [rewrite Hn; cbn; lia|done]|].
  split; [by rewrite length_imap|]. split; [done|].
  split; [rewrite count_status_total, length_imap;
          [done|by eapply Forall_impl; [exact Hall|intros ? []]]|].
  split; [|by eapply Forall_impl; [exact Hall|intros ? []]].
  intros i nsn Hi. eexists. split; [by apply Hlook|].
  pose proof (scrape_one_cases ms (worlds i) nsn) as Hcase.
  destruct (scrape_nsn config nsn ms 180 (worlds i)).2; rewrite Hcase; by cbn.
Qed.

End EndpointFacts.


(** With the defaults of [config.py] the pool-busy error comes too late
    for the endpoint: the answer is 504. *)
Example saturated_pool_with_default_timeout :
  forall in_time,
    ApiSingle.scrape_nsn_suppliers_endpoint Samples.config "5306003733291" 1
      ApiSingle.busy_world in_time
    = ApiSingle.ErrorResponse 504 (ApiSingle.Fixed "Supplier scrape timed out").
Proof. by intros []. Qed.

Lemma single_endpoint_keeps_usable_contacts_witness :
  exists body,
    ApiSingle.scrape_nsn_suppliers_endpoint Samples.config "5306003733291" 0
      Samples.low_world true = ApiSingle.Answer body
    /\ ApiSingle.s_suppliers body = []
    /\ ApiSingle.s_timedOut body = false.
Proof.
  destruct (single_endpoint_keeps_usable_contacts Samples.config "5306003733291"
              0 Samples.low_world _ _ eq_refl)
    as (body & Hbody & Hrows & _ & _ & Hflag).
  exists body. split; [exact Hbody|]. split; [|exact Hflag].
  by destruct (ApiSingle.s_suppliers body).
Defined.

(** ** Contact discovery *)

Section RetryFacts.
Import Firecrawl FirecrawlSpec.
Context {J : Type}.
Variable post : nat -> J + failure.
Variable jitter : nat -> Q.

Lemma gives_up_spec mr a f :
  gives_up mr a f
  = negb (retryable (inr f : J + failure)) || (Z.of_nat a =? mr - 1).
Proof.
  destruct f as [st| | |e]; cbn; [|done..].
  by destruct (permanent st).
Qed.

Lemma request_loop_spec mr t : forall a,
  (0 < t)%nat -> Z.of_nat (a + t) = mr ->
  exists k,
    (a <= k)%nat
    /\ attempts (request_loop post jitter mr a t) = S (k - a)
    /\ (k < a + t)%nat
    /\ answer (request_loop post jitter mr a t) = Some (post k)
    /\ sleeps (request_loop post jitter mr a t)
       = map (delay jitter) (seq a (k - a))
    /\ (forall i, (a <= i < k)%nat -> retryable (post i) = true)
    /\ (retryable (post k) = false \/ (S k = a + t)%nat).
Proof.
  induction t as [|t IH]; intros a Ht Hmr; [lia|].
  cbn [request_loop]. destruct (post a) as [json|f] eqn:Hpost.
  - exists a. rewrite Nat.sub_diag, Hpost. cbn.
    repeat split; [lia|lia|intros i; lia|by left].
  - rewrite gives_up_spec.
    destruct (retryable (inr f : J + failure)) eqn:Hretry; cbn [negb orb].
    + destruct (Z.eqb_spec (Z.of_nat a) (mr - 1)) as [Hlast|Hmore].
      * exists a. rewrite Nat.sub_diag, Hpost. cbn.
        repeat split; [lia|lia|intros i; lia|right; lia].
      * destruct (IH (S a)) as (k & Hk & Hatt & Hlt & Hans & Hsl & Hbefore & Hend);
          [lia|lia|].
        exists k. cbn [attempts sleeps answer]. rewrite Hatt, Hans, Hsl.
        replace (k - a)%nat with (S (k - S a)) by lia. cbn [seq map].
        repeat split; [lia|lia| |].
        -- intros i Hi. destruct (decide (i = a)) as [->|]; [by rewrite Hpost|].
           apply Hbefore. lia.
        -- destruct Hend as [?|?]; [by left|right; lia].
    + exists a. rewrite Nat.sub_diag, Hpost. cbn.
      repeat split; [lia|lia|intros i; lia|by left].
Qed.

Lemma allowed_clamp mr :
  Z.to_nat (if mr <? 1 then 1 else mr) = allowed mr.
Proof. unfold allowed. destruct (Z.ltb_spec mr 1); f_equal; lia. Qed.

Lemma firecrawl_request_spec mr :
  exists k,
    attempts (firecrawl_request post jitter mr) = S k
    /\ (S k <= allowed mr)%nat
    /\ answer (firecrawl_request post jitter mr) = Some (post k)
    /\ sleeps (firecrawl_request post jitter mr) = map (delay jitter) (seq 0 k)
    /\ (forall i, (i < k)%nat -> retryable (post i) = true)
    /\ (retryable (post k) = false \/ S k = allowed mr).
Proof.
  unfold firecrawl_request. rewrite allowed_clamp.
  destruct (request_loop_spec (if mr <? 1 then 1 else mr) (allowed mr) 0%nat)
    as (k & _ & Hatt & Hlt & Hans & Hsl & Hbefore & Hend).
  { unfold allowed. lia. }
  { rewrite <- allowed_clamp. destruct (Z.ltb_spec mr 1); lia. }
  exists k. rewrite Nat.sub_0_r in *. cbn in Hlt, Hend.
  repeat split; [done|lia|done|done|intros i Hi; apply Hbefore; lia|done].
Qed.

Lemma total_snoc l x : (total (l ++ [x]) == total l + x)%Q.
Proof.
  unfold total. induction l as [|y l IH]; cbn [app fold_right]; [lra|].
  rewrite IH. lra.
Qed.

Lemma inject_Z_bound a b :
  (inject_Z (a - 1 + b) == inject_Z a + inject_Z b - 1)%Q.
Proof.
  unfold Qeq, Qminus, Qplus, Qopp, inject_Z. cbn. lia.
Qed.

Lemma total_delays k :
  (forall i, 0 <= jitter i <= 1)%Q ->
  (total (map (delay jitter) (seq 0 k))
   <= inject_Z (2 ^ Z.of_nat k - 1 + Z.of_nat k))%Q.
Proof.
  intros Hj. induction k as [|k IH]; [by cbn|].
  rewrite seq_S, map_app. cbn [map Nat.add]. rewrite total_snoc.
  unfold delay in IH |- *. destruct (Hj k) as [_ Hle].
  rewrite inject_Z_bound in IH |- *.
  rewrite Nat2Z.inj_succ, Z.pow_succ_r by lia.
  rewrite <- Z.add_1_r, inject_Z_plus, inject_Z_mult.
  change (inject_Z 1) with 1%Q. change (inject_Z 2) with 2%Q.
  assert (1 <= inject_Z (2 ^ Z.of_nat k))%Q as Hpow.
  { change 1%Q with (inject_Z 1). rewrite <- Zle_Qle.
    pose proof (Z.pow_pos_nonneg 2 (Z.of_nat k)). lia. }
  lra.
Qed.

(** X21. [firecrawl_request] tries until the first outcome that is not
    retryable (an answer, a 400, 401, 403 or 404, or an exception it
    does not catch) or until [max(1, max_retries)] attempts are used up;
    it returns or raises the outcome of its last attempt, so it never
    leaves the loop without a result, and it sleeps
    [2 ** attempt + random.uniform(0, 1)] after each attempt but the
    last. *)
Theorem firecrawl_request_stops_at_first_final_outcome max_retries :
  exists k,
    attempts (firecrawl_request post jitter max_retries) = S k
    /\ (S k <= allowed max_retries)%nat
    /\ answer (firecrawl_request post jitter max_retries) = Some (post k)
    /\ sleeps (firecrawl_request post jitter max_retries)
       = map (delay jitter) (seq 0 k)
    /\ (forall i, (i < k)%nat -> retryable (post i) = true)
    /\ (retryable (post k) = false \/ S k = allowed max_retries).
Proof. apply firecrawl_request_spec. Qed.

(** X22. The back-off is bounded: with the jitter in [0, 1], a call
    allowed [n] attempts sleeps at most [2 ** (n - 1) + n - 2] seconds in
    all (5 seconds for the default of three attempts). *)
Theorem firecrawl_request_backoff_is_bounded max_retries :
  (forall i, 0 <= jitter i <= 1)%Q ->
  (total (sleeps (firecrawl_request post jitter max_retries))
   <= inject_Z (2 ^ (Z.of_nat (allowed max_retries) - 1)
                + Z.of_nat (allowed max_retries) - 2))%Q.
Proof.
  intros Hj.
  destruct (firecrawl_request_spec max_retries) as (k & _ & Hk & _ & -> & _).
  eapply Qle_trans; [by apply total_delays|].
  rewrite <- Zle_Qle.
  assert (2 ^ Z.of_nat k <= 2 ^ (Z.of_nat (allowed max_retries) - 1))
    by (apply Z.pow_le_mono_r; lia).
  lia.
Qed.

End RetryFacts.

Lemma firecrawl_request_backoff_is_bounded_witness :
  (FirecrawlSpec.total
     (Firecrawl.sleeps
        (Firecrawl.firecrawl_request FirecrawlSpec.sample_post (fun _ => 1 # 2) 3))
   <= 5)%Q.
Proof.
  apply (firecrawl_request_backoff_is_bounded FirecrawlSpec.sample_post
           (fun _ => 1 # 2)%Q 3).
  intros _. split; discriminate.
Defined.

Section ExtractFacts.
Import Firecrawl FirecrawlSpec.
Variable config : Config.
Variable urlparse : string -> outcome (string * string).
Variable scrape : string -> scrape_reply.

Lemma calculate_confidence_phone e p a w :
  calculate_confidence e p a w <> Workflow.low -> p = true.
Proof. unfold calculate_confidence. by destruct e, p, a, w. Qed.

Lemma confidence_order_pos c : 1 <= confidence_order c.
Proof. by destruct c. Qed.

Lemma best_rank_pos l : 1 <= best_rank l.
Proof. unfold best_rank. induction l as [|c l IH]; cbn; lia. Qed.

Lemma best_rank_snoc l c :
  best_rank (l ++ [c]) = Z.max (best_rank l) (confidence_order c).
Proof.
  unfold best_rank. induction l as [|d l IH]; cbn.
  - pose proof (confidence_order_pos c). lia.
  - rewrite IH. lia.
Qed.

Lemma build_best_inv emails phones address persons conf b :
  build_best emails phones address persons conf = Returns b ->
  persons = Returns (best_additional_contacts b)
  /\ first_or_none emails = Returns (best_email b)
  /\ first_or_none phones = Returns (best_phone b)
  /\ address = best_address b
  /\ best_conf b = conf.
Proof.
  unfold build_best. destruct persons as [l|]; [|done].
  destruct (first_or_none emails) as [e|]; [|done].
  destruct (first_or_none phones) as [p|]; [|done].
  by intros [= <-].
Qed.

Lemma build_best_raises emails phones address persons conf conf' e :
  build_best emails phones address persons conf = Raises e ->
  build_best emails phones address persons conf' = Raises e.
Proof.
  unfold build_best. destruct persons as [l|]; [|done].
  destruct (first_or_none emails); [|done].
  by destruct (first_or_none phones).
Qed.

Lemma build_best_built website_url url emails phones address persons b :
  scrape url = ScrapeReply true emails phones address persons ->
  build_best emails phones address persons
    (calculate_confidence (has emails) (has phones) (truth_of address)
       (truthy website_url)) = Returns b ->
  best_conf b <> Workflow.low ->
  built_from scrape website_url url b.
Proof.
  intros Hreply (Hp & He & Hph & Ha & Hc)%build_best_inv Hlow.
  pose proof Hlow as Hhas. rewrite Hc in Hhas.
  apply calculate_confidence_phone in Hhas.
  destruct phones as [|first]; [done|]. cbn in Hph. subst first.
  exists emails, address. rewrite Hreply, Hp, Hc. by cbn.
Qed.

Lemma rank_with website_url l url :
  best_rank (map (page_confidence scrape website_url) (l ++ [url]))
  = Z.max (best_rank (map (page_confidence scrape website_url) l))
      (confidence_order (page_confidence scrape website_url url)).
Proof. rewrite map_app. cbn [map]. apply best_rank_snoc. Qed.

Lemma builds_with l url :
  forallb (page_builds scrape) (l ++ [url]) = true ->
  forallb (page_builds scrape) l = true /\ page_builds scrape url = true.
Proof.
  rewrite forallb_app. cbn. rewrite andb_true_r. by intros [? ?]%andb_true_iff.
Qed.

(** A page that does not beat [best_confidence] leaves the variables as
    they are. *)
Lemma tracked_skip website_url st url :
  tracked scrape website_url st ->
  confidence_order (page_confidence scrape website_url url)
  <= confidence_order (best_confidence st) ->
  tracked scrape website_url
    (mkScrapeState (best_result st) (best_confidence st) (contact_page_url st)
       (requested st ++ [url])).
Proof.
  intros (Hle & Hbest & Heq) Hpage. unfold tracked.
  cbn [best_result best_confidence requested]. rewrite rank_with.
  split; [lia|]. split.
  - destruct (best_result st) as [b|]; [|done].
    destruct Hbest as (Hlow & Hb & u & Hu & Hbuilt).
    split; [done|]. split; [done|]. exists u. split; [|done].
    apply elem_of_app. by left.
  - intros (Hall & _)%builds_with. destruct (Heq Hall) as (Hrank & Hres).
    split; [lia|done].
Qed.

(** A page that beats [best_confidence] and from which [best_result]
    cannot be built. *)
Lemma tracked_raise website_url st url page_url :
  tracked scrape website_url st ->
  confidence_order (best_confidence st)
  < confidence_order (page_confidence scrape website_url url) ->
  page_builds scrape url = false ->
  tracked scrape website_url
    (mkScrapeState (best_result st) (page_confidence scrape website_url url)
       page_url (requested st ++ [url])).
Proof.
  intros (Hle & Hbest & Heq) Hpage Hno. unfold tracked.
  cbn [best_result best_confidence requested]. rewrite rank_with.
  split; [lia|]. split.
  - destruct (best_result st) as [b|]; [|done].
    destruct Hbest as (Hlow & Hb & u & Hu & Hbuilt).
    split; [done|]. split; [lia|]. exists u. split; [|done].
    apply elem_of_app. by left.
  - intros (_ & Hyes)%builds_with. congruence.
Qed.

(** A page that beats [best_confidence] and from which [best_result]
    is built. *)
Lemma tracked_build website_url st url page_url b :
  tracked scrape website_url st ->
  confidence_order (best_confidence st)
  < confidence_order (page_confidence scrape website_url url) ->
  built_from scrape website_url url b ->
  best_conf b = page_confidence scrape website_url url ->
  tracked scrape website_url
    (mkScrapeState (Some b) (page_confidence scrape website_url url)
       page_url (requested st ++ [url])).
Proof.
  intros (Hle & Hbest & Heq) Hpage Hbuilt Hconf. unfold tracked.
  cbn [best_result best_confidence requested]. rewrite rank_with.
  pose proof (confidence_order_pos (best_confidence st)) as Hpos.
  split; [lia|]. split.
  - rewrite Hconf. split.
    + intros Hlow. rewrite Hlow in Hpage. cbn in Hpage. lia.
    + split; [lia|]. exists url. split; [|done]. apply elem_of_app. right. by left.
  - intros (Hall & _)%builds_with. destruct (Heq Hall) as (Hrank & _).
    split; [lia|done].
Qed.

Lemma scrape_loop_tracked website_url urls : forall st,
  tracked scrape website_url st ->
  tracked scrape website_url (scrape_loop scrape website_url urls st).
Proof.
  induction urls as [|url urls IH]; intros st Hst; [done|].
  cbn [scrape_loop].
  pose proof (confidence_order_pos (best_confidence st)) as Hpos.
  pose proof (tracked_skip website_url st url Hst) as Hskip.
  pose proof (tracked_raise website_url st url
                (if contains "/contact" url then Some url else None) Hst) as Hraise.
  pose proof (fun b =>
                tracked_build website_url st url
                  (if contains "/contact" url then Some url else None) b Hst)
    as Hbuild.
  pose proof (build_best_built website_url url) as Hbuilt.
  unfold page_confidence, page_builds in Hskip, Hraise, Hbuild.
  destruct (scrape url) as [|[] emails phones address persons] eqn:Hreply.
  - apply IH, Hskip. cbn [confidence_order]. lia.
  - cbn [best_confidence best_result contact_page_url requested].
    specialize (Hbuilt emails phones address persons).
    set (conf := calculate_confidence _ _ _ _) in *.
    destruct (Z.ltb_spec (confidence_order (best_confidence st))
                         (confidence_order conf)) as [Hlt|Hge].
    + destruct (build_best emails phones address persons conf) as [b|e] eqn:Hb.
      * assert (best_conf b = conf) as Hconf
          by by apply build_best_inv in Hb as (_ & _ & _ & _ & ?).
        assert (best_conf b <> Workflow.low) as Hlow.
        { rewrite Hconf. intros Hl. rewrite Hl in Hlt. cbn in Hlt. lia. }
        specialize (Hbuild b Hlt (Hbuilt b eq_refl eq_refl Hlow) Hconf).
        by destruct conf; [|apply IH..].
      * apply IH, Hraise; [done|].
        by rewrite (build_best_raises _ _ _ _ _ Workflow.low _ Hb).
    + apply IH, Hskip. lia.
  - apply IH, Hskip. cbn [confidence_order]. lia.
Qed.

Lemma scrape_loop_requested website_url urls : forall st,
  exists n,
    requested (scrape_loop scrape website_url urls st)
    = requested st ++ take n urls
    /\ (urls <> [] -> (0 < n)%nat)
    /\ (forall url rest, urls = url :: rest ->
          page_confidence scrape website_url url = Workflow.high ->
          page_builds scrape url = true ->
          confidence_order (best_confidence st) < 3 -> n = 1%nat).
Proof.
  induction urls as [|url urls IH]; intros st.
  { exists 0%nat. cbn. by rewrite app_nil_r. }
  assert (forall st',
            requested st' = requested st ++ [url] ->
            page_confidence scrape website_url url <> Workflow.high
            \/ page_builds scrape url = false
            \/ 3 <= confidence_order (best_confidence st) ->
            exists n,
              requested (scrape_loop scrape website_url urls st')
              = requested st ++ take n (url :: urls)
              /\ (url :: urls <> [] -> (0 < n)%nat)
              /\ (forall url' rest, url :: urls = url' :: rest ->
                    page_confidence scrape website_url url' = Workflow.high ->
                    page_builds scrape url' = true ->
                    confidence_order (best_confidence st) < 3 -> n = 1%nat))
    as Hgo.
  { intros st' Hreq Hnot. destruct (IH st') as (n & -> & _).
    exists (S n). rewrite Hreq, <- app_assoc. split; [done|]. split; [lia|].
    intros url' rest [= <- <-] Hhigh Hyes Hbelow.
    destruct Hnot as [?|[?|?]]; [done|congruence|lia]. }
  cbn [scrape_loop]. remember (page_confidence scrape website_url url) as pc eqn:Hpc.
  remember (page_builds scrape url) as pb eqn:Hpb.
  unfold page_confidence in Hpc. unfold page_builds in Hpb.
  destruct (scrape url) as [|[] emails phones address persons] eqn:Hreply.
  - apply Hgo; [done|]. left. by rewrite Hpc.
  - cbn [best_confidence best_result contact_page_url requested].
    set (conf := calculate_confidence _ _ _ _) in *.
    destruct (Z.ltb_spec (confidence_order (best_confidence st))
                         (confidence_order conf)) as [Hlt|Hge].
    + destruct (build_best emails phones address persons conf) as [b|e] eqn:Hb.
      * destruct conf eqn:Hconf.
        -- exists 1%nat. cbn [requested take]. rewrite take_0.
           split; [done|]. split; [lia|done].
        -- apply Hgo; [done|]. left. by rewrite Hpc.
        -- apply Hgo; [done|]. left. by rewrite Hpc.
      * apply Hgo; [done|]. right. left.
        by rewrite Hpb, (build_best_raises _ _ _ _ _ Workflow.low _ Hb).
    + apply Hgo; [done|]. destruct conf eqn:Hconf.
      * right. right. cbn in Hge. lia.
      * left. by rewrite Hpc.
      * left. by rewrite Hpc.
  - apply Hgo; [done|]. left. by rewrite Hpc.
Qed.

Lemma tracked_initial website_url :
  tracked scrape website_url (mkScrapeState None Workflow.low None []).
Proof. by repeat split. Qed.

Lemma contact_of_best_inv website_url company_name timestamp page_url b c :
  contact_of_best website_url company_name timestamp page_url b = Returns c ->
  as_optional_str (best_email b) = Returns (email c)
  /\ as_optional_str (best_phone b) = Returns (phone c)
  /\ as_optional_str (best_address b) = Returns (address c)
  /\ additionalContacts c = best_additional_contacts b
  /\ confidence c = best_conf b
  /\ contactPage c = page_url
  /\ companyName c = company_name
  /\ website c = Some website_url
  /\ source c = "firecrawl_scrape"
  /\ scrapedAt c = timestamp.
Proof.
  unfold contact_of_best.
  destruct (as_optional_str (best_email b)) as [e|]; [|done].
  destruct (as_optional_str (best_phone b)) as [p|]; [|done].
  destruct (as_optional_str (best_address b)) as [a|]; [|done].
  by intros [= <-].
Qed.

Lemma contact_of_best_raises website_url company_name timestamp page_url b e :
  contact_of_best website_url company_name timestamp page_url b = Raises e ->
  exists v,
    v ∈ [best_email b; best_phone b; best_address b]
    /\ as_optional_str v = Raises e.
Proof.
  unfold contact_of_best.
  destruct (as_optional_str (best_email b)) as [em|e1] eqn:He.
  2: { intros [= <-]. exists (best_email b). split; [set_solver|done]. }
  destruct (as_optional_str (best_phone b)) as [p|e2] eqn:Hp.
  2: { intros [= <-]. exists (best_phone b). split; [set_solver|done]. }
  destruct (as_optional_str (best_address b)) as [a|e3] eqn:Ha; [done|].
  intros [= <-]. exists (best_address b). split; [set_solver|done].
Qed.

Lemma built_from_values website_url url b v e :
  built_from scrape website_url url b ->
  v ∈ [best_email b; best_phone b; best_address b] ->
  as_optional_str v = Raises e ->
  v ∈ page_values scrape url.
Proof.
  intros (emails & address & Hreply & _ & Hemail & ->) Hv Hraise.
  unfold page_values. rewrite Hreply. cbn [firsts].
  apply elem_of_cons in Hv as [->|Hv].
  - destruct emails as [|[first|]]; cbn in Hemail; [|injection Hemail as ->|done].
    + injection Hemail as Hnull. by rewrite <- Hnull in Hraise.
    + cbn [firsts]. apply elem_of_app. left. by left.
  - apply elem_of_app. right. exact Hv.
Qed.

(** The three ways [extract_contact_info] ends. *)
Lemma extract_contact_info_inv website_url company_name timestamp reqs out :
  extract_contact_info config urlparse scrape website_url company_name timestamp
  = (reqs, out) ->
  (is_firecrawl_configured config = false /\ reqs = []
   /\ out = Returns (empty_contact website_url company_name timestamp))
  \/ (is_firecrawl_configured config = true /\ reqs = []
      /\ is_contact_like website_url = false
      /\ exists e, urlparse website_url = Raises e /\ out = Raises e)
  \/ (is_firecrawl_configured config = true
      /\ exists urls st,
           (urls = [website_url]
            \/ is_contact_like website_url = false
               /\ exists scheme netloc,
                    urlparse website_url = Returns (scheme, netloc)
                    /\ urls = [website_url;
                               scheme +:+ "://" +:+ netloc +:+ "/contact"])
           /\ st = scrape_loop scrape website_url urls
                     (mkScrapeState None Workflow.low None [])
           /\ reqs = requested st
           /\ out = match best_result st with
                    | Some best =>
                        contact_of_best website_url company_name timestamp
                          (contact_page_url st) best
                    | None =>
                        Returns (empty_contact website_url company_name timestamp)
                    end).
Proof.
  unfold extract_contact_info.
  destruct (is_firecrawl_configured config); cbn [negb].
  - intros H. right.
    destruct (is_contact_like website_url) eqn:Hlike; cbn [negb] in H.
    + injection H as <- <-. right. split; [done|]. eexists _, _. by split; [left|].
    + destruct (urlparse website_url) as [[scheme netloc]|e] eqn:Hparse.
      * injection H as <- <-. right. split; [done|]. eexists _, _.
        split; [right; split; [done|by exists scheme, netloc]|done].
      * injection H as <- <-. left. split; [done|]. split; [done|].
        split; [done|]. by exists e.
  - intros [= <- <-]. by left.
Qed.

Lemma extract_contact_info_backed website_url company_name timestamp reqs c :
  extract_contact_info config urlparse scrape website_url company_name timestamp
  = (reqs, Returns c) ->
  backed scrape website_url reqs c
  /\ companyName c = company_name
  /\ website c = Some website_url
  /\ source c = "firecrawl_scrape"
  /\ scrapedAt c = timestamp.
Proof.
  intros [(_ & _ & [= ->])|[(_ & _ & _ & e & _ & [=])
                           |(_ & urls & st & _ & Hst & -> & Hout)]]%extract_contact_info_inv;
    [done|].
  pose proof (scrape_loop_tracked website_url urls _ (tracked_initial website_url))
    as (_ & Hbest & _).
  rewrite <- Hst in Hbest. destruct (best_result st) as [b|]; [|by injection Hout as ->].
  symmetry in Hout.
  apply contact_of_best_inv in Hout
    as (He & Hp & Ha & Hadd & Hconf & _ & Hname & Hweb & Hsrc & Hstamp).
  split; [|done]. destruct Hbest as (Hlow & _ & url & Hurl & Hbuilt).
  unfold backed. rewrite Hconf.
  destruct (best_conf b) eqn:Hb; [..|done]; by exists url, b.
Qed.

Lemma extract_contact_info_raises website_url company_name timestamp reqs e :
  extract_contact_info config urlparse scrape website_url company_name timestamp
  = (reqs, Raises e) ->
  is_firecrawl_configured config = true
  /\ (urlparse website_url = Raises e /\ is_contact_like website_url = false
      /\ reqs = []
      \/ exists url v,
           url ∈ reqs /\ v ∈ page_values scrape url
           /\ as_optional_str v = Raises e).
Proof.
  intros [(_ & _ & [=])|[(Hc & -> & Hlike & e' & Hparse & [= <-])
                        |(Hc & urls & st & _ & Hst & -> & Hout)]]%extract_contact_info_inv.
  { split; [done|]. by left. }
  split; [done|]. right.
  pose proof (scrape_loop_tracked website_url urls _ (tracked_initial website_url))
    as (_ & Hbest & _).
  rewrite <- Hst in Hbest. destruct (best_result st) as [b|]; [|done].
  symmetry in Hout. apply contact_of_best_raises in Hout as (v & Hv & Hraise).
  destruct Hbest as (_ & _ & url & Hurl & Hbuilt).
  exists url, v. split; [done|]. split; [|done].
  by apply (built_from_values website_url url b v e).
Qed.

(** X23. A contact returned by [extract_contact_info] is named after
    the company and points at the given website. With low confidence it
    carries no email, phone, address, contact page or contact person,
    whatever the pages yielded. With medium or high confidence it
    carries the data of one page that was scraped, a page whose
    [phones] was not empty and which gives this confidence on its own:
    the page's first email, first phone and address, as the model
    validates them, and its contact persons. The first phone or email
    itself may be [null] or empty. *)
Theorem extracted_contact_backs_its_confidence website_url company_name
    timestamp reqs c :
  extract_contact_info config urlparse scrape website_url company_name timestamp
  = (reqs, Returns c) ->
  backed scrape website_url reqs c
  /\ companyName c = company_name
  /\ website c = Some website_url
  /\ source c = "firecrawl_scrape"
  /\ scrapedAt c = timestamp.
Proof. apply extract_contact_info_backed. Qed.

(** X24. [extract_contact_info] scrapes the website first and at most
    one more page, the site's [/contact] page; it stops after the
    website when its URL already looks like a contact page, or when that
    page alone gives high confidence and its data can be read. The
    contact's confidence is at most the best one among the pages it
    scraped, and it is the best one when the data of every page scraped
    could be read. *)
Theorem extraction_scrapes_at_most_two_pages website_url company_name
    timestamp reqs c :
  is_firecrawl_configured config = true ->
  extract_contact_info config urlparse scrape website_url company_name timestamp
  = (reqs, Returns c) ->
  head reqs = Some website_url
  /\ (length reqs <= 2)%nat
  /\ (forall url, reqs !! 1%nat = Some url ->
        is_contact_like website_url = false
        /\ exists scheme netloc,
             urlparse website_url = Returns (scheme, netloc)
             /\ url = scheme +:+ "://" +:+ netloc +:+ "/contact")
  /\ (page_confidence scrape website_url website_url = Workflow.high
      /\ page_builds scrape website_url = true
      \/ is_contact_like website_url = true -> reqs = [website_url])
  /\ confidence_order (confidence c)
     <= best_rank (map (page_confidence scrape website_url) reqs)
  /\ (forallb (page_builds scrape) reqs = true ->
      confidence_order (confidence c)
      = best_rank (map (page_confidence scrape website_url) reqs)).
Proof.
  intros Hconf [(Hno & _)|[(_ & _ & _ & e & _ & [=])
                          |(_ & urls & st & Hurls & Hst & -> & Hout)]]%extract_contact_info_inv;
    [congruence|].
  pose proof (scrape_loop_tracked website_url urls _ (tracked_initial website_url))
    as (Hrank & Hbest & Heq).
  destruct (scrape_loop_requested website_url urls
              (mkScrapeState None Workflow.low None [])) as (n & Hreq & Hpos & Hstop).
  rewrite <- Hst in Hrank, Hbest, Heq, Hreq. cbn [requested app] in Hreq.
  pose proof (best_rank_pos (map (page_confidence scrape website_url) (requested st)))
    as Hone.
  assert (confidence_order (confidence c)
          <= best_rank (map (page_confidence scrape website_url) (requested st))
          /\ (forallb (page_builds scrape) (requested st) = true ->
              confidence_order (confidence c)
              = best_rank (map (page_confidence scrape website_url) (requested st))))
    as Hc.
  { destruct (best_result st) as [b|].
    - symmetry in Hout.
      apply contact_of_best_inv in Hout as (_ & _ & _ & _ & -> & _).
      destruct Hbest as (_ & Hle & _). split; [lia|].
      intros Hall. destruct (Heq Hall) as (<- & ->). done.
    - injection Hout as ->. cbn. split; [lia|].
      intros Hall. destruct (Heq Hall) as (<- & ->). done. }
  destruct Hurls as [->|(Hlike & scheme & netloc & Hparse & ->)].
  - specialize (Hpos ltac:(done)).
    assert (requested st = [website_url]) as Hr.
    { rewrite Hreq. destruct n as [|n]; [lia|]. cbn. by rewrite take_nil. }
    rewrite Hr in Hc |- *.
    split; [done|]. split; [cbn; lia|]. by split; [|split].
  - specialize (Hpos ltac:(done)).
    destruct n as [|[|n]]; [lia|..].
    + assert (requested st = [website_url]) as Hr by by rewrite Hreq.
      rewrite Hr in Hc |- *.
      split; [done|]. split; [cbn; lia|]. by split; [|split].
    + assert (requested st
              = [website_url; scheme +:+ "://" +:+ netloc +:+ "/contact"]) as Hr.
      { rewrite Hreq. cbn. by rewrite take_nil. }
      rewrite Hr in Hc |- *.
      split; [done|]. split; [cbn; lia|]. split; [|split; [|done]].
      * intros url [= <-]. split; [done|]. by exists scheme, netloc.
      * intros [[Hhigh Hyes]|?]; [|congruence].
        by discriminate (Hstop _ _ eq_refl Hhigh Hyes ltac:(done)).
Qed.

End ExtractFacts.

Section FindFacts.
Import Firecrawl FirecrawlSpec.
Variable config : Config.
Variable urlparse : string -> outcome (string * string).
Variable scrape : string -> scrape_reply.
Variable search_supplier_website : string -> option string -> option (option string).

Lemma find_supplier_contact_cases company_name cage_code known_website timestamp :
  let out := find_supplier_contact config urlparse scrape search_supplier_website
               company_name cage_code known_website timestamp in
  (exists searched website_url,
     out = (searched,
            (extract_contact_info config urlparse scrape website_url company_name
               timestamp).1,
            (extract_contact_info config urlparse scrape website_url company_name
               timestamp).2)
     /\ (searched = false <-> truthy_opt known_website = true))
  \/ (out = (true, [],
             Returns (mkSupplierContact company_name None None None None None []
                        "firecrawl_search" Workflow.low timestamp))
      /\ truthy_opt known_website = false).
Proof.
  cbv zeta. unfold find_supplier_contact.
  assert (truthy_opt known_website = false ->
          (exists searched website_url,
             match search_supplier_website company_name cage_code with
             | Some (Some website_url) =>
                 if truthy website_url
                 then (true,
                       (extract_contact_info config urlparse scrape website_url
                          company_name timestamp).1,
                       (extract_contact_info config urlparse scrape website_url
                          company_name timestamp).2)
                 else (true, [],
                       Returns (mkSupplierContact company_name None None None None
                                  None [] "firecrawl_search" Workflow.low timestamp))
             | _ => (true, [],
                     Returns (mkSupplierContact company_name None None None None
                                None [] "firecrawl_search" Workflow.low timestamp))
             end
             = (searched,
                (extract_contact_info config urlparse scrape website_url
                   company_name timestamp).1,
                (extract_contact_info config urlparse scrape website_url
                   company_name timestamp).2)
             /\ (searched = false <-> truthy_opt known_website = true))
          \/ (match search_supplier_website company_name cage_code with
              | Some (Some website_url) =>
                  if truthy website_url
                  then (true,
                        (extract_contact_info config urlparse scrape website_url
                           company_name timestamp).1,
                        (extract_contact_info config urlparse scrape website_url
                           company_name timestamp).2)
                  else (true, [],
                        Returns (mkSupplierContact company_name None None None None
                                   None [] "firecrawl_search" Workflow.low timestamp))
              | _ => (true, [],
                      Returns (mkSupplierContact company_name None None None None
                                 None [] "firecrawl_search" Workflow.low timestamp))
              end
              = (true, [],
                 Returns (mkSupplierContact company_name None None None None None []
                            "firecrawl_search" Workflow.low timestamp))
              /\ truthy_opt known_website = false)) as Hsearch.
  { intros Hk.
    destruct (search_supplier_website company_name cage_code) as [[u|]|];
      [|by right..].
    destruct (truthy u); [|by right].
    left. exists true, u. split; [done|]. rewrite Hk. by split. }
  destruct known_website as [known|]; [|by apply Hsearch].
  destruct (truthy known) eqn:Hk; [|by apply Hsearch].
  left. exists false, known. split; [done|]. cbn. by rewrite Hk.
Qed.

(** X25. [find_supplier_contact] returns a contact named after the
    company. A contact with a website is backed as that of
    [extract_contact_info] is: with low confidence it carries no contact
    data; with medium or high confidence it carries the first email,
    first phone and address of one scraped page whose [phones] was not
    empty and which gives this confidence. A contact without a website
    is of low confidence with source [firecrawl_search] and carries no
    contact data. The call raises only what [urlparse] raises on the
    website, before any page is scraped, or the validation error of a
    first email, first phone or address of a scraped page. A known
    website skips the search, and without a Firecrawl key no page is
    scraped. *)
Theorem found_contact_backs_its_confidence company_name cage_code known_website
    timestamp :
  let out := find_supplier_contact config urlparse scrape search_supplier_website
               company_name cage_code known_website timestamp in
  match out.2 with
  | Returns c =>
      companyName c = company_name
      /\ scrapedAt c = timestamp
      /\ (forall website_url,
            website c = Some website_url -> backed scrape website_url out.1.2 c)
      /\ (website c = None ->
          confidence c = Workflow.low /\ source c = "firecrawl_search"
          /\ email c = None /\ phone c = None /\ address c = None
          /\ contactPage c = None /\ additionalContacts c = [])
  | Raises e =>
      is_firecrawl_configured config = true
      /\ ((exists website_url,
             urlparse website_url = Raises e /\ is_contact_like website_url = false)
          /\ out.1.2 = []
          \/ exists url v,
               url ∈ out.1.2 /\ v ∈ page_values scrape url
               /\ as_optional_str v = Raises e)
  end
  /\ (truthy_opt known_website = true -> out.1.1 = false)
  /\ (is_firecrawl_configured config = false -> out.1.2 = []).
Proof.
  cbv zeta.
  destruct (find_supplier_contact_cases company_name cage_code known_website
              timestamp) as [(searched & url & -> & Hs)|(-> & Hk)]; cbv zeta.
  - cbn [fst snd].
    destruct (extract_contact_info config urlparse scrape url company_name timestamp)
      as [reqs [c|e]] eqn:Hex; cbn [fst snd].
    + destruct (extract_contact_info_backed config urlparse scrape _ _ _ _ _ Hex)
        as (Hsup & Hname & Hweb & _ & Hstamp).
      split.
      * split; [done|]. split; [done|]. split; [|by rewrite Hweb].
        intros w Hw. rewrite Hweb in Hw. by injection Hw as <-.
      * split; [by apply Hs|].
        intros Hno.
        apply extract_contact_info_inv in Hex as [(_ & -> & _)|[(_ & -> & _)|[? _]]];
          [done|done|congruence].
    + destruct (extract_contact_info_raises config urlparse scrape _ _ _ _ _ Hex)
        as (Hc & Hhow).
      split.
      * split; [done|].
        destruct Hhow as [(Hparse & Hlike & ->)|Hval]; [left|by right].
        split; [by exists url|done].
      * split; [by apply Hs|]. congruence.
  - cbn [fst snd]. split; [by repeat split|]. split; [congruence|done].
Qed.

End FindFacts.

Section DiscoveryExamples.
Import Workflow StageCSpec.

Lemma extracted_contact_backs_its_confidence_witness :
  exists reqs c,
    Firecrawl.extract_contact_info Samples.config FirecrawlSpec.sample_urlparse
      FirecrawlSpec.sample_scrape "https://acme.example" "Acme"
      "2026-01-01T00:00:00Z" = (reqs, Returns c)
    /\ Firecrawl.confidence c = high
    /\ FirecrawlSpec.backed FirecrawlSpec.sample_scrape "https://acme.example"
         reqs c.
Proof.
  eexists _, _. split; [vm_compute; reflexivity|]. split; [reflexivity|].
  refine (proj1 (extracted_contact_backs_its_confidence Samples.config
                   FirecrawlSpec.sample_urlparse FirecrawlSpec.sample_scrape
                   "https://acme.example" "Acme" "2026-01-01T00:00:00Z" _ _ _)).
  vm_compute. reflexivity.
Defined.

Lemma extraction_scrapes_at_most_two_pages_witness :
  exists reqs c,
    Firecrawl.extract_contact_info Samples.config FirecrawlSpec.sample_urlparse
      FirecrawlSpec.sample_scrape "https://acme.example" "Acme"
      "2026-01-01T00:00:00Z" = (reqs, Returns c)
    /\ head reqs = Some "https://acme.example"
    /\ (length reqs <= 2)%nat.
Proof.
  eexists _, _. split; [vm_compute; reflexivity|].
  refine ((fun H => conj (proj1 H) (proj1 (proj2 H)))
            (extraction_scrapes_at_most_two_pages Samples.config
               FirecrawlSpec.sample_urlparse FirecrawlSpec.sample_scrape
               "https://acme.example" "Acme" "2026-01-01T00:00:00Z" _ _ _ _)).
  - vm_compute. reflexivity.
  - vm_compute. reflexivity.
Defined.

(** A page with [phones: [null]] gives a contact of medium confidence
    without a phone number. *)
Example medium_contact_without_a_phone :
  Firecrawl.extract_contact_info Samples.config FirecrawlSpec.sample_urlparse
    FirecrawlSpec.null_phone_scrape "https://acme.example" "Acme"
    "2026-01-01T00:00:00Z"
  = (["https://acme.example"; "https://acme.example/contact"],
     Returns
       (Firecrawl.mkSupplierContact "Acme" None None None
          (Some "https://acme.example") None [] "firecrawl_scrape" medium
          "2026-01-01T00:00:00Z")).
Proof. vm_compute. reflexivity. Qed.

(** A main page of high confidence whose contact persons cannot be read
    raises [best_confidence] without setting [best_result]; the contact
    page, of medium confidence, is then passed over, and the contact is
    empty. *)
Example unread_page_hides_the_next :
  Firecrawl.extract_contact_info Samples.config FirecrawlSpec.sample_urlparse
    FirecrawlSpec.broken_person_scrape "https://acme.example" "Acme"
    "2026-01-01T00:00:00Z"
  = (["https://acme.example"; "https://acme.example/contact"],
     Returns
       (Firecrawl.empty_contact "https://acme.example" "Acme"
          "2026-01-01T00:00:00Z")).
Proof. vm_compute. reflexivity. Qed.

(** A first email that the model rejects makes the call raise. *)
Example rejected_email_raises :
  Firecrawl.extract_contact_info Samples.config FirecrawlSpec.sample_urlparse
    FirecrawlSpec.number_email_scrape "https://acme.example" "Acme"
    "2026-01-01T00:00:00Z"
  = (["https://acme.example"; "https://acme.example/contact"],
     Raises (ValueError "Input should be a valid string")).
Proof. vm_compute. reflexivity. Qed.

End DiscoveryExamples.

(** ** More on the merge *)

Section MergeFacts.
Import Merge.

Lemma dedup_from_complete {K} `{EqDecision K} (key : Supplier -> K) l :
  forall seen x,
    x ∈ l ->
    key x ∈ seen \/ exists s, s ∈ dedup_from key seen l /\ key s = key x.
Proof.
  induction l as [|y l IH]; intros seen x; [by rewrite elem_of_nil|].
  rewrite elem_of_cons. cbn [dedup_from]. intros [->|Hx].
  - case_bool_decide as Hy; [by left|].
    right. exists y. split; [by left|done].
  - case_bool_decide as Hy; [by apply IH|].
    destruct (IH (key y :: seen) x Hx) as [[Heq|Hseen]%elem_of_cons|(s & Hs & Hk)].
    + right. exists y. split; [by left|done].
    + by left.
    + right. exists s. split; [by right|done].
Qed.

Lemma dedup_from_prefix {K} `{EqDecision K} (key : Supplier -> K) l1 l2 :
  forall seen,
    dedup_from key seen l1 `prefix_of` dedup_from key seen (l1 ++ l2).
Proof.
  induction l1 as [|y l1 IH]; intros seen; [apply prefix_nil|].
  cbn [app dedup_from]. case_bool_decide; [apply IH|].
  apply prefix_cons, IH.
Qed.

Lemma dedup_from_fixed {K} `{EqDecision K} (key : Supplier -> K) l :
  forall seen,
    NoDup (map key l) -> (forall x, x ∈ l -> key x ∉ seen) ->
    dedup_from key seen l = l.
Proof.
  induction l as [|y l IH]; intros seen Hnd Hseen; [done|].
  cbn [map] in Hnd. apply NoDup_cons in Hnd as [Hy Hnd]. cbn [dedup_from].
  rewrite bool_decide_eq_false_2 by (apply Hseen; by left).
  f_equal. apply IH; [done|]. intros x Hx [Heq|Hin]%elem_of_cons.
  - apply Hy. rewrite <- Heq. change (map key) with (fmap (M:=list) key).
    by apply list_elem_of_fmap_2.
  - by apply (Hseen x); [right|].
Qed.

(** X27. The merged supplier list holds only entities taken from the
    two inputs, each with a company name; every input entity with a
    company name has its key [name|cage] in the list; the DIBBS entities
    come first, as they would be merged alone; and merging a merged list
    again gives it back. *)
Theorem merge_covers_every_named_entity d w :
  (forall s, s ∈ get_unique_suppliers_list d w ->
     (s ∈ map of_source d \/ s ∈ map of_mfr w)
     /\ companyName s <> EmptyString)
  /\ (forall e, e ∈ map of_source d \/ e ∈ map of_mfr w ->
        companyName e <> EmptyString ->
        exists s, s ∈ get_unique_suppliers_list d w /\ key_of s = key_of e)
  /\ get_unique_suppliers_list d [] `prefix_of` get_unique_suppliers_list d w
  /\ get_unique_suppliers_list
       (map (fun s => mkApprovedSource (cageCode s) (partNumber s) (companyName s))
          (get_unique_suppliers_list d w)) []
     = get_unique_suppliers_list d w.
Proof.
  assert (forall (P : Supplier -> bool) l x,
            x ∈ List.filter P l <-> x ∈ l /\ P x = true) as Hfilter.
  { intros P l x. rewrite !list_elem_of_In. apply filter_In. }
  split; [|split; [|split]].
  - intros s Hs. rewrite get_unique_suppliers_list_dedup in Hs.
    apply dedup_from_elem in Hs as [Hs _].
    apply Hfilter in Hs as [Hs Hnamed].
    split; [by apply elem_of_app in Hs|]. by apply truthy_true.
  - intros e He Hname. rewrite get_unique_suppliers_list_dedup.
    destruct (dedup_from_complete key_of
                (List.filter named (map of_source d ++ map of_mfr w)) [] e)
      as [Hnil|Hs]; [|by apply elem_of_nil in Hnil|done].
    apply Hfilter. split; [by apply elem_of_app|]. by apply truthy_true.
  - rewrite !get_unique_suppliers_list_dedup. cbn [map]. rewrite app_nil_r.
    rewrite List.filter_app. apply dedup_from_prefix.
  - pose proof (merged_named d w) as Hnamed.
    set (out := get_unique_suppliers_list d w) in *.
    rewrite get_unique_suppliers_list_dedup. cbn [map]. rewrite app_nil_r.
    rewrite map_map.
    assert (map (fun x => of_source
                   (mkApprovedSource (cageCode x) (partNumber x) (companyName x))) out
            = out) as ->.
    { rewrite <- (map_id out) at 2. apply map_ext. by intros []. }
    assert (List.filter named out = out) as ->.
    { clear -Hnamed. induction Hnamed as [|x l Hx _ IH]; [done|].
      cbn. unfold named at 1. apply truthy_true in Hx. by rewrite Hx, IH. }
    apply dedup_from_fixed; [|intros x _; apply not_elem_of_nil].
    subst out. rewrite get_unique_suppliers_list_dedup. apply dedup_from_NoDup.
Qed.

End MergeFacts.
